(** * mcp-chrome native server: file staging, manifest paths, registration tier

    A shallow embedding of

    - [app/native-server/src/file-handler.ts] (class [FileHandler]),
    - [scripts/browser-config] (manifest paths, registry keys and
      detection per browser), and
    - the [register] and [update-port] commands of the command-line front
      end,

    together with the parts of the Node.js runtime they call ([path], [fs],
    [crypto.randomBytes], [fetch], [Date.now]).  Effects are explicit: a
    computation takes the world (file system, clock, entropy, network,
    console) and returns either a value or a thrown error, with the world it
    leaves behind.  A JavaScript [throw] keeps the side effects made before
    it.

    Conventions of the model:

    - a string is a sequence of 8-bit characters; a request field is an
      optional string, [None] for [undefined]; the argument of the handler,
      of type [any], is [undefined], [null] or an object with these fields;
    - the console keeps what was printed, in order: a line of
      [console.log], or the message and the error object handed to
      [console.error];
    - [path.posix] and [path.win32] follow the algorithms of Node's
      [lib/path.js] ([normalizeString] on the segments of the path);
    - the file handler runs on a POSIX host: its [path] is [path.posix] and
      the file system resolves paths component by component, without
      symbolic links other than dangling ones;
    - times are whole milliseconds;
    - [new URL(url).pathname], [Buffer.from(s, 'base64')], the constant
      [HOST_NAME] and the outcome of the shell commands that look for a
      browser are parameters. *)

From Stdlib Require Import Strings.String Strings.Ascii Lists.List.
From Stdlib Require Import Arith.Arith ZArith.ZArith Bool.Bool micromega.Lia.
From Stdlib Require Import Numbers.DecimalString Numbers.DecimalPos Numbers.DecimalZ.
Import ListNotations.

Local Open Scope string_scope.

(** ** JavaScript strings *)

(** Truthiness of a string value: only the empty string is falsy. *)
Definition nonempty (s : string) : bool :=
  match s with EmptyString => false | String _ _ => true end.

(** Truthiness of an optional string ([undefined] when absent). *)
Definition truthy (o : option string) : bool :=
  match o with Some s => nonempty s | None => false end.

(** [a || b] on an optional string [a] and a default [b]. *)
Definition or_else (o : option string) (d : string) : string :=
  match o with
  | Some s => if nonempty s then s else d
  | None => d
  end.

(** [String.prototype.startsWith]: [starts_with s p] is [s.startsWith(p)]. *)
Definition starts_with (s p : string) : bool := String.prefix p s.

Fixpoint last_char (s : string) : option ascii :=
  match s with
  | EmptyString => None
  | String c EmptyString => Some c
  | String _ r => last_char r
  end.

Definition first_char (s : string) : option ascii :=
  match s with EmptyString => None | String c _ => Some c end.

Definition opt_test {A} (f : A -> bool) (o : option A) : bool :=
  match o with Some a => f a | None => false end.

(** [ends_with s p] is [s.endsWith(p)]. *)
Definition ends_with (s p : string) : bool :=
  let n := String.length s in
  let m := String.length p in
  (m <=? n)%nat && String.eqb (substring (n - m) m s) p.

(** Index of the last occurrence of the character [c] in [s]. *)
Fixpoint last_index_of (c : ascii) (s : string) : option nat :=
  match s with
  | EmptyString => None
  | String d r =>
      match last_index_of c r with
      | Some i => Some (S i)
      | None => if Ascii.eqb d c then Some 0 else None
      end
  end.

(** ** Node's [path] module *)

Module NodePath.

Definition isPosixPathSeparator (c : ascii) : bool := Ascii.eqb c "/".

Definition isPathSeparator (c : ascii) : bool :=
  Ascii.eqb c "/" || Ascii.eqb c "\".

Definition isWindowsDeviceRoot (c : ascii) : bool :=
  let n := nat_of_ascii c in
  ((65 <=? n)%nat && (n <=? 90)%nat) || ((97 <=? n)%nat && (n <=? 122)%nat).

(** The maximal runs of characters between separators, empty runs
    included: [split "/a//b"] is [[""; "a"; ""; "b"]]. *)
Fixpoint split (isSep : ascii -> bool) (s : string) : list string :=
  match s with
  | EmptyString => [EmptyString]
  | String c r =>
      if isSep c then EmptyString :: split isSep r
      else match split isSep r with
           | h :: t => String c h :: t
           | [] => [String c EmptyString]
           end
  end.

(** One segment of [normalizeString]: empty and [.] segments are dropped,
    [..] removes the last kept segment unless there is none or it is
    itself [..]; then it is kept when the path may climb above its
    start and dropped otherwise.  The kept segments are a stack whose top
    is the end of the list. *)
Definition norm_step (allowAboveRoot : bool) (st : list string) (seg : string)
  : list string :=
  if String.eqb seg "" || String.eqb seg "." then st
  else if String.eqb seg ".." then
    match st with
    | [] => if allowAboveRoot then [".."] else []
    | _ :: _ =>
        if String.eqb (last st "") ".." then
          (if allowAboveRoot then (st ++ [".."])%list else st)
        else removelast st
    end
  else (st ++ [seg])%list.

Definition norm_segments (allowAboveRoot : bool) (isSep : ascii -> bool)
  (s : string) : list string :=
  fold_left (norm_step allowAboveRoot) (split isSep s) [].

Definition normalizeString (s : string) (allowAboveRoot : bool)
  (separator : string) (isSep : ascii -> bool) : string :=
  String.concat separator (norm_segments allowAboveRoot isSep s).

(** *** Names and normalized paths *)

(** No character of [s] is a separator. *)
Fixpoint no_sep (isSep : ascii -> bool) (s : string) : bool :=
  match s with
  | EmptyString => true
  | String c r => negb (isSep c) && no_sep isSep r
  end.

(** An ordinary file name: not empty, no separator, neither [.] nor [..]. *)
Definition plain (isSep : ascii -> bool) (s : string) : bool :=
  nonempty s && no_sep isSep s && negb (String.eqb s ".") && negb (String.eqb s "..").

(** What [normalizeString] leaves: plain names, after leading [..]
    segments when the path may climb. *)
Fixpoint normal_stack (isSep : ascii -> bool) (allow : bool) (l : list string)
  : bool :=
  match l with
  | [] => true
  | s :: r => if String.eqb s ".." then allow && normal_stack isSep allow r
              else forallb (plain isSep) l
  end.

(** A POSIX path from its kept segments. *)
Definition render (abs : bool) (l : list string) : string :=
  (if abs then "/" else "") ++ String.concat "/" l.

(** A directory path with its trailing separator. *)
Definition dir_of (isSep : ascii -> bool) (sep : string) (p : string) : string :=
  if opt_test isSep (last_char p) then p else p ++ sep.

(** The segments, each followed by the separator. *)
Definition flat (sep : string) (l : list string) : string :=
  String.concat "" (map (fun s => s ++ sep) l).

(** A Windows path that starts with a drive letter, a colon and a
    separator. *)
Definition drive_rooted (p : string) : bool :=
  match p with
  | String c0 (String c1 (String c2 _)) =>
      isWindowsDeviceRoot c0 && Ascii.eqb c1 ":" && isPathSeparator c2
  | _ => false
  end.

(** *** [path.posix] *)
Module posix.

Definition isAbsolute (p : string) : bool :=
  opt_test isPosixPathSeparator (first_char p).

Definition normalize (p : string) : string :=
  if negb (nonempty p) then "."
  else
    let isAbs := isAbsolute p in
    let trailingSeparator := opt_test isPosixPathSeparator (last_char p) in
    let q := normalizeString p (negb isAbs) "/" isPosixPathSeparator in
    if negb (nonempty q) then
      (if isAbs then "/" else if trailingSeparator then "./" else ".")
    else
      (if isAbs then "/" else "") ++ q ++ (if trailingSeparator then "/" else "").

Definition join (args : list string) : string :=
  match filter nonempty args with
  | [] => "."
  | parts => normalize (String.concat "/" parts)
  end.

(** [basename(p)]: the last non-empty segment, the empty string when
    there is none. *)
Definition basename (p : string) : string :=
  last (filter nonempty (split isPosixPathSeparator p)) "".

(** The extension of a single path component. *)
Definition ext_of (b : string) : string :=
  match last_index_of "." b with
  | None => ""
  | Some 0 => ""
  | Some i =>
      if String.eqb b ".." then ""
      else substring i (String.length b - i) b
  end.

Definition extname (p : string) : string := ext_of (basename p).

(** The trailing separators of [p] (when [p] has a non-separator). *)
Fixpoint trailing_seps (p : string) : string :=
  match p with
  | EmptyString => ""
  | String c r =>
      if nonempty (basename r) then trailing_seps r
      else if isPosixPathSeparator c then p else r
  end.

(** [basename(p, suffix)].  With [b] the last component of [p]:
    [b] without [suffix] when [b] ends with it and is longer; [b]
    when it does not (or is equal to it); and, as Node does, [b] with
    the trailing separators of [p] when [b] is shorter than [suffix]
    and ends it. *)
Definition basename_suffix (p suffix : string) : string :=
  if negb (nonempty suffix) || (String.length p <? String.length suffix)%nat
  then basename p
  else if String.eqb suffix p then ""
  else
    let b := basename p in
    if negb (nonempty b) then p
    else if ends_with b suffix then
      (if (String.length b =? String.length suffix)%nat then b
       else substring 0 (String.length b - String.length suffix) b)
    else if ends_with suffix b then b ++ trailing_seps p
    else b.

End posix.

(** The longest prefix of [s] whose characters satisfy [p], and the rest. *)
Fixpoint span (p : ascii -> bool) (s : string) : string * string :=
  match s with
  | EmptyString => ("", "")
  | String c r =>
      if p c then let (a, b) := span p r in (String c a, b)
      else ("", s)
  end.

(** *** [path.win32] *)
Module win32.

Definition isAbsolute (p : string) : bool :=
  match p with
  | EmptyString => false
  | String c0 r =>
      isPathSeparator c0 ||
      match r with
      | String c1 (String c2 _) =>
          isWindowsDeviceRoot c0 && Ascii.eqb c1 ":" && isPathSeparator c2
      | _ => false
      end
  end.

(** The root of a path: a drive ([C:]), a UNC share, a leading
    separator, or none. *)
Inductive Root :=
| UncRootOnly (normalized : string)
| Rooted (device : option string) (isAbs : bool) (rest : string).

Definition not_sep (c : ascii) : bool := negb (isPathSeparator c).

Definition parse_root (path : string) : Root :=
  match path with
  | String c0 (String c1 r2) =>
      if isPathSeparator c0 then
        if isPathSeparator c1 then
          (* possible UNC root *)
          let (firstPart, r) := span not_sep r2 in
          if nonempty firstPart && nonempty r then
            let (_, r') := span isPathSeparator r in
            if nonempty r' then
              let (share, r'') := span not_sep r' in
              if negb (nonempty r'')
              then UncRootOnly ("\\" ++ firstPart ++ "\" ++ share ++ "\")
              else Rooted (Some ("\\" ++ firstPart ++ "\" ++ share)) true r''
            else Rooted None true path
          else Rooted None true path
        else Rooted None true (String c1 r2)
      else if isWindowsDeviceRoot c0 && Ascii.eqb c1 ":" then
        let device := String c0 (String c1 "") in
        match r2 with
        | String c2 r3 =>
            if isPathSeparator c2 then Rooted (Some device) true r3
            else Rooted (Some device) false r2
        | EmptyString => Rooted (Some device) false ""
        end
      else Rooted None false path
  | _ => Rooted None false path
  end.

Definition normalize (path : string) : string :=
  match path with
  | EmptyString => "."
  | String c EmptyString => if isPosixPathSeparator c then "\" else path
  | _ =>
      match parse_root path with
      | UncRootOnly r => r
      | Rooted device isAbs rest =>
          let tail0 :=
            if nonempty rest
            then normalizeString rest (negb isAbs) "\" isPathSeparator
            else "" in
          let tail1 :=
            if negb (nonempty tail0) && negb isAbs then "." else tail0 in
          let tail :=
            if nonempty tail1 && opt_test isPathSeparator (last_char path)
            then tail1 ++ "\" else tail1 in
          match device with
          | None => if isAbs then "\" ++ tail else tail
          | Some d => if isAbs then d ++ "\" ++ tail else d ++ tail
          end
      end
  end.

(** The first argument starts with exactly two separators and one
    more character: a UNC path is meant. *)
Definition unc_intended (firstPart : string) : bool :=
  match firstPart with
  | String a (String b (String c _)) =>
      isPathSeparator a && isPathSeparator b && negb (isPathSeparator c)
  | _ => false
  end.

Definition join (args : list string) : string :=
  match filter nonempty args with
  | [] => "."
  | (firstPart :: _) as parts =>
      let joined := String.concat "\" parts in
      if unc_intended firstPart then normalize joined
      else
        let (seps, rest) := span isPathSeparator joined in
        if (2 <=? String.length seps)%nat
        then normalize ("\" ++ rest)
        else normalize joined
  end.

End win32.

End NodePath.

(** ** JavaScript errors and effectful computations *)

Module Js.

(** An [Error] object: the constructor name and the message. *)
Record Error := mkError { ename : string; emessage : string }.

(** [new Error(msg)]. *)
Definition error (msg : string) : Error := mkError "Error" msg.

(** [Error.prototype.toString], which a template literal applies. *)
Definition toString (e : Error) : string :=
  if negb (nonempty (emessage e)) then ename e
  else if negb (nonempty (ename e)) then emessage e
  else ename e ++ ": " ++ emessage e.

(** How a computation ends: a returned value or a thrown error. *)
Inductive Outcome (A : Type) : Type :=
| Return (a : A)
| Throw (e : Error).
Arguments Return {A} a.
Arguments Throw {A} e.

Section Comp.
Variable W : Type.

(** A computation over the world [W]. *)
Definition M (A : Type) : Type := W -> Outcome A * W.

Definition ret {A} (a : A) : M A := fun w => (Return a, w).

Definition throw {A} (e : Error) : M A := fun w => (Throw e, w).

Definition bind {A B} (m : M A) (f : A -> M B) : M B :=
  fun w =>
    match m w with
    | (Return a, w') => f a w'
    | (Throw e, w') => (Throw e, w')
    end.

(** [try { m } catch (e) { h e }]. *)
Definition try_catch {A} (m : M A) (h : Error -> M A) : M A :=
  fun w =>
    match m w with
    | (Return a, w') => (Return a, w')
    | (Throw e, w') => h e w'
    end.

Definition gets {A} (f : W -> A) : M A := fun w => (Return (f w), w).

Definition modify (f : W -> W) : M unit := fun w => (Return tt, f w).

(** The outcome of a computation is a normal return. *)
Definition returns {A} (o : Outcome A * W) : Prop :=
  match fst o with Return _ => True | Throw _ => False end.
End Comp.

Arguments ret {W A} a.
Arguments throw {W A} e.
Arguments bind {W A B} m f.
Arguments try_catch {W A} m h.
Arguments gets {W A} f.
Arguments modify {W} f.
Arguments returns {W A} o.

End Js.

Import Js.

Declare Scope js_scope.
Delimit Scope js_scope with js.
Notation "x <- m ;; k" := (bind m (fun x => k))
  (at level 61, m at next level, right associativity) : js_scope.
Notation "m ;;; k" := (bind m (fun _ => k))
  (at level 61, right associativity) : js_scope.

(** ** The world: file system, clock, entropy, network, console *)

Module NodeFs.

(** A canonical absolute path: the names from the root down. *)
Definition Key := list string.

Definition key_dec : forall a b : Key, {a = b} + {a <> b} :=
  list_eq_dec string_dec.

(** What a directory entry is.  Symbolic links other than dangling ones
    are not modelled (a link to an existing target behaves as its
    target). *)
Inductive Node :=
| File (mtimeMs : Z) (readable : bool) (data : list Byte.byte)
| Dir (mtimeMs : Z)
| DanglingLink.

(** A response of the network to [fetch(url)]. *)
Record HttpResponse := mkResponse {
  ok : bool;
  statusText : string;
  body : Outcome (list Byte.byte)   (* what [response.buffer()] settles to *)
}.

(** What the program printed: a line of [console.log], on the standard
    output, or a call [console.error(message, error)], which prints the
    message and the inspected error object on the standard error. *)
Inductive Printed :=
| Out (line : string)
| Err (message : string) (error : Error).

Record World := mkWorld {
  entries : list (Key * Node);   (* the file table, in directory order *)
  cwd : Key;                     (* [process.cwd()] *)
  now : Z;                       (* [Date.now()], milliseconds *)
  entropy : nat -> Byte.byte;    (* the bytes [crypto.randomBytes] hands out *)
  epos : nat;                    (* how many of them are used *)
  net : string -> Outcome HttpResponse;
  console : list Printed         (* what was printed, oldest first *)
}.

Definition set_entries (t : list (Key * Node)) (w : World) : World :=
  mkWorld t (cwd w) (now w) (entropy w) (epos w) (net w) (console w).

(** The world when the clock shows [z]. *)
Definition set_now (z : Z) (w : World) : World :=
  mkWorld (entries w) (cwd w) z (entropy w) (epos w) (net w) (console w).

Definition lookup (t : list (Key * Node)) (k : Key) : option Node :=
  match k with
  | [] => Some (Dir 0)
  | _ => match find (fun e => if key_dec (fst e) k then true else false) t with
         | Some e => Some (snd e)
         | None => None
         end
  end.

Definition remove (t : list (Key * Node)) (k : Key) : list (Key * Node) :=
  filter (fun e => if key_dec (fst e) k then false else true) t.

(** Replace the node at [k], keeping its place in the table. *)
Definition replace (t : list (Key * Node)) (k : Key) (n : Node)
  : list (Key * Node) :=
  map (fun e => if key_dec (fst e) k then (k, n) else e) t.

(** The names of the entries directly under [d], in table order. *)
Fixpoint children (t : list (Key * Node)) (d : Key) : list string :=
  match t with
  | [] => []
  | (k, _) :: t' =>
      match k with
      | [] => children t' d
      | _ => if key_dec (removelast k) d
             then last k "" :: children t' d
             else children t' d
      end
  end.

(** Path resolution, one component at a time, as the kernel does it. *)
Inductive Resolved :=
| Found (k : Key) (n : Node)
| Missing (k : Key)       (* the parent directory exists, the last name does not *)
| Failed (code : string).

Fixpoint walk (t : list (Key * Node)) (cur : Key) (comps : list string)
  : Resolved :=
  match comps with
  | [] =>
      match lookup t cur with
      | Some n => Found cur n
      | None => Failed "ENOENT"
      end
  | c :: rest =>
      match lookup t cur with
      | Some (Dir _) =>
          if String.eqb c "" || String.eqb c "." then walk t cur rest
          else if String.eqb c ".." then walk t (removelast cur) rest
          else
            let k := (cur ++ [c])%list in
            match lookup t k with
            | Some _ => walk t k rest
            | None => match rest with
                      | [] => Missing k
                      | _ => Failed "ENOENT"
                      end
            end
      | Some (File _ _ _) => Failed "ENOTDIR"
      | Some DanglingLink => Failed "ENOENT"
      | None => Failed "ENOENT"
      end
  end.

Definition resolve (w : World) (p : string) : Resolved :=
  if negb (nonempty p) then Failed "ENOENT"
  else walk (entries w)
            (if NodePath.posix.isAbsolute p then [] else cwd w)
            (NodePath.split NodePath.isPosixPathSeparator p).

Definition describe (code : string) : string :=
  if String.eqb code "ENOENT" then "no such file or directory"
  else if String.eqb code "ENOTDIR" then "not a directory"
  else if String.eqb code "EISDIR" then "illegal operation on a directory"
  else if String.eqb code "EACCES" then "permission denied"
  else if String.eqb code "EEXIST" then "file already exists"
  else "unknown error".

(** The error a failing system call throws. *)
Definition syserr (code syscall p : string) : Error :=
  mkError "Error" (code ++ ": " ++ describe code ++ ", " ++ syscall ++ " '" ++ p ++ "'").

Record Stats := mkStats { isFile : bool; mtimeMs : Z; size : nat }.

(** [fs.existsSync]: never throws; follows links. *)
Definition existsSync (p : string) : M World bool :=
  fun w =>
    match resolve w p with
    | Found _ (File _ _ _) | Found _ (Dir _) => (Return true, w)
    | _ => (Return false, w)
    end.

Definition statSync (p : string) : M World Stats :=
  fun w =>
    match resolve w p with
    | Found _ (File m _ d) => (Return (mkStats true m (List.length d)), w)
    | Found _ (Dir m) => (Return (mkStats false m 4096), w)
    | Found _ DanglingLink | Missing _ => (Throw (syserr "ENOENT" "stat" p), w)
    | Failed c => (Throw (syserr c "stat" p), w)
    end.

(** [fs.accessSync(p, fs.constants.R_OK)]. *)
Definition accessSync_R_OK (p : string) : M World unit :=
  fun w =>
    match resolve w p with
    | Found _ (File _ r _) =>
        if r then (Return tt, w) else (Throw (syserr "EACCES" "access" p), w)
    | Found _ (Dir _) => (Return tt, w)
    | Found _ DanglingLink | Missing _ => (Throw (syserr "ENOENT" "access" p), w)
    | Failed c => (Throw (syserr c "access" p), w)
    end.

(** [fs.unlinkSync]: removes a file or a link, refuses a directory. *)
Definition unlinkSync (p : string) : M World unit :=
  fun w =>
    match resolve w p with
    | Found k (File _ _ _) | Found k DanglingLink =>
        (Return tt, set_entries (remove (entries w) k) w)
    | Found _ (Dir _) => (Throw (syserr "EISDIR" "unlink" p), w)
    | Missing _ => (Throw (syserr "ENOENT" "unlink" p), w)
    | Failed c => (Throw (syserr c "unlink" p), w)
    end.

Definition readdirSync (p : string) : M World (list string) :=
  fun w =>
    match resolve w p with
    | Found k (Dir _) => (Return (children (entries w) k), w)
    | Found _ (File _ _ _) => (Throw (syserr "ENOTDIR" "scandir" p), w)
    | Found _ DanglingLink | Missing _ => (Throw (syserr "ENOENT" "scandir" p), w)
    | Failed c => (Throw (syserr c "scandir" p), w)
    end.

(** [fs.writeFileSync(p, data)]: creates the file or replaces its content. *)
Definition writeFileSync (p : string) (d : list Byte.byte) : M World unit :=
  fun w =>
    match resolve w p with
    | Found k (File _ r _) =>
        (Return tt, set_entries (replace (entries w) k (File (now w) r d)) w)
    | Missing k =>
        (Return tt, set_entries (entries w ++ [(k, File (now w) true d)])%list w)
    | Found _ (Dir _) => (Throw (syserr "EISDIR" "open" p), w)
    | Found _ DanglingLink => (Throw (syserr "ENOENT" "open" p), w)
    | Failed c => (Throw (syserr c "open" p), w)
    end.

(** [mkdir -p] along the components [comps] from the directory [cur]. *)
Fixpoint mkdirp (mtime : Z) (t : list (Key * Node)) (cur : Key)
  (comps : list string) : string + list (Key * Node) :=
  match comps with
  | [] => inr t
  | c :: rest =>
      if String.eqb c "" || String.eqb c "." then mkdirp mtime t cur rest
      else if String.eqb c ".." then mkdirp mtime t (removelast cur) rest
      else
        let k := (cur ++ [c])%list in
        match lookup t k with
        | Some (Dir _) => mkdirp mtime t k rest
        | Some (File _ _ _) =>
            match rest with [] => inl "EEXIST" | _ => inl "ENOTDIR" end
        | Some DanglingLink => inl "EEXIST"
        | None => mkdirp mtime (t ++ [(k, Dir mtime)])%list k rest
        end
  end.

(** [fs.mkdirSync(p, { recursive: true })]. *)
Definition mkdirSync_recursive (p : string) : M World unit :=
  fun w =>
    if negb (nonempty p) then (Throw (syserr "ENOENT" "mkdir" p), w)
    else
      match mkdirp (now w) (entries w)
              (if NodePath.posix.isAbsolute p then [] else cwd w)
              (NodePath.split NodePath.isPosixPathSeparator p) with
      | inr t => (Return tt, set_entries t w)
      | inl c => (Throw (syserr c "mkdir" p), w)
      end.

(** [Date.now()]. *)
Definition Date_now : M World Z := gets now.

(** [crypto.randomBytes(n)]: the next [n] bytes of the entropy. *)
Definition randomBytes (n : nat) : M World (list Byte.byte) :=
  fun w =>
    (Return (map (fun i => entropy w (epos w + i)) (seq 0 n)),
     mkWorld (entries w) (cwd w) (now w) (entropy w) (epos w + n) (net w) (console w)).

(** [fetch(url)]: the promise rejects on a network error. *)
Definition fetch (url : string) : M World HttpResponse :=
  fun w => (net w url, w).

(** [response.buffer()]. *)
Definition buffer (r : HttpResponse) : M World (list Byte.byte) :=
  fun w => (body r, w).

Definition print (x : Printed) : M World unit :=
  modify (fun w => mkWorld (entries w) (cwd w) (now w) (entropy w) (epos w)
                           (net w) (console w ++ [x])%list).

(** [console.log(line)]. *)
Definition console_log (line : string) : M World unit := print (Out line).

(** [console.error(message, error)]. *)
Definition console_error (message : string) (error : Error) : M World unit :=
  print (Err message error).

(** *** Well-formed tables *)

Definition is_dir (o : option Node) : bool :=
  match o with Some (Dir _) => true | _ => false end.

Fixpoint distinct (l : list Key) : bool :=
  match l with
  | [] => true
  | k :: r => negb (existsb (fun k' => if key_dec k k' then true else false) r)
              && distinct r
  end.

(** No path is listed twice and every name is an ordinary file name. *)
Definition wf_table (t : list (Key * Node)) : bool :=
  distinct (map fst t) &&
  forallb (fun e => forallb (NodePath.plain NodePath.isPosixPathSeparator) (fst e)) t.

(** The [k] bytes of the entropy from position [from]. *)
Definition window (w : World) (from k : nat) : list Byte.byte :=
  map (fun i => entropy w (from + i)) (seq 0 k).

(** [p] resolves to an entry (or a free name) strictly below the
    directory [root]. *)
Definition resolves_inside (w : World) (root p : string) : bool :=
  match resolve w root, resolve w p with
  | Found d (Dir _), Found k _ | Found d (Dir _), Missing k =>
      (List.length d <? List.length k)%nat &&
      (if key_dec (firstn (List.length d) k) d then true else false)
  | _, _ => false
  end.

End NodeFs.

(** ** Encodings *)

(** [Buffer.prototype.toString('hex')]. *)
Definition hex_digit (n : nat) : ascii :=
  nth n ["0"; "1"; "2"; "3"; "4"; "5"; "6"; "7"; "8"; "9";
         "a"; "b"; "c"; "d"; "e"; "f"]%char "0"%char.

Definition hex_of_byte (b : Byte.byte) : string :=
  let n := Byte.to_nat b in
  String (hex_digit (n / 16)) (String (hex_digit (n mod 16)) "").

Fixpoint hex (bs : list Byte.byte) : string :=
  match bs with
  | [] => ""
  | b :: r => hex_of_byte b ++ hex r
  end.

(** The decimal form of an integer, as a template literal prints it. *)
Definition decimal (z : Z) : string :=
  DecimalString.NilZero.string_of_int (Z.to_int z).

Definition is_line_terminator (c : ascii) : bool :=
  Ascii.eqb c "010" || Ascii.eqb c "013".

(** The rest of [s] after the first [;base64,] that is reached without
    crossing a line terminator (the lazy [.*?] of the pattern). *)
Fixpoint after_base64_marker (s : string) : option string :=
  if String.prefix ";base64," s
  then Some (substring 8 (String.length s - 8) s)
  else match s with
       | EmptyString => None
       | String c r => if is_line_terminator c then None else after_base64_marker r
       end.

(** [s.replace(/^data:.*?;base64,/, '')]. *)
Definition strip_data_url_prefix (s : string) : string :=
  if String.prefix "data:" s then
    match after_base64_marker (substring 5 (String.length s - 5) s) with
    | Some r => r
    | None => s
    end
  else s.

(** The value of a hexadecimal digit, and of a pair of them. *)
Definition hex_value (c : ascii) : nat :=
  let n := nat_of_ascii c in
  if (n <? 58)%nat then n - 48 else n - 87.

Definition unhex_byte (s : string) : nat :=
  match s with
  | String a (String b _) => 16 * hex_value a + hex_value b
  | _ => 0
  end.

Fixpoint has_char (c : ascii) (s : string) : bool :=
  match s with
  | EmptyString => false
  | String x r => Ascii.eqb x c || has_char c r
  end.

Fixpoint all_chars (f : ascii -> bool) (s : string) : bool :=
  match s with
  | EmptyString => true
  | String c r => f c && all_chars f r
  end.

(** A character of the header of a data URL: the comma ends the header,
    and the pattern of [saveBase64File] does not cross a line break. *)
Definition header_char (c : ascii) : bool :=
  negb (Ascii.eqb c ",") && negb (is_line_terminator c).

(** ** [file-handler.ts] *)

Module FileHandler.
Import NodeFs.
Local Open Scope js_scope.

Record t := mk { tempDir : string }.

(** What the handler answers: [{success: true, filePath, fileName, size}],
    [{success: true, message}] or [{success: false, error}]. *)
Inductive Reply :=
| Staged (filePath fileName : string) (size : nat)
| Cleaned (message : string)
| Failure (error : string).

Definition success (r : Reply) : bool :=
  match r with Failure _ => false | _ => true end.

(** The request, an object; a missing field is [undefined]. *)
Record Request := mkRequest {
  action : option string;
  fileUrl : option string;
  base64Data : option string;
  fileName : option string;
  filePath : option string
}.

(** The argument of [handleFileRequest], of type [any]: [undefined],
    [null], or a value that is read through the five fields (a value
    without them, a number say, is the request with no field). *)
Inductive Argument :=
| Undefined
| Null
| Object (request : Request).

Coercion Object : Request >-> Argument.

(** A value in a template literal. *)
Definition show (o : option string) : string :=
  match o with Some s => s | None => "undefined" end.

Definition value (o : option string) : string :=
  match o with Some s => s | None => "" end.

(** [action === s], the test of a [case] label. *)
Definition is_action (o : option string) (s : string) : bool :=
  match o with Some a => String.eqb a s | None => false end.

Fixpoint for_each {A} (l : list A) (f : A -> M World unit) : M World unit :=
  match l with
  | [] => ret tt
  | a :: r => f a ;;; for_each r f
  end.

(** [constructor()]; [os_tmpdir] is [os.tmpdir()]. *)
Definition new (os_tmpdir : string) : M World t :=
  let tempDir := NodePath.posix.join [os_tmpdir; "chrome-mcp-uploads"] in
  e <- existsSync tempDir ;;
  (if negb e then mkdirSync_recursive tempDir else ret tt) ;;;
  ret (mk tempDir).

Section Runtime.
(** [new URL(url).pathname]; [None] when the constructor throws. *)
Variable url_pathname : string -> option string.
(** [Buffer.from(s, 'base64')]. *)
Variable base64_decode : string -> list Byte.byte.

Variable this : t.

Definition random_name : M World string :=
  r <- randomBytes 8 ;;
  ret ("upload-" ++ hex r ++ ".bin").

Definition generateFileName (url : option string) : M World string :=
  if truthy url then
    match url_pathname (value url) with
    | Some pathname =>
        let basename := NodePath.posix.basename pathname in
        if nonempty basename && negb (String.eqb basename "/") then
          let ext := NodePath.posix.extname basename in
          let name := NodePath.posix.basename_suffix basename ext in
          randomSuffix <- randomBytes 4 ;;
          ret (name ++ "-" ++ hex randomSuffix ++ ext)
        else random_name
    | None => random_name   (* invalid URL: fall through *)
    end
  else random_name.

Definition downloadFile (fileUrl : string) (fileName : option string)
  : M World Reply :=
  try_catch
    (response <- fetch fileUrl ;;
     (if negb (ok response)
      then throw (error ("Failed to download file: " ++ statusText response))
      else ret tt) ;;;
     finalFileName <- (if truthy fileName then ret (value fileName)
                       else generateFileName (Some fileUrl)) ;;
     let filePath := NodePath.posix.join [tempDir this; finalFileName] in
     buf <- buffer response ;;
     writeFileSync filePath buf ;;;
     ret (Staged filePath finalFileName (List.length buf)))
    (fun e => throw (error ("Failed to download file from URL: " ++ toString e))).

Definition saveBase64File (base64Data : string) (fileName : option string)
  : M World Reply :=
  try_catch
    (let base64Content := strip_data_url_prefix base64Data in
     let buf := base64_decode base64Content in
     finalFileName <- (if truthy fileName then ret (value fileName)
                       else (n <- Date_now ;;
                             ret ("upload-" ++ decimal n ++ ".bin"))) ;;
     let filePath := NodePath.posix.join [tempDir this; finalFileName] in
     writeFileSync filePath buf ;;;
     ret (Staged filePath finalFileName (List.length buf)))
    (fun e => throw (error ("Failed to save base64 file: " ++ toString e))).

Definition verifyFile (filePath : string) : M World Reply :=
  try_catch
    (e <- existsSync filePath ;;
     (if negb e
      then throw (error ("File does not exist: " ++ filePath))
      else ret tt) ;;;
     stats <- statSync filePath ;;
     (if negb (isFile stats)
      then throw (error ("Path is not a file: " ++ filePath))
      else ret tt) ;;;
     accessSync_R_OK filePath ;;;
     ret (Staged filePath (NodePath.posix.basename filePath) (size stats)))
    (fun e => throw (error ("Failed to verify file: " ++ toString e))).

Definition cleanupFile (filePath : option string) : M World Reply :=
  try_catch
    (match filePath with
     | None =>
         throw (mkError "TypeError"
           "Cannot read properties of undefined (reading 'startsWith')")
     | Some p =>
         if negb (starts_with p (tempDir this)) then
           ret (Failure "Can only cleanup files in temp directory")
         else
           e <- existsSync p ;;
           (if e then unlinkSync p else ret tt) ;;;
           ret (Cleaned "File cleaned up successfully")
     end)
    (fun e => ret (Failure ("Failed to cleanup file: " ++ toString e))).

(** The destructuring of line 25 comes before the [try]: on [undefined]
    and [null] it throws a [TypeError] that no handler catches. *)
Definition handleFileRequest (request : Argument) : M World (option Reply) :=
  match request with
  | Undefined =>
      throw (mkError "TypeError"
        "Cannot destructure property 'action' of 'request' as it is undefined.")
  | Null =>
      throw (mkError "TypeError"
        "Cannot destructure property 'action' of 'request' as it is null.")
  | Object request =>
      try_catch
        (let action := action request in
         if is_action action "prepareFile" then
           if truthy (fileUrl request) then
             r <- downloadFile (value (fileUrl request)) (fileName request) ;;
             ret (Some r)
           else if truthy (base64Data request) then
             r <- saveBase64File (value (base64Data request)) (fileName request) ;;
             ret (Some r)
           else if truthy (filePath request) then
             r <- verifyFile (value (filePath request)) ;;
             ret (Some r)
           else ret None   (* [break]: the function ends without a value *)
         else if is_action action "cleanupFile" then
           r <- cleanupFile (filePath request) ;;
           ret (Some r)
         else
           ret (Some (Failure ("Unknown file action: " ++ show action))))
        (fun e => ret (Some (Failure (emessage e))))
  end.

Definition oneHour : Z := 60 * 60 * 1000.

(** The body of the loop over the listed names. *)
Definition sweep_entry (now : Z) (file : string) : M World unit :=
  let filePath := NodePath.posix.join [tempDir this; file] in
  stats <- statSync filePath ;;
  if (now - mtimeMs stats >? oneHour)%Z then
    unlinkSync filePath ;;;
    console_log ("Cleaned up old temp file: " ++ file)
  else ret tt.

Definition cleanupOldFiles : M World unit :=
  try_catch
    (now <- Date_now ;;
     files <- readdirSync (tempDir this) ;;
     for_each files (sweep_entry now))
    (fun e => console_error "Error cleaning up old files:" e).

End Runtime.

(** *** Reading the operations *)

(** The path exists, is a regular file and is readable; its size. *)
Definition verifiable (w : World) (p : string) : option nat :=
  match resolve w p with
  | Found _ (File _ true d) => Some (List.length d)
  | _ => None
  end.

(** What the handler makes of the outcome of a staging operation. *)
Definition settled (o : Outcome Reply * World) : Outcome (option Reply) * World :=
  match o with
  | (Return r, w) => (Return (Some r), w)
  | (Throw e, w) => (Return (Some (Failure (emessage e))), w)
  end.

(** The last path segment of the URL, when there is a usable one. *)
Definition usable_basename (url_pathname : string -> option string)
  (url : option string) : option string :=
  if truthy url then
    match url_pathname (value url) with
    | Some pathname =>
        let b := NodePath.posix.basename pathname in
        if nonempty b && negb (String.eqb b "/") then Some b else None
    | None => None
    end
  else None.

(** The two shapes of a synthesized name. *)
Definition suffixed_name (b : string) (r : list Byte.byte) : string :=
  NodePath.posix.basename_suffix b (NodePath.posix.extname b)
    ++ "-" ++ hex r ++ NodePath.posix.extname b.

Definition random_upload_name (r : list Byte.byte) : string :=
  "upload-" ++ hex r ++ ".bin".

(** The sweep on the table: the names are taken in order; a regular file
    older than one hour is removed; the first name that cannot be
    examined (gone, dangling link) or deleted (an old directory) ends the
    sweep.  The flag tells whether it ended that way. *)
Fixpoint sweep_table (now : Z) (d : Key) (t : list (Key * Node))
  (names : list string) : bool * list (Key * Node) :=
  match names with
  | [] => (false, t)
  | n :: rest =>
      match lookup t (d ++ [n])%list with
      | Some (File m _ _) =>
          if (now - m >? oneHour)%Z
          then sweep_table now d (remove t (d ++ [n])%list) rest
          else sweep_table now d t rest
      | Some (Dir m) =>
          if (now - m >? oneHour)%Z then (true, t)
          else sweep_table now d t rest
      | Some DanglingLink | None => (true, t)
      end
  end.

(** The sweep as the specification has it: whatever else is in the
    scratch root, no regular file older than one hour is left. *)
Definition sweep_deletes_every_old_entry (this : t) (d : Key) (w : World)
  : Prop :=
  forall n m r dt,
    lookup (entries w) (d ++ [n])%list = Some (File m r dt) ->
    (now w - m >? oneHour)%Z = true ->
    lookup (entries (snd (cleanupOldFiles this w))) (d ++ [n])%list = None.

(** An entry that cannot be examined or deleted. *)
Definition failing (now : Z) (d : Key) (t : list (Key * Node)) (n : string)
  : Prop :=
  match lookup t (d ++ [n])%list with
  | Some (File _ _ _) => False
  | Some (Dir m) => (now - m >? oneHour)%Z = true
  | Some DanglingLink | None => True
  end.

(** What the sweep leaves of an entry it handles: nothing of a regular
    file older than one hour, the entry itself otherwise. *)
Definition after_sweep (now : Z) (o : option Node) : option Node :=
  match o with
  | Some (File m _ _) => if (now - m >? oneHour)%Z then None else o
  | _ => o
  end.

(** The error that ends the sweep at a failing entry [n]: [unlinkSync]
    refuses a directory, and [statSync] finds nothing behind a dangling
    link or a name that is gone. *)
Definition stop_error (this : t) (d : Key) (table : list (Key * Node))
  (n : string) : Error :=
  let filePath := NodePath.posix.join [tempDir this; n] in
  match lookup table (d ++ [n])%list with
  | Some (Dir _) => syserr "EISDIR" "unlink" filePath
  | _ => syserr "ENOENT" "stat" filePath
  end.

(** The line the sweep prints for a deleted entry. *)
Definition deleted_line (file : string) : Printed :=
  Out ("Cleaned up old temp file: " ++ file).

(** The name is listed in the directory [d]. *)
Definition present (d : Key) (t : list (Key * Node)) (n : string) : bool :=
  match lookup t (d ++ [n])%list with Some _ => true | None => false end.

End FileHandler.

(** ** [scripts/browser-config] *)

Module BrowserConfig.

(** [enum BrowserType]; at run time a variant is its string. *)
Definition BrowserType := string.
Definition CHROME : BrowserType := "chrome".
Definition CHROMIUM : BrowserType := "chromium".

(** The inputs read from the process: [os.platform()], [os.homedir()]
    and the two environment variables. *)
Record Env := mkEnv {
  platform : string;
  homedir : string;
  APPDATA : option string;
  ProgramFiles : option string
}.

(** [interface BrowserConfig]. *)
Record BrowserConfig := mkConfig {
  type : BrowserType;
  displayName : string;
  userManifestPath : string;
  systemManifestPath : string;
  registryKey : option string;        (* Windows only *)
  systemRegistryKey : option string   (* Windows only *)
}.

Record RegistryKeys := mkKeys { user : string; system : string }.

(** [String.prototype.toUpperCase] on one ASCII letter. *)
Definition upper (c : ascii) : ascii :=
  let n := nat_of_ascii c in
  if (97 <=? n)%nat && (n <=? 122)%nat then ascii_of_nat (n - 32) else c.

(** [s.charAt(0).toUpperCase() + s.slice(1)]. *)
Definition capitalize (s : string) : string :=
  match s with
  | EmptyString => EmptyString
  | String c r => String (upper c) r
  end.

(** A double quote, for the commands handed to the shell. *)
Definition dquote : string := String "034"%char "".

Section Host.
(** [HOST_NAME] of [./constant]. *)
Variable HOST_NAME : string.
Variable env : Env.

Definition manifest : string := HOST_NAME ++ ".json".

Definition getUserManifestPathForBrowser (browser : BrowserType) : string :=
  let platform := platform env in
  if String.eqb platform "win32" then
    let appData :=
      or_else (APPDATA env)
              (NodePath.win32.join [homedir env; "AppData"; "Roaming"]) in
    if String.eqb browser CHROME then
      NodePath.win32.join [appData; "Google"; "Chrome"; "NativeMessagingHosts"; manifest]
    else if String.eqb browser CHROMIUM then
      NodePath.win32.join [appData; "Chromium"; "NativeMessagingHosts"; manifest]
    else
      NodePath.win32.join [appData; "Google"; "Chrome"; "NativeMessagingHosts"; manifest]
  else if String.eqb platform "darwin" then
    let home := homedir env in
    if String.eqb browser CHROME then
      NodePath.posix.join
        [home; "Library"; "Application Support"; "Google"; "Chrome";
         "NativeMessagingHosts"; manifest]
    else if String.eqb browser CHROMIUM then
      NodePath.posix.join
        [home; "Library"; "Application Support"; "Chromium";
         "NativeMessagingHosts"; manifest]
    else
      NodePath.posix.join
        [home; "Library"; "Application Support"; "Google"; "Chrome";
         "NativeMessagingHosts"; manifest]
  else
    (* Linux *)
    let home := homedir env in
    if String.eqb browser CHROME then
      NodePath.posix.join
        [home; ".config"; "google-chrome"; "NativeMessagingHosts"; manifest]
    else if String.eqb browser CHROMIUM then
      NodePath.posix.join
        [home; ".config"; "chromium"; "NativeMessagingHosts"; manifest]
    else
      NodePath.posix.join
        [home; ".config"; "google-chrome"; "NativeMessagingHosts"; manifest].

Definition getSystemManifestPathForBrowser (browser : BrowserType) : string :=
  let platform := platform env in
  if String.eqb platform "win32" then
    let programFiles := or_else (ProgramFiles env) "C:\Program Files" in
    if String.eqb browser CHROME then
      NodePath.win32.join
        [programFiles; "Google"; "Chrome"; "NativeMessagingHosts"; manifest]
    else if String.eqb browser CHROMIUM then
      NodePath.win32.join [programFiles; "Chromium"; "NativeMessagingHosts"; manifest]
    else
      NodePath.win32.join
        [programFiles; "Google"; "Chrome"; "NativeMessagingHosts"; manifest]
  else if String.eqb platform "darwin" then
    if String.eqb browser CHROME then
      NodePath.posix.join
        ["/Library"; "Google"; "Chrome"; "NativeMessagingHosts"; manifest]
    else if String.eqb browser CHROMIUM then
      NodePath.posix.join
        ["/Library"; "Application Support"; "Chromium"; "NativeMessagingHosts";
         manifest]
    else
      NodePath.posix.join
        ["/Library"; "Google"; "Chrome"; "NativeMessagingHosts"; manifest]
  else
    (* Linux *)
    if String.eqb browser CHROME then
      NodePath.posix.join ["/etc"; "opt"; "chrome"; "native-messaging-hosts"; manifest]
    else if String.eqb browser CHROMIUM then
      NodePath.posix.join ["/etc"; "chromium"; "native-messaging-hosts"; manifest]
    else
      NodePath.posix.join ["/etc"; "opt"; "chrome"; "native-messaging-hosts"; manifest].

(** [getRegistryKeys]: the table [browserPaths] is indexed by the
    browser; [None] stands for a value without the two keys ([undefined]
    off Windows and for a name the table does not list). *)
Definition getRegistryKeys (browser : BrowserType) : option RegistryKeys :=
  if negb (String.eqb (platform env) "win32") then None
  else
    let browserPaths :=
      [ (CHROME,
         mkKeys ("HKCU\Software\Google\Chrome\NativeMessagingHosts\" ++ HOST_NAME)
                ("HKLM\Software\Google\Chrome\NativeMessagingHosts\" ++ HOST_NAME));
        (CHROMIUM,
         mkKeys ("HKCU\Software\Chromium\NativeMessagingHosts\" ++ HOST_NAME)
                ("HKLM\Software\Chromium\NativeMessagingHosts\" ++ HOST_NAME)) ] in
    option_map snd (find (fun e => String.eqb (fst e) browser) browserPaths).

Definition getBrowserConfig (browser : BrowserType) : BrowserConfig :=
  let registryKeys := getRegistryKeys browser in
  mkConfig browser
           (capitalize browser)
           (getUserManifestPathForBrowser browser)
           (getSystemManifestPathForBrowser browser)
           (option_map user registryKeys)
           (option_map system registryKeys).

(** [Object.values(BrowserType).map(getBrowserConfig)]. *)
Definition getAllBrowserConfigs : list BrowserConfig :=
  map getBrowserConfig [CHROME; CHROMIUM].

End Host.

Section Detect.
(** [execSync(command, { stdio: 'pipe' })] returns when the command
    exits with status 0 and throws otherwise; [fs.existsSync]. *)
Variable command_succeeds : string -> bool.
Variable existsSync : string -> bool.

(** The inner loop of the Linux branch: the first command that is found
    adds the browser and leaves the loop. *)
Fixpoint try_commands (type : BrowserType) (commands : list string)
  (detectedBrowsers : list BrowserType) : list BrowserType :=
  match commands with
  | [] => detectedBrowsers
  | cmd :: rest =>
      if command_succeeds ("which " ++ cmd ++ " 2>/dev/null")
      then (detectedBrowsers ++ [type])%list   (* push; break *)
      else try_commands type rest detectedBrowsers
  end.

Definition detectInstalledBrowsers (platform : string) : list BrowserType :=
  if String.eqb platform "win32" then
    fold_left
      (fun detectedBrowsers (browser : BrowserType * string) =>
         if command_succeeds ("reg query " ++ dquote ++ snd browser ++ dquote ++ " 2>nul")
         then (detectedBrowsers ++ [fst browser])%list
         else detectedBrowsers)
      [ (CHROME, "HKLM\SOFTWARE\Google\Chrome");
        (CHROMIUM, "HKLM\SOFTWARE\Chromium") ]
      []
  else if String.eqb platform "darwin" then
    fold_left
      (fun detectedBrowsers (browser : BrowserType * string) =>
         if existsSync (snd browser)
         then (detectedBrowsers ++ [fst browser])%list
         else detectedBrowsers)
      [ (CHROME, "/Applications/Google Chrome.app");
        (CHROMIUM, "/Applications/Chromium.app") ]
      []
  else
    fold_left
      (fun detectedBrowsers (browser : BrowserType * list string) =>
         try_commands (fst browser) (snd browser) detectedBrowsers)
      [ (CHROME, ["google-chrome"; "google-chrome-stable"]);
        (CHROMIUM, ["chromium"; "chromium-browser"]) ]
      [].

End Detect.

(** [String.prototype.toLowerCase] on the ASCII letters. *)
Definition lower (c : ascii) : ascii :=
  let n := nat_of_ascii c in
  if (65 <=? n)%nat && (n <=? 90)%nat then ascii_of_nat (n + 32) else c.

Fixpoint toLowerCase (s : string) : string :=
  match s with
  | EmptyString => EmptyString
  | String c r => String (lower c) (toLowerCase r)
  end.

(** [Object.values(BrowserType).find((type) => type === normalized)]. *)
Definition parseBrowserType (browserStr : string) : option BrowserType :=
  let normalized := toLowerCase browserStr in
  find (fun type => String.eqb type normalized) [CHROME; CHROMIUM].

(** *** The resolver of the specification *)

(** The installation tier. *)
Inductive Tier := UserTier | SystemTier.

(** [resolve(variant, tier, platform, env)]: the two functions above. *)
Definition manifest_path (HOST_NAME : string) (env : Env) (variant : BrowserType)
  (tier : Tier) : string :=
  match tier with
  | UserTier => getUserManifestPathForBrowser HOST_NAME env variant
  | SystemTier => getSystemManifestPathForBrowser HOST_NAME env variant
  end.

Definition is_win32 (env : Env) : bool := String.eqb (platform env) "win32".
Definition is_darwin (env : Env) : bool := String.eqb (platform env) "darwin".

Definition supported_platform (env : Env) : bool :=
  existsb (String.eqb (platform env)) ["win32"; "darwin"; "linux"].

Definition supported_variant (b : BrowserType) : bool :=
  existsb (String.eqb b) [CHROME; CHROMIUM].

Definition is_absolute (env : Env) (p : string) : bool :=
  if is_win32 env then NodePath.win32.isAbsolute p
  else NodePath.posix.isAbsolute p.

Definition path_sep (env : Env) : string :=
  if is_win32 env then "\" else "/".

(** The directory a home or environment path names, normalized, with
    its trailing separator. *)
Definition win_dir (p : string) : string :=
  NodePath.dir_of NodePath.isPathSeparator "\" (NodePath.win32.normalize p).

Definition posix_dir (p : string) : string :=
  NodePath.dir_of NodePath.isPosixPathSeparator "/" (NodePath.posix.normalize p).

(** [%APPDATA%] and [%ProgramFiles%], with the defaults of the source. *)
Definition appData (env : Env) : string :=
  or_else (APPDATA env) (NodePath.win32.join [homedir env; "AppData"; "Roaming"]).

Definition programFiles (env : Env) : string :=
  or_else (ProgramFiles env) "C:\Program Files".

(** The root column of the platform table. *)
Definition table_root (env : Env) (tier : Tier) : string :=
  if is_win32 env then
    match tier with
    | UserTier => win_dir (appData env)
    | SystemTier => win_dir (programFiles env)
    end
  else if is_darwin env then
    match tier with
    | UserTier => posix_dir (homedir env) ++ "Library/Application Support/"
    | SystemTier => "/Library/"
    end
  else
    match tier with
    | UserTier => posix_dir (homedir env) ++ ".config/"
    | SystemTier => "/etc/"
    end.

(** The directory that holds the manifest. *)
Definition hosts_dir (env : Env) (tier : Tier) : string :=
  if is_win32 env || is_darwin env then "NativeMessagingHosts"
  else match tier with
       | UserTier => "NativeMessagingHosts"
       | SystemTier => "native-messaging-hosts"
       end.

(** The home directory and the environment variables that are set are
    absolute paths of the platform (on Windows, drive paths). *)
Definition well_rooted (env : Env) : bool :=
  if is_win32 env then
    NodePath.drive_rooted (homedir env) &&
    (negb (truthy (APPDATA env)) || NodePath.drive_rooted (appData env)) &&
    (negb (truthy (ProgramFiles env)) || NodePath.drive_rooted (programFiles env))
  else NodePath.posix.isAbsolute (homedir env).

End BrowserConfig.

(** ** The [register] command *)

Module Cli.
Import BrowserConfig.

(** The options [commander] hands to the action. *)
Record Options := mkOptions {
  force : bool;
  system : bool;
  browser : option string;
  detect : bool
}.

(** What the action reads from the process and its collaborators. *)
Record Process := mkProcess {
  proc_platform : string;            (* [process.platform] *)
  getuid : option Z;                 (* [process.getuid()], absent on Windows *)
  is_admin : option bool;            (* [require('is-admin')()]; [None]: it throws *)
  detected : list BrowserType;       (* [detectInstalledBrowsers()] *)
  elevated_ok : bool;                (* [registerWithElevatedPermissions()] returns *)
  user_level_ok : option (list BrowserType) -> bool
                                     (* [tryRegisterUserLevelHost(targets)] *)
}.

(** How an invocation ends: the tier it registered at, if it got that
    far, with the browsers handed to the user-level registration, and the
    exit code. *)
Record Run := mkRun {
  tier : option Tier;
  targets : option (list BrowserType);
  exit_code : nat
}.

(** Lines 45-76: which browsers to register; [inl] is [process.exit(1)]
    on an invalid name. *)
Definition targetBrowsers (options : Options) (p : Process)
  : unit + option (list BrowserType) :=
  if truthy (browser options) then
    let b := match browser options with Some s => s | None => "" end in
    if String.eqb (toLowerCase b) "all" then inr (Some [CHROME; CHROMIUM])
    else
      match parseBrowserType b with
      | None => inl tt
      | Some browserType => inr (Some [browserType])
      end
  else if detect options then
    match detected p with
    | [] => inr None
    | l => inr (Some l)
    end
  else inr None.

(** [process.getuid && process.getuid() === 0]. *)
Definition isRoot (p : Process) : bool :=
  match getuid p with Some u => (u =? 0)%Z | None => false end.

Definition isAdmin (p : Process) : bool :=
  if String.eqb (proc_platform p) "win32" then
    match is_admin p with
    | Some b => b
    | None => false   (* the probe threw: warn, not an administrator *)
    end
  else false.

Definition hasElevatedPermissions (p : Process) : bool :=
  isRoot p || isAdmin p.

(** The test of line 97. *)
Definition resolveTier (options : Options) (p : Process) : Tier :=
  if system options || hasElevatedPermissions p then SystemTier else UserTier.

Definition register (options : Options) (p : Process) : Run :=
  match targetBrowsers options p with
  | inl _ => mkRun None None 1
  | inr targetBrowsers =>
      match resolveTier options p with
      | SystemTier =>
          mkRun (Some SystemTier) None (if elevated_ok p then 0 else 1)
      | UserTier =>
          mkRun (Some UserTier) targetBrowsers
                (if user_level_ok p targetBrowsers then 0 else 1)
      end
  end.

(** The process runs with elevated privileges: root where there are user
    ids, administrator on Windows. *)
Definition elevated (p : Process) : Prop :=
  getuid p = Some 0%Z \/ (proc_platform p = "win32" /\ is_admin p = Some true).

(** *** The [update-port] command *)

(** [parseInt(port, 10)] and the range test of [update-port]. *)







End Cli.

(** ** Concrete machines *)

Module Scenario.
Import NodeFs.

Definition scratch : FileHandler.t :=
  FileHandler.mk (NodePath.posix.join ["/tmp"; "chrome-mcp-uploads"]).

Definition scratch_key : Key := ["tmp"; "chrome-mcp-uploads"].

Definition scratch_var : FileHandler.t :=
  FileHandler.mk "/var/tmp/chrome-mcp-uploads".

Definition entropy0 (i : nat) : Byte.byte :=
  match Byte.of_nat i with Some b => b | None => Byte.x00 end.

Definition net0 (url : string) : Js.Outcome HttpResponse :=
  Js.Return (mkResponse true "OK" (Js.Return [Byte.x68; Byte.x69])).

Definition machine (t : list (Key * Node)) (clock : Z) : World :=
  mkWorld t [] clock entropy0 0 net0 [].

(** A scratch root with one staged file, and the password file. *)
Definition disk_system : list (Key * Node) :=
  [ (["tmp"], Dir 0);
    (["tmp"; "chrome-mcp-uploads"], Dir 0);
    (["tmp"; "chrome-mcp-uploads"; "a.bin"], File 0 true [Byte.x01]);
    (["etc"], Dir 0);
    (["etc"; "passwd"], File 0 true [Byte.x72]) ].

Definition world_system : World := machine disk_system 1000.

(** A scratch root, three hours after its entries were written, with a
    subdirectory listed between two old files. *)
Definition disk_sweep : list (Key * Node) :=
  [ (["tmp"], Dir 0);
    (["tmp"; "chrome-mcp-uploads"], Dir 0);
    (["tmp"; "chrome-mcp-uploads"; "a.bin"], File 0 true [Byte.x01]);
    (["tmp"; "chrome-mcp-uploads"; "cache"], Dir 0);
    (["tmp"; "chrome-mcp-uploads"; "z.bin"], File 0 true [Byte.x02]) ].

Definition world_sweep : World := machine disk_sweep 10800000.

(** The same root with regular files only, one of them recent. *)
Definition disk_files : list (Key * Node) :=
  [ (["tmp"], Dir 0);
    (["tmp"; "chrome-mcp-uploads"], Dir 0);
    (["tmp"; "chrome-mcp-uploads"; "a.bin"], File 0 true [Byte.x01]);
    (["tmp"; "chrome-mcp-uploads"; "fresh.bin"], File 10000000 true [Byte.x02]) ].

Definition world_files : World := machine disk_files 10800000.

(** The scratch root of [disk_sweep] when the subdirectory has just been
    made. *)
Definition disk_recent_dir : list (Key * Node) :=
  [ (["tmp"], Dir 0);
    (["tmp"; "chrome-mcp-uploads"], Dir 0);
    (["tmp"; "chrome-mcp-uploads"; "a.bin"], File 0 true [Byte.x01]);
    (["tmp"; "chrome-mcp-uploads"; "cache"], Dir 10000000);
    (["tmp"; "chrome-mcp-uploads"; "z.bin"], File 0 true [Byte.x02]) ].

Definition world_recent_dir : World := machine disk_recent_dir 10800000.

Definition url_pathname0 (url : string) : option string :=
  if String.eqb url "https://example.org/files/report.pdf"
  then Some "/files/report.pdf" else None.

Definition base64_decode0 (s : string) : list Byte.byte := [].

Definition env_linux : BrowserConfig.Env :=
  BrowserConfig.mkEnv "linux" "/home/ada" None None.

Definition env_windows : BrowserConfig.Env :=
  BrowserConfig.mkEnv "win32" "C:\Users\ada" (Some "C:\Users\ada\AppData\Roaming") None.

(** A host name, for the examples. *)
Definition host_name : string := "com.chromemcp.nativehost".

Definition process_root : Cli.Process :=
  Cli.mkProcess "linux" (Some 0%Z) None [] true (fun _ => true).

(** A decoder that knows two payloads. *)
Definition base64_decode1 (s : string) : list Byte.byte :=
  if String.eqb s "aGk=" then [Byte.x68; Byte.x69]
  else if String.eqb s "eW8=" then [Byte.x79; Byte.x6f]
  else [].

(** A machine with a temporary directory and nothing in it. *)
Definition world_bare : World := machine [(["tmp"], Dir 0)] 1000.

Definition report_url : string := "https://example.org/files/report.pdf".

Definition stage_report : FileHandler.Request :=
  FileHandler.mkRequest (Some "prepareFile") (Some report_url) None None None.

Definition stage_data (data : string) : FileHandler.Request :=
  FileHandler.mkRequest (Some "prepareFile") None (Some data) None None.

(** A shell that finds [google-chrome] and no other browser, and the
    process of an ordinary user on that machine. *)
Definition which_chrome (command : string) : bool :=
  String.eqb command "which google-chrome 2>/dev/null".

Definition process_user : Cli.Process :=
  Cli.mkProcess "linux" (Some 1000%Z) None [BrowserConfig.CHROME] true (fun _ => true).

(** The machine of [world_system] on a network that answers 404. *)
Definition world_offline : World :=
  mkWorld disk_system [] 1000 entropy0 0
    (fun _ => Js.Return (mkResponse false "Not Found" (Js.Return []))) [].

End Scenario.

(** * Properties *)

Import NodePath Js NodeFs FileHandler.

(** ** Strings *)

Lemma append_nil_r (s : string) : s ++ "" = s.
Proof. induction s; simpl; congruence. Qed.
Lemma append_assoc (a b c : string) : (a ++ b) ++ c = a ++ (b ++ c).
Proof. induction a; simpl; congruence. Qed.
Lemma length_append (a b : string) : String.length (a ++ b) = String.length a + String.length b.
Proof. induction a; simpl; congruence. Qed.
Lemma nonempty_append_l a b : nonempty a = true -> nonempty (a ++ b) = true.
Proof. destruct a; simpl; congruence. Qed.
Lemma nonempty_append_r a b : nonempty b = true -> nonempty (a ++ b) = true.
Proof. destruct a; simpl; auto. Qed.
Lemma append_inv_head (a b c : string) : a ++ b = a ++ c -> b = c.
Proof. induction a; simpl; intros H; [assumption|]. injection H; auto. Qed.
Lemma append_same_length (a b c d : string) :
  String.length a = String.length b -> a ++ c = b ++ d -> a = b /\ c = d.
Proof.
  revert b; induction a as [|x a IH]; intros [|y b]; simpl; try discriminate.
  - auto.
  - intros L H. injection L as L. injection H as -> H.
    destruct (IH _ L H) as [-> ->]. auto.
Qed.

(** ** Segments of a path *)

Section Split.
Variable isSep : ascii -> bool.

Lemma split_not_nil s : split isSep s <> [].
Proof.
  destruct s as [|c r]; simpl; [discriminate|].
  destruct (isSep c); [discriminate|]. destruct (split isSep r); discriminate.
Qed.

Lemma split_app_sep a c b :
  isSep c = true -> split isSep (a ++ String c b) = (split isSep a ++ split isSep b)%list.
Proof.
  intros Hc. induction a as [|x a IH]; simpl.
  - now rewrite Hc.
  - rewrite IH. destruct (isSep x); [reflexivity|].
    destruct (split isSep a) eqn:E; [now apply split_not_nil in E|reflexivity].
Qed.

Lemma split_no_sep s : no_sep isSep s = true -> split isSep s = [s].
Proof.
  induction s as [|c r IH]; simpl; [reflexivity|].
  intros H. apply andb_true_iff in H as [Hc Hr].
  apply negb_true_iff in Hc. rewrite Hc, (IH Hr). reflexivity.
Qed.

Lemma split_segments_no_sep s : Forall (fun x => no_sep isSep x = true) (split isSep s).
Proof.
  induction s as [|c r IH]; simpl.
  - repeat constructor.
  - destruct (isSep c) eqn:Hc.
    + constructor; [reflexivity|assumption].
    + destruct (split isSep r) as [|h t]; inversion IH; subst; constructor; simpl;
        rewrite ?Hc; auto.
Qed.

Lemma no_sep_append a b : no_sep isSep (a ++ b) = no_sep isSep a && no_sep isSep b.
Proof. induction a; simpl; [reflexivity|]. now rewrite IHa, andb_assoc. Qed.

Lemma plain_no_sep s : plain isSep s = true -> no_sep isSep s = true.
Proof. unfold plain. intros H. repeat (apply andb_true_iff in H as [H ?]). assumption. Qed.

Lemma plain_nonempty s : plain isSep s = true -> nonempty s = true.
Proof. unfold plain. intros H. repeat (apply andb_true_iff in H as [H ?]). assumption. Qed.

Lemma sconcat_cons sep x y l :
  String.concat sep (x :: y :: l) = x ++ sep ++ String.concat sep (y :: l).
Proof. reflexivity. Qed.

Lemma split_concat c l :
  isSep c = true -> Forall (fun x => no_sep isSep x = true) l -> l <> [] ->
  split isSep (String.concat (String c "") l) = l.
Proof.
  intros Hc H. induction H as [|x l Hx Hl IH]; [congruence|]. intros _.
  destruct l as [|y l].
  - simpl. now apply split_no_sep.
  - rewrite sconcat_cons.
    change (String c "" ++ String.concat (String c "") (y :: l))
      with (String c (String.concat (String c "") (y :: l))).
    rewrite split_app_sep by assumption.
    rewrite split_no_sep by assumption. rewrite IH by discriminate. reflexivity.
Qed.

Lemma sconcat_empty_cons a l : String.concat "" (a :: l) = a ++ String.concat "" l.
Proof. destruct l; simpl; [now rewrite append_nil_r|reflexivity]. Qed.

Lemma sconcat_app sep l1 l2 :
  l2 <> [] ->
  String.concat sep (l1 ++ l2) =
  String.concat "" (map (fun s => s ++ sep) l1) ++ String.concat sep l2.
Proof.
  intros H. induction l1 as [|x l1 IH]; [reflexivity|].
  simpl app. simpl map. rewrite sconcat_empty_cons, append_assoc, <- IH.
  destruct (l1 ++ l2)%list as [|y r] eqn:E.
  - destruct l1; [simpl in E; congruence|discriminate].
  - rewrite sconcat_cons. now rewrite append_assoc.
Qed.

Lemma norm_step_plain a st s : plain isSep s = true -> norm_step a st s = (st ++ [s])%list.
Proof.
  unfold plain, norm_step. intros H.
  repeat (apply andb_true_iff in H as [H ?]).
  destruct s as [|c s]; [discriminate|].
  apply negb_true_iff in H0, H1. rewrite H0, H1. reflexivity.
Qed.

Lemma fold_plain a l : forall st,
  Forall (fun x => plain isSep x = true) l ->
  fold_left (norm_step a) l st = (st ++ l)%list.
Proof.
  induction l as [|x l IH]; intros st H; simpl.
  - now rewrite app_nil_r.
  - inversion H; subst. rewrite norm_step_plain by assumption.
    rewrite IH by assumption. now rewrite <- app_assoc.
Qed.

Lemma norm_segments_app a x c segs :
  isSep c = true -> Forall (fun s => plain isSep s = true) segs -> segs <> [] ->
  norm_segments a isSep (x ++ String c (String.concat (String c "") segs)) =
  (norm_segments a isSep x ++ segs)%list.
Proof.
  intros Hc Hp Hn. unfold norm_segments.
  rewrite split_app_sep by assumption.
  rewrite split_concat; auto.
  - rewrite fold_left_app. now apply fold_plain.
  - eapply Forall_impl; [|exact Hp]. apply plain_no_sep.
Qed.
End Split.

(** ** What normalization leaves *)

Section Normal.
Variable isSep : ascii -> bool.
Lemma no_sep_dots : isSep "." = false -> no_sep isSep ".." = true.
Proof. intros H. simpl. now rewrite H. Qed.

Lemma plain_not_dots s : plain isSep s = true -> String.eqb s ".." = false.
Proof.
  unfold plain. intros H. repeat (apply andb_true_iff in H as [H ?]).
  now apply negb_true_iff.
Qed.

Lemma plain_intro s :
  no_sep isSep s = true -> String.eqb s "" = false -> String.eqb s "." = false ->
  String.eqb s ".." = false -> plain isSep s = true.
Proof.
  intros H1 H2 H3 H4. unfold plain. rewrite H1, H3, H4.
  destruct s; [discriminate|reflexivity].
Qed.

Lemma forallb_snoc {A} (f : A -> bool) l x :
  forallb f (l ++ [x]) = forallb f l && f x.
Proof. rewrite forallb_app. simpl. now rewrite andb_true_r. Qed.

Lemma forallb_removelast {A} (f : A -> bool) l :
  forallb f l = true -> forallb f (removelast l) = true.
Proof.
  induction l as [|x l IH]; [auto|]. simpl. intros H.
  apply andb_true_iff in H as [Hx Hl]. destruct l; [reflexivity|].
  simpl. rewrite Hx. simpl in IH. now apply IH.
Qed.

Lemma forallb_last {A} (f : A -> bool) l d :
  forallb f l = true -> l <> [] -> f (last l d) = true.
Proof.
  induction l as [|x l IH]; [congruence|]. simpl. intros H _.
  apply andb_true_iff in H as [Hx Hl]. destruct l; [assumption|].
  apply IH; [assumption|discriminate].
Qed.

Lemma normal_app_plain allow st s :
  normal_stack isSep allow st = true -> plain isSep s = true ->
  normal_stack isSep allow (st ++ [s]) = true.
Proof.
  intros H Hs. induction st as [|x r IH].
  - simpl. rewrite (plain_not_dots _ Hs), Hs. reflexivity.
  - simpl in *. destruct (String.eqb x "..").
    + apply andb_true_iff in H as [Ha Hr].
      apply andb_true_iff; split; [assumption|now apply IH].
    + apply andb_true_iff in H as [Hx Hr]. rewrite Hx. simpl.
      rewrite forallb_snoc, Hr, Hs. reflexivity.
Qed.

Lemma normal_removelast allow st :
  normal_stack isSep allow st = true ->
  normal_stack isSep allow (removelast st) = true.
Proof.
  induction st as [|x r IH]; [auto|]. intros H.
  destruct r as [|y r]; [reflexivity|].
  change (removelast (x :: y :: r)) with (x :: removelast (y :: r)).
  simpl normal_stack in H |- *. destruct (String.eqb x "..").
  - apply andb_true_iff in H as [Ha Hr].
    apply andb_true_iff; split; [assumption|now apply IH].
  - apply (forallb_removelast (plain isSep) (x :: y :: r)) in H. exact H.
Qed.

Lemma normal_push_dots st :
  normal_stack isSep true st = true -> String.eqb (last st "") ".." = true ->
  normal_stack isSep true (st ++ [".."]) = true.
Proof.
  induction st as [|x r IH]; [reflexivity|]. intros H L.
  simpl normal_stack in H. simpl app. simpl normal_stack.
  destruct (String.eqb x "..") eqn:Ex.
  - simpl in H. simpl. destruct r as [|y r]; [reflexivity|]. now apply IH.
  - exfalso. pose proof (forallb_last (plain isSep) (x :: r) "" H) as P.
    rewrite (plain_not_dots _ (P ltac:(discriminate))) in L. discriminate.
Qed.

Lemma norm_step_normal allow st seg :
  no_sep isSep seg = true -> normal_stack isSep allow st = true ->
  normal_stack isSep allow (norm_step allow st seg) = true.
Proof.
  intros Hs H. unfold norm_step.
  destruct (String.eqb seg "") eqn:E0; [assumption|].
  destruct (String.eqb seg ".") eqn:E1; [assumption|]. simpl.
  destruct (String.eqb seg "..") eqn:E2.
  - destruct st as [|x r]; [destruct allow; reflexivity|].
    destruct (String.eqb (last (x :: r) "") "..") eqn:L.
    + destruct allow; [now apply normal_push_dots|assumption].
    + now apply normal_removelast.
  - apply normal_app_plain; [assumption|]. now apply plain_intro.
Qed.

Lemma fold_normal allow l : forall st,
  Forall (fun s => no_sep isSep s = true) l ->
  normal_stack isSep allow st = true ->
  normal_stack isSep allow (fold_left (norm_step allow) l st) = true.
Proof.
  induction l as [|x l IH]; intros st Hl H; [assumption|].
  inversion Hl; subst. simpl. apply IH; [assumption|].
  now apply norm_step_normal.
Qed.

Lemma norm_segments_normal allow s :
  normal_stack isSep allow (norm_segments allow isSep s) = true.
Proof. apply fold_normal; [apply split_segments_no_sep|reflexivity]. Qed.

Lemma repeat_snoc {A} (x : A) n r : (repeat x n ++ x :: r = repeat x (S n) ++ r)%list.
Proof. induction n; simpl; [reflexivity|]. now rewrite IHn. Qed.

Lemma last_repeat {A} (x d : A) n : last (repeat x (S n)) d = x.
Proof. induction n; [reflexivity|]. exact IHn. Qed.

Lemma normal_repeat_inv allow n l :
  normal_stack isSep allow (repeat ".." n ++ l) = true ->
  normal_stack isSep allow l = true /\ (n <> 0 -> allow = true).
Proof.
  induction n as [|n IH]; simpl; [intuition congruence|].
  intros H. apply andb_true_iff in H as [Ha H]. destruct (IH H). auto.
Qed.

Lemma norm_step_dots n :
  norm_step true (repeat ".." n) ".." = repeat ".." (S n).
Proof.
  unfold norm_step. simpl String.eqb. simpl orb. cbv iota.
  destruct n as [|n]; [reflexivity|].
  change (repeat ".." (S n)) with (".." :: repeat ".." n) at 1.
  cbv iota. change (".." :: repeat ".." n) with (repeat ".." (S n)).
  rewrite last_repeat. simpl String.eqb. cbv iota.
  rewrite repeat_snoc. now rewrite app_nil_r.
Qed.

Lemma fold_normal_dots allow l : forall n,
  normal_stack isSep allow (repeat ".." n ++ l) = true ->
  fold_left (norm_step allow) l (repeat ".." n) = (repeat ".." n ++ l)%list.
Proof.
  induction l as [|s r IH]; intros n H; [now rewrite app_nil_r|].
  destruct (String.eqb s "..") eqn:Es.
  - apply String.eqb_eq in Es. subst s.
    assert (allow = true) as ->.
    { rewrite repeat_snoc in H. apply normal_repeat_inv in H as [_ H]. now apply H. }
    simpl fold_left. rewrite norm_step_dots, repeat_snoc.
    apply IH. now rewrite <- repeat_snoc.
  - apply normal_repeat_inv in H as [H _]. cbn [normal_stack] in H. rewrite Es in H.
    apply (fold_plain isSep). apply Forall_forall. intros y Hy.
    rewrite forallb_forall in H. now apply H.
Qed.
End Normal.

(** ** First and last characters *)

Section Chars.
Variable isSep : ascii -> bool.

Lemma first_char_append a b : nonempty a = true -> first_char (a ++ b) = first_char a.
Proof. destruct a; [discriminate|reflexivity]. Qed.

Lemma last_char_append a b : nonempty b = true -> last_char (a ++ b) = last_char b.
Proof.
  intros H. induction a as [|c a IH]; [reflexivity|].
  simpl. rewrite IH. destruct (a ++ b) eqn:E; [|reflexivity].
  destruct a; simpl in E; [subst; discriminate|discriminate].
Qed.

Lemma no_sep_last s :
  no_sep isSep s = true -> opt_test isSep (last_char s) = false.
Proof.
  induction s as [|c s IH]; [reflexivity|]. simpl. intros H.
  apply andb_true_iff in H as [Hc Hs]. apply negb_true_iff in Hc.
  destruct s; [exact Hc|]. now apply IH.
Qed.

Lemma no_sep_first s :
  no_sep isSep s = true -> opt_test isSep (first_char s) = false.
Proof.
  destruct s as [|c s]; [reflexivity|]. simpl. intros H.
  apply andb_true_iff in H as [Hc Hs]. now apply negb_true_iff in Hc.
Qed.

Lemma sconcat_nonempty sep s l :
  nonempty s = true -> nonempty (String.concat sep (s :: l)) = true.
Proof. destruct l; simpl; [auto|]. intros. now apply nonempty_append_l. Qed.

Lemma sconcat_snoc sep l s :
  l <> [] -> String.concat sep (l ++ [s]) = String.concat sep l ++ sep ++ s.
Proof.
  induction l as [|x l IH]; [congruence|]. intros _.
  destruct l as [|y l]; [reflexivity|].
  change ((x :: y :: l) ++ [s])%list with (x :: y :: (l ++ [s]))%list.
  rewrite !sconcat_cons. change (y :: (l ++ [s]))%list with ((y :: l) ++ [s])%list.
  rewrite IH by discriminate. now rewrite !append_assoc.
Qed.

Lemma last_char_concat sep segs : forall pre,
  Forall (fun s => plain isSep s = true) segs -> segs <> [] ->
  opt_test isSep (last_char (pre ++ String.concat sep segs)) = false.
Proof.
  induction segs as [|s r IH]; [congruence|]. intros pre H _.
  inversion H; subst. destruct r as [|y r].
  - simpl String.concat. rewrite last_char_append by now apply (plain_nonempty isSep).
    apply no_sep_last. now apply plain_no_sep.
  - rewrite sconcat_cons, <- !append_assoc. apply IH; [assumption|discriminate].
Qed.

Lemma filter_nonempty_plain l :
  Forall (fun s => plain isSep s = true) l -> filter nonempty l = l.
Proof.
  induction 1 as [|x l Hx Hl IH]; [reflexivity|]. simpl.
  rewrite (plain_nonempty isSep _ Hx). now rewrite IH.
Qed.
End Chars.

(** ** [path.posix.join] *)

Lemma posix_sep_dot : isPosixPathSeparator "." = false.
Proof. reflexivity. Qed.

Lemma posix_sep_slash : isPosixPathSeparator "/" = true.
Proof. reflexivity. Qed.

Lemma norm_segments_empty a isSep : norm_segments a isSep "" = [].
Proof. reflexivity. Qed.

(** [join] of a first part and plain names. *)
Lemma posix_join_plain x segs :
  Forall (fun s => plain isPosixPathSeparator s = true) segs -> segs <> [] ->
  posix.join (x :: segs) =
  render (posix.isAbsolute x)
         (norm_segments (negb (posix.isAbsolute x)) isPosixPathSeparator x ++ segs).
Proof.
  intros Hp Hn. unfold posix.join. cbn [filter].
  rewrite (filter_nonempty_plain isPosixPathSeparator) by assumption.
  destruct segs as [|s r]; [congruence|].
  assert (Hs : nonempty s = true)
    by (inversion Hp; now apply (plain_nonempty isPosixPathSeparator)).
  assert (Hq : forall st, nonempty (String.concat "/" (st ++ s :: r)) = true).
  { intros st. rewrite sconcat_app by discriminate.
    apply nonempty_append_r. now apply sconcat_nonempty. }
  destruct x as [|c x].
  - cbn [nonempty]. unfold posix.normalize.
    rewrite sconcat_nonempty by assumption. cbn [negb].
    assert (A : posix.isAbsolute (String.concat "/" (s :: r)) = false).
    { unfold posix.isAbsolute. destruct r.
      - simpl. apply no_sep_first. inversion Hp; now apply plain_no_sep.
      - rewrite sconcat_cons, first_char_append by assumption.
        apply no_sep_first. inversion Hp; now apply plain_no_sep. }
    rewrite A. cbn [negb].
    pose proof (last_char_concat isPosixPathSeparator "/" (s :: r) "" Hp Hn) as L.
    cbn [String.append] in L. rewrite L.
    unfold normalizeString, norm_segments.
    rewrite (split_concat isPosixPathSeparator "/"%char); [|reflexivity| |discriminate].
    + rewrite fold_plain with (isSep := isPosixPathSeparator) by assumption. cbn [app].
      rewrite sconcat_nonempty by assumption. cbn [negb].
      unfold render, posix.isAbsolute. cbn. now rewrite append_nil_r.
    + eapply Forall_impl; [|exact Hp]. apply plain_no_sep.
  - cbn [nonempty]. rewrite sconcat_cons.
    change ("/" ++ String.concat "/" (s :: r)) with (String "/"%char (String.concat "/" (s :: r))).
    unfold posix.normalize. cbn [nonempty String.append negb].
    assert (A : posix.isAbsolute (String c (x ++ String "/" (String.concat "/" (s :: r))))
                = posix.isAbsolute (String c x)) by reflexivity.
    rewrite A.
    pose proof (last_char_concat isPosixPathSeparator "/" (s :: r) (String c x ++ "/") Hp Hn) as L.
    rewrite append_assoc in L. cbn [String.append] in L. rewrite L.
    unfold normalizeString.
    change (String c (x ++ String "/" (String.concat "/" (s :: r))))
      with (String c x ++ String "/"%char (String.concat (String "/"%char "") (s :: r))).
    rewrite (norm_segments_app isPosixPathSeparator) by (auto; reflexivity).
    rewrite Hq. cbn [negb]. unfold render. now rewrite append_nil_r.
Qed.

Lemma normal_head_ok (isSep : ascii -> bool) allow s r :
  isSep "."%char = false ->
  normal_stack isSep allow (s :: r) = true ->
  nonempty s = true /\ no_sep isSep s = true.
Proof.
  intros Hd H. cbn [normal_stack] in H. destruct (String.eqb s "..") eqn:E.
  - apply String.eqb_eq in E. subst. split; [reflexivity|now apply no_sep_dots].
  - cbn [forallb] in H. apply andb_true_iff in H as [H _].
    split; [now apply (plain_nonempty isSep)|now apply plain_no_sep].
Qed.

Lemma normal_tail isSep allow s r :
  normal_stack isSep allow (s :: r) = true -> normal_stack isSep allow r = true.
Proof.
  cbn [normal_stack]. destruct (String.eqb s "..").
  - intros H. now apply andb_true_iff in H as [_ H].
  - cbn [forallb]. intros H. apply andb_true_iff in H as [_ H].
    destruct r as [|y r]; [reflexivity|]. cbn [normal_stack].
    destruct (String.eqb y "..") eqn:E; [|assumption].
    cbn [forallb] in H. apply andb_true_iff in H as [H _].
    rewrite (plain_not_dots isSep y H) in E. discriminate.
Qed.

Lemma normal_all_no_sep (isSep : ascii -> bool) allow l :
  isSep "."%char = false ->
  normal_stack isSep allow l = true -> Forall (fun s => no_sep isSep s = true) l.
Proof.
  intros Hd. induction l as [|s r IH]; intros H; constructor.
  - now apply (normal_head_ok isSep allow s r).
  - apply IH. eapply normal_tail; eassumption.
Qed.

Lemma isAbsolute_render abs allow l :
  normal_stack isPosixPathSeparator allow l = true -> l <> [] ->
  posix.isAbsolute (render abs l) = abs.
Proof.
  intros H Hn. destruct abs; [reflexivity|].
  destruct l as [|s r]; [congruence|].
  destruct (normal_head_ok isPosixPathSeparator allow s r posix_sep_dot H) as [Hs Hp].
  unfold render, posix.isAbsolute. cbn [String.append].
  destruct r.
  - simpl. now apply no_sep_first.
  - rewrite sconcat_cons, first_char_append by assumption. now apply no_sep_first.
Qed.

Lemma split_render abs allow l :
  normal_stack isPosixPathSeparator allow l = true -> l <> [] ->
  split isPosixPathSeparator (render abs l) = ((if abs then [""] else []) ++ l)%list.
Proof.
  intros H Hn. unfold render.
  assert (S : split isPosixPathSeparator (String.concat "/" l) = l).
  { apply (split_concat isPosixPathSeparator "/"%char); auto.
    eapply normal_all_no_sep; eauto. }
  destruct abs; cbn [String.append app]; [|assumption].
  cbn [split]. rewrite posix_sep_slash. now rewrite S.
Qed.

Lemma norm_segments_render abs l :
  normal_stack isPosixPathSeparator (negb abs) l = true -> l <> [] ->
  norm_segments (negb abs) isPosixPathSeparator (render abs l) = l.
Proof.
  intros H Hn. unfold norm_segments. rewrite (split_render abs (negb abs)) by assumption.
  rewrite fold_left_app.
  assert (E : fold_left (norm_step (negb abs)) (if abs then [""] else []) [] = []).
  { destruct abs; reflexivity. }
  rewrite E. apply (fold_normal_dots isPosixPathSeparator (negb abs) l 0). exact H.
Qed.

Lemma render_snoc abs l s :
  l <> [] -> render abs (l ++ [s]) = render abs l ++ "/" ++ s.
Proof.
  intros H. unfold render. rewrite sconcat_snoc by assumption.
  now rewrite append_assoc.
Qed.

Lemma render_nonempty abs allow l :
  normal_stack isPosixPathSeparator allow l = true -> l <> [] -> nonempty (render abs l) = true.
Proof.
  intros H Hn. destruct l as [|s r]; [congruence|].
  destruct (normal_head_ok isPosixPathSeparator allow s r posix_sep_dot H) as [Hs _].
  unfold render. apply nonempty_append_r. now apply sconcat_nonempty.
Qed.

(** Joining a plain name to a normalized path appends it. *)
Lemma posix_join_child abs l name :
  normal_stack isPosixPathSeparator (negb abs) l = true -> l <> [] ->
  plain isPosixPathSeparator name = true ->
  posix.join [render abs l; name] = render abs l ++ "/" ++ name.
Proof.
  intros H Hn Hp.
  rewrite posix_join_plain by (auto; discriminate).
  rewrite (isAbsolute_render abs (negb abs)) by assumption.
  rewrite norm_segments_render by assumption.
  now apply render_snoc.
Qed.

(** The scratch root the constructor builds is a normalized path. *)
Lemma tempDir_normal tmp :
  exists abs l,
    posix.join [tmp; "chrome-mcp-uploads"] = render abs l /\
    normal_stack isPosixPathSeparator (negb abs) l = true /\ l <> [].
Proof.
  exists (posix.isAbsolute tmp),
         (norm_segments (negb (posix.isAbsolute tmp)) isPosixPathSeparator tmp
            ++ ["chrome-mcp-uploads"])%list.
  split; [|split].
  - apply posix_join_plain; [repeat constructor|discriminate].
  - apply normal_app_plain; [|reflexivity].
    apply norm_segments_normal.
  - intros E. apply app_eq_nil in E as [_ E]. discriminate.
Qed.

(** ** The file table *)

Lemma lookup_remove (t : list (Key * Node)) k k' :
  k' <> [] ->
  lookup (remove t k) k' = if key_dec k' k then None else lookup t k'.
Proof.
  intros Hk. unfold lookup, remove. destruct k' as [|x k']; [congruence|].
  set (q := x :: k'). clearbody q.
  induction t as [|[a n] t IH]; simpl.
  - now destruct (key_dec q k).
  - destruct (key_dec a k) as [->|Hak]; simpl.
    + destruct (key_dec k q) as [<-|Hkq].
      * rewrite IH. destruct (key_dec k k); [reflexivity|congruence].
      * exact IH.
    + destruct (key_dec a q) as [->|Haq].
      * destruct (key_dec q k); [congruence|reflexivity].
      * exact IH.
Qed.

Lemma walk_start_dir (t : list (Key * Node)) cs : forall cur d m,
  walk t cur cs = Found d (Dir m) -> is_dir (lookup t cur) = true.
Proof.
  destruct cs as [|c rest]; intros cur d m; simpl.
  - destruct (lookup t cur) as [n|]; [|discriminate].
    intros H. injection H as Hd Hn. subst d n. reflexivity.
  - destruct (lookup t cur) as [[| |]|]; try discriminate. reflexivity.
Qed.

Lemma walk_snoc (t : list (Key * Node)) c :
  plain isPosixPathSeparator c = true ->
  forall cs cur d m,
  walk t cur cs = Found d (Dir m) ->
  walk t cur (cs ++ [c]) =
  match lookup t (d ++ [c])%list with
  | Some n => Found (d ++ [c])%list n
  | None => Missing (d ++ [c])%list
  end.
Proof.
  intros Hc.
  assert (E0 : String.eqb c "" || String.eqb c "." = false).
  { unfold plain in Hc. repeat (apply andb_true_iff in Hc as [Hc ?]).
    destruct c; [discriminate|]. apply negb_true_iff in H0. now rewrite H0. }
  assert (E2 : String.eqb c ".." = false) by now apply (plain_not_dots isPosixPathSeparator).
  induction cs as [|x rest IH]; intros cur d m; simpl.
  - destruct (lookup t cur) as [n|] eqn:L; [|discriminate].
    intros H. injection H as Hd Hn. subst d n. rewrite E0, E2.
    destruct (lookup t (cur ++ [c])%list); reflexivity.
  - destruct (lookup t cur) as [[| |]|]; try discriminate.
    destruct (String.eqb x "" || String.eqb x "."); [apply IH|].
    destruct (String.eqb x ".."); [apply IH|].
    destruct (lookup t (cur ++ [x])%list).
    + apply IH.
    + destruct rest; discriminate.
Qed.

Lemma walk_remove (t : list (Key * Node)) k :
  is_dir (lookup t k) = false -> k <> [] ->
  forall cs cur d m,
  walk t cur cs = Found d (Dir m) ->
  walk (remove t k) cur cs = Found d (Dir m).
Proof.
  intros Hk Hne.
  assert (R : forall q, is_dir (lookup t q) = true -> lookup (remove t k) q = lookup t q).
  { intros q Hq. destruct q as [|x q]; [reflexivity|].
    rewrite lookup_remove by discriminate.
    destruct (key_dec (x :: q) k) as [E|]; [|reflexivity].
    rewrite E, Hk in Hq. discriminate. }
  induction cs as [|x rest IH]; intros cur d m H.
  - pose proof (walk_start_dir _ _ _ _ _ H) as S. simpl in *.
    now rewrite (R _ S).
  - pose proof (walk_start_dir _ _ _ _ _ H) as S. simpl in *.
    rewrite (R _ S).
    destruct (lookup t cur) as [[| |]|]; try discriminate.
    destruct (String.eqb x "" || String.eqb x "."); [now apply IH|].
    destruct (String.eqb x ".."); [now apply IH|].
    destruct (lookup t (cur ++ [x])%list) eqn:L.
    + pose proof (walk_start_dir _ _ _ _ _ H) as S'. rewrite (R _ S'), L. now apply IH.
    + destruct rest; discriminate.
Qed.

(** ** The sweep, entry by entry *)

Section SweepRefinement.
Local Arguments resolve : simpl never.
Local Arguments String.append : simpl never.
Local Arguments posix.join : simpl never.
Local Opaque oneHour.

Lemma resolve_child w T n d m :
  nonempty T = true -> plain isPosixPathSeparator n = true ->
  resolve w T = Found d (Dir m) ->
  resolve w (T ++ "/" ++ n) =
  match lookup (entries w) (d ++ [n])%list with
  | Some x => Found (d ++ [n])%list x
  | None => Missing (d ++ [n])%list
  end.
Proof.
  intros HT Hn. unfold resolve. rewrite HT.
  rewrite (nonempty_append_l T _ HT). cbn [negb].
  assert (A : posix.isAbsolute (T ++ "/" ++ n) = posix.isAbsolute T).
  { unfold posix.isAbsolute. now rewrite first_char_append. }
  rewrite A.
  change (T ++ "/" ++ n) with (T ++ String "/"%char n).
  rewrite split_app_sep by reflexivity.
  rewrite (split_no_sep isPosixPathSeparator n) by now apply plain_no_sep.
  intros H. now apply (walk_snoc _ _ Hn _ _ _ m).
Qed.

Lemma for_each_cons {A} (f : A -> M World unit) a r w :
  for_each (a :: r) f w =
  match f a w with
  | (Return _, w1) => for_each r f w1
  | (Throw e, w1) => (Throw e, w1)
  end.
Proof. reflexivity. Qed.

Section Sweep.
Variable this : FileHandler.t.
Variables (abs : bool) (l : list string).
Hypothesis T_form : tempDir this = render abs l.
Hypothesis T_normal : normal_stack isPosixPathSeparator (negb abs) l = true.
Hypothesis T_nonnil : l <> [].
Variables (d : Key) (m : Z).

Lemma tempDir_nonempty : nonempty (tempDir this) = true.
Proof. rewrite T_form. eapply render_nonempty; eauto. Qed.

Lemma sweep_entry_spec now0 n w :
  plain isPosixPathSeparator n = true ->
  resolve w (tempDir this) = Found d (Dir m) ->
  let r := sweep_entry this now0 n w in
  cwd (snd r) = cwd w /\
  match lookup (entries w) (d ++ [n])%list with
  | Some (File m' _ _) =>
      fst r = Return tt /\
      entries (snd r) = if (now0 - m' >? oneHour)%Z
                        then remove (entries w) (d ++ [n])%list else entries w
  | Some (Dir m') =>
      entries (snd r) = entries w /\
      if (now0 - m' >? oneHour)%Z then exists e, fst r = Throw e
      else fst r = Return tt
  | Some DanglingLink | None =>
      entries (snd r) = entries w /\ exists e, fst r = Throw e
  end.
Proof.
  intros Hn HT. unfold sweep_entry.
  rewrite T_form, posix_join_child by assumption. rewrite <- T_form.
  pose proof (resolve_child w _ n d m tempDir_nonempty Hn HT) as R.
  unfold bind, statSync, unlinkSync, console_log, console_error, print, modify, ret.
  destruct (lookup (entries w) (d ++ [n])%list) as [[m' r' d'|m'|]|];
    rewrite R; cbn.
  - destruct (now0 - m' >? oneHour)%Z; cbn; rewrite ?R; cbn; auto.
  - destruct (now0 - m' >? oneHour)%Z; cbn; rewrite ?R; cbn; eauto.
  - eauto.
  - eauto.
Qed.

Lemma sweep_loop now0 names : forall w,
  Forall (fun n => plain isPosixPathSeparator n = true) names ->
  resolve w (tempDir this) = Found d (Dir m) ->
  let r := for_each names (sweep_entry this now0) w in
  let s := sweep_table now0 d (entries w) names in
  entries (snd r) = snd s /\ cwd (snd r) = cwd w /\
  (match fst r with Return _ => fst s = false | Throw _ => fst s = true end).
Proof.
  induction names as [|n rest IH]; intros w Hp HT; [cbn; auto|].
  inversion Hp as [|? ? Hn Hrest]; subst.
  destruct (sweep_entry_spec now0 n w Hn HT) as [C S].
  cbv zeta in C, S |- *. rewrite for_each_cons. cbn [sweep_table].
  destruct (sweep_entry this now0 n w) as [o w1] eqn:E. cbn [fst snd] in C, S.
  assert (K : forall w', cwd w' = cwd w ->
              entries w' = entries w \/
              (is_dir (lookup (entries w) (d ++ [n])%list) = false /\
               entries w' = remove (entries w) (d ++ [n])%list) ->
              resolve w' (tempDir this) = Found d (Dir m)).
  { intros w' Hc He. unfold resolve in HT |- *. rewrite Hc.
    destruct He as [->|[Hd ->]]; [exact HT|].
    destruct (negb (nonempty (tempDir this))); [discriminate|].
    apply walk_remove; auto. intros X. apply app_eq_nil in X as [_ X]. discriminate. }
  destruct (lookup (entries w) (d ++ [n])%list) as [[m' r' d'|m'|]|] eqn:L.
  - destruct S as [-> S].
    assert (HT1 : resolve w1 (tempDir this) = Found d (Dir m)).
    { apply K; [assumption|]. rewrite S.
      destruct (now0 - m' >? oneHour)%Z; [right; split; auto|left; reflexivity]. }
    destruct (IH w1 Hrest HT1) as (I1 & I2 & I3).
    rewrite S in I1, I3. rewrite C in I2.
    destruct (now0 - m' >? oneHour)%Z; auto.
  - destruct S as [S O]. destruct (now0 - m' >? oneHour)%Z.
    + destruct O as [e ->]. cbn. auto.
    + rewrite O.
      assert (HT1 : resolve w1 (tempDir this) = Found d (Dir m)) by (apply K; auto).
      destruct (IH w1 Hrest HT1) as (I1 & I2 & I3).
      rewrite S in I1, I3. rewrite C in I2. auto.
  - destruct S as [S [e ->]]. cbn. auto.
  - destruct S as [S [e ->]]. cbn. auto.
Qed.

Lemma cleanupOldFiles_refines w :
  Forall (fun n => plain isPosixPathSeparator n = true) (children (entries w) d) ->
  resolve w (tempDir this) = Found d (Dir m) ->
  let r := cleanupOldFiles this w in
  let s := sweep_table (now w) d (entries w) (children (entries w) d) in
  let fe := for_each (children (entries w) d) (sweep_entry this (now w)) w in
  fst r = Return tt /\ entries (snd r) = snd s /\
  console (snd r) =
    match fst fe with
    | Return _ => console (snd fe)
    | Throw e => (console (snd fe) ++ [Err "Error cleaning up old files:" e])%list
    end.
Proof.
  intros Hp HT.
  destruct (sweep_loop (now w) _ w Hp HT) as (I1 & I2 & I3). cbv zeta. revert I1 I3.
  unfold cleanupOldFiles, try_catch, bind, Date_now, gets, readdirSync, console_log, console_error, print, modify.
  rewrite HT. cbn.
  destruct (for_each (children (entries w) d) (sweep_entry this (now w)) w) as [o w1] eqn:E.
  cbn [fst snd]. intros I1 I3. destruct o as [[]|e]; cbn; auto.
Qed.
End Sweep.
Local Transparent oneHour.
End SweepRefinement.

(** ** Directory listings *)

Lemma distinct_NoDup l : distinct l = true -> NoDup l.
Proof.
  induction l as [|k r IH]; simpl; [constructor|].
  intros H. apply andb_true_iff in H as [H1 H2]. constructor; [|auto].
  intros I. apply negb_true_iff in H1.
  assert (existsb (fun k' => if key_dec k k' then true else false) r = true); [|congruence].
  apply existsb_exists. exists k. split; [assumption|].
  destruct (key_dec k k); congruence.
Qed.

Lemma snoc_last_eq (k : Key) : k <> [] -> (removelast k ++ [last k ""])%list = k.
Proof. intros H. symmetry. now apply app_removelast_last. Qed.

Lemma children_In (t : list (Key * Node)) d n :
  In n (children t d) -> exists node, In ((d ++ [n])%list, node) t.
Proof.
  induction t as [|[k x] t IH]; simpl; [tauto|].
  destruct k as [|a k].
  - intros H. destruct (IH H) as [y Hy]. eauto.
  - destruct (key_dec (removelast (a :: k)) d) as [E|E].
    + intros [H|H].
      * exists x. left. rewrite <- E, <- H. f_equal.
        symmetry. apply snoc_last_eq. discriminate.
      * destruct (IH H) as [y Hy]. eauto.
    + intros H. destruct (IH H) as [y Hy]. eauto.
Qed.

Lemma children_NoDup (t : list (Key * Node)) d : NoDup (map fst t) -> NoDup (children t d).
Proof.
  induction t as [|[k x] t IH]; simpl; [constructor|].
  intros H. inversion H as [|? ? Hk Ht]; subst.
  destruct k as [|a k]; [auto|].
  destruct (key_dec (removelast (a :: k)) d) as [E|E]; [|auto].
  constructor; [|auto]. intros I. apply children_In in I as [y Hy].
  apply Hk. rewrite <- E, snoc_last_eq in Hy by discriminate.
  change (a :: k) with (fst (a :: k, y)). now apply in_map.
Qed.

Lemma children_plain (t : list (Key * Node)) d :
  forallb (fun e => forallb (plain isPosixPathSeparator) (fst e)) t = true ->
  Forall (fun n => plain isPosixPathSeparator n = true) (children t d).
Proof.
  intros H. apply Forall_forall. intros n I.
  apply children_In in I as [y Hy].
  rewrite forallb_forall in H. specialize (H _ Hy). cbn [fst] in H.
  rewrite forallb_app in H. apply andb_true_iff in H as [_ H].
  cbn in H. now rewrite andb_true_r in H.
Qed.

(** ** The sweep on the table *)

Section SweepTable.
Variables (now0 : Z) (d : Key).

Lemma snoc_neq_nil (n : string) : (d ++ [n])%list <> [].
Proof. intros X. apply app_eq_nil in X as [_ X]. discriminate. Qed.

Lemma lookup_remove_other (t : list (Key * Node)) n k :
  k <> (d ++ [n])%list -> lookup (remove t (d ++ [n])%list) k = lookup t k.
Proof.
  intros H. destruct k as [|a k]; [reflexivity|].
  rewrite lookup_remove by discriminate.
  destruct (key_dec (a :: k) (d ++ [n])%list); congruence.
Qed.

Lemma lookup_remove_same (t : list (Key * Node)) n :
  lookup (remove t (d ++ [n])%list) (d ++ [n])%list = None.
Proof.
  rewrite lookup_remove by apply snoc_neq_nil.
  destruct (key_dec (d ++ [n])%list (d ++ [n])%list); congruence.
Qed.

(** Only listed names are ever removed. *)
Lemma sweep_untouched names : forall (t : list (Key * Node)) k,
  (forall n, In n names -> k <> (d ++ [n])%list) ->
  lookup (snd (sweep_table now0 d t names)) k = lookup t k.
Proof.
  induction names as [|n rest IH]; intros t k H; [reflexivity|].
  cbn [sweep_table].
  assert (Hr : forall x, In x rest -> k <> (d ++ [x])%list) by (intros; apply H; now right).
  destruct (lookup t (d ++ [n])%list) as [[m' r' d'|m'|]|]; try reflexivity.
  - destruct (now0 - m' >? oneHour)%Z; [|now apply IH].
    rewrite IH by assumption. apply lookup_remove_other. apply H. now left.
  - destruct (now0 - m' >? oneHour)%Z; [reflexivity|now apply IH].
Qed.

Lemma snoc_inj (a b : string) : (d ++ [a])%list = (d ++ [b])%list -> a = b.
Proof. intros H. apply app_inv_head in H. congruence. Qed.

End SweepTable.

(** ** Hexadecimal names *)

Lemma unhex_hex b : unhex_byte (hex_of_byte b) = Byte.to_nat b.
Proof. destruct b; reflexivity. Qed.

Lemma hex_of_byte_inj a b : hex_of_byte a = hex_of_byte b -> a = b.
Proof.
  intros H. apply (f_equal unhex_byte) in H. rewrite !unhex_hex in H.
  apply (f_equal Byte.of_nat) in H. rewrite !Byte.of_to_nat in H. congruence.
Qed.

Lemma hex_of_byte_shape b : exists x y, hex_of_byte b = String x (String y "").
Proof. unfold hex_of_byte. eauto. Qed.

Lemma hex_inj r1 : forall r2, hex r1 = hex r2 -> r1 = r2.
Proof.
  induction r1 as [|a r1 IH]; intros [|b r2] H; try reflexivity.
  - cbn [hex] in H. destruct (hex_of_byte_shape b) as (x & y & E).
    rewrite E in H. discriminate.
  - cbn [hex] in H. destruct (hex_of_byte_shape a) as (x & y & E).
    rewrite E in H. discriminate.
  - cbn [hex] in H.
    destruct (hex_of_byte_shape a) as (x & y & Ea).
    destruct (hex_of_byte_shape b) as (x' & y' & Eb).
    rewrite Ea, Eb in H. cbn [String.append] in H. injection H as H1 H2 H3.
    f_equal; [|now apply IH].
    apply hex_of_byte_inj. congruence.
Qed.

Lemma hex_length r : String.length (hex r) = 2 * List.length r.
Proof. induction r; [reflexivity|]. cbn [hex List.length]. unfold hex_of_byte.
  cbn [String.append String.length]. lia. Qed.

Lemma hex_no_sep r : no_sep isPosixPathSeparator (hex r) = true.
Proof.
  induction r as [|b r IH]; [reflexivity|]. cbn [hex].
  rewrite no_sep_append, IH, andb_true_r. destruct b; reflexivity.
Qed.

Lemma window_length w from k : List.length (window w from k) = k.
Proof. unfold window. now rewrite length_map, length_seq. Qed.

Lemma has_char_append_r c a b : has_char c b = true -> has_char c (a ++ b) = true.
Proof. induction a; simpl; [auto|]. intros H. rewrite (IHa H). apply orb_true_r. Qed.

Lemma has_char_append_l c a b : has_char c a = true -> has_char c (a ++ b) = true.
Proof.
  induction a; simpl; [discriminate|]. intros H.
  apply orb_true_iff in H as [H|H]; [now rewrite H|]. rewrite (IHa H). apply orb_true_r.
Qed.

Lemma dash_plain s :
  no_sep isPosixPathSeparator s = true -> has_char "-" s = true ->
  plain isPosixPathSeparator s = true.
Proof.
  intros H D. unfold plain. rewrite H.
  assert (E1 : String.eqb s "." = false).
  { destruct (String.eqb_spec s "."); [subst; discriminate|reflexivity]. }
  assert (E2 : String.eqb s ".." = false).
  { destruct (String.eqb_spec s ".."); [subst; discriminate|reflexivity]. }
  rewrite E1, E2. destruct s; [discriminate|reflexivity].
Qed.

Lemma no_sep_substring isSep s : forall n m,
  no_sep isSep s = true -> no_sep isSep (substring n m s) = true.
Proof.
  induction s as [|c s IH]; intros n m H; [destruct n, m; reflexivity|].
  cbn [no_sep] in H. apply andb_true_iff in H as [Hc Hs].
  destruct n as [|n]; cbn [substring].
  - destruct m as [|m]; [reflexivity|]. cbn [no_sep]. rewrite Hc. now apply IH.
  - now apply IH.
Qed.

Lemma last_Forall {A} (P : A -> Prop) l d : Forall P l -> P d -> P (last l d).
Proof.
  induction 1 as [|x l Hx Hl IH]; [auto|]. intros Hd. destruct l; [assumption|].
  now apply IH.
Qed.

Lemma Forall_filter {A} (P : A -> Prop) f l : Forall P l -> Forall P (filter f l).
Proof.
  induction 1; simpl; [constructor|]. destruct (f x); [constructor|]; auto.
Qed.

Lemma basename_no_sep p : no_sep isPosixPathSeparator (posix.basename p) = true.
Proof.
  unfold posix.basename.
  apply (last_Forall (fun s => no_sep isPosixPathSeparator s = true)); [|reflexivity].
  apply Forall_filter. apply split_segments_no_sep.
Qed.

Lemma basename_of_no_sep p :
  no_sep isPosixPathSeparator p = true -> posix.basename p = p.
Proof.
  intros H. unfold posix.basename. rewrite split_no_sep by assumption.
  destruct p; reflexivity.
Qed.

Lemma ext_of_no_sep b :
  no_sep isPosixPathSeparator b = true ->
  no_sep isPosixPathSeparator (posix.ext_of b) = true.
Proof.
  intros H. unfold posix.ext_of.
  destruct (last_index_of "." b) as [[|i]|]; try reflexivity.
  destruct (String.eqb b ".."); [reflexivity|]. now apply no_sep_substring.
Qed.

Lemma trailing_seps_no_sep p :
  no_sep isPosixPathSeparator p = true ->
  no_sep isPosixPathSeparator (posix.trailing_seps p) = true.
Proof.
  induction p as [|c r IH]; [reflexivity|]. intros H.
  pose proof H as H'. cbn [no_sep] in H'. apply andb_true_iff in H' as [Hc Hr].
  cbn [posix.trailing_seps].
  destruct (nonempty (posix.basename r)); [now apply IH|].
  destruct (isPosixPathSeparator c); [assumption|assumption].
Qed.

Lemma basename_suffix_no_sep p s :
  no_sep isPosixPathSeparator p = true ->
  no_sep isPosixPathSeparator (posix.basename_suffix p s) = true.
Proof.
  intros H. unfold posix.basename_suffix.
  destruct (negb (nonempty s) || (String.length p <? String.length s)%nat);
    [apply basename_no_sep|].
  destruct (String.eqb s p); [reflexivity|].
  destruct (negb (nonempty (posix.basename p))); [assumption|].
  destruct (ends_with (posix.basename p) s).
  - destruct (String.length (posix.basename p) =? String.length s)%nat;
      [apply basename_no_sep|]. apply no_sep_substring. apply basename_no_sep.
  - destruct (ends_with s (posix.basename p)); [|apply basename_no_sep].
    rewrite no_sep_append, basename_no_sep. now apply trailing_seps_no_sep.
Qed.

(** ** Writing a file *)

Lemma lookup_replace_other (t : list (Key * Node)) k n k' :
  k' <> k -> lookup (replace t k n) k' = lookup t k'.
Proof.
  intros H. unfold lookup, replace. destruct k' as [|x k']; [reflexivity|].
  set (q := x :: k') in *. clearbody q.
  induction t as [|[a y] t IH]; [reflexivity|]. cbn [map find fst snd].
  destruct (key_dec a k) as [->|Hak]; cbn [fst snd].
  - destruct (key_dec k q); [congruence|]. exact IH.
  - destruct (key_dec a q); [reflexivity|exact IH].
Qed.

Lemma lookup_replace_same (t : list (Key * Node)) k n x :
  k <> [] -> lookup t k = Some x -> lookup (replace t k n) k = Some n.
Proof.
  intros Hk. unfold lookup, replace. destruct k as [|c k]; [congruence|].
  set (q := c :: k) in *. clearbody q.
  induction t as [|[a y] t IH]; [discriminate|]. cbn [map find fst snd].
  destruct (key_dec a q) as [->|Haq]; cbn [fst snd].
  - destruct (key_dec q q); [reflexivity|congruence].
  - destruct (key_dec a q); [congruence|]. exact IH.
Qed.

Lemma lookup_snoc_other (t : list (Key * Node)) k n k' :
  k' <> k -> lookup (t ++ [(k, n)])%list k' = lookup t k'.
Proof.
  intros H. unfold lookup. destruct k' as [|x k']; [reflexivity|].
  set (q := x :: k') in *. clearbody q.
  induction t as [|[a y] t IH]; cbn [app find fst snd].
  - destruct (key_dec k q); [congruence|reflexivity].
  - destruct (key_dec a q); [reflexivity|exact IH].
Qed.

Lemma lookup_snoc_same (t : list (Key * Node)) k n :
  k <> [] -> lookup t k = None -> lookup (t ++ [(k, n)])%list k = Some n.
Proof.
  intros Hk. unfold lookup. destruct k as [|c k]; [congruence|].
  set (q := c :: k) in *. clearbody q.
  induction t as [|[a y] t IH]; cbn [app find fst snd].
  - destruct (key_dec q q); [reflexivity|congruence].
  - destruct (key_dec a q); [discriminate|exact IH].
Qed.

Lemma walk_found (t : list (Key * Node)) cs : forall cur k x,
  walk t cur cs = Found k x -> lookup t k = Some x.
Proof.
  induction cs as [|c rest IH]; intros cur k x; cbn [walk].
  - destruct (lookup t cur) eqn:L; [|discriminate]. intros H. injection H as <- <-. exact L.
  - destruct (lookup t cur) as [[| |]|]; try discriminate.
    destruct (String.eqb c "" || String.eqb c "."); [apply IH|].
    destruct (String.eqb c ".."); [apply IH|].
    destruct (lookup t (cur ++ [c])%list); [apply IH|]. destruct rest; discriminate.
Qed.

Lemma walk_missing (t : list (Key * Node)) cs : forall cur k,
  walk t cur cs = Missing k -> lookup t k = None /\ k <> [].
Proof.
  induction cs as [|c rest IH]; intros cur k; cbn [walk].
  - destruct (lookup t cur); discriminate.
  - destruct (lookup t cur) as [[| |]|]; try discriminate.
    destruct (String.eqb c "" || String.eqb c "."); [apply IH|].
    destruct (String.eqb c ".."); [apply IH|].
    destruct (lookup t (cur ++ [c])%list) eqn:L; [apply IH|].
    destruct rest; [|discriminate]. intros H. injection H as <-. split; [exact L|].
    intros X. apply app_eq_nil in X as [_ X]. discriminate.
Qed.

(** The key a path resolves to ends with its last name. *)
Lemma walk_last (t : list (Key * Node)) n :
  plain isPosixPathSeparator n = true ->
  forall cs cur k,
  (exists x, walk t cur (cs ++ [n]) = Found k x) \/ walk t cur (cs ++ [n]) = Missing k ->
  last k "" = n /\ k <> [].
Proof.
  intros Hn.
  assert (E0 : String.eqb n "" || String.eqb n "." = false).
  { unfold plain in Hn. repeat (apply andb_true_iff in Hn as [Hn ?]).
    destruct n; [discriminate|]. apply negb_true_iff in H0. now rewrite H0. }
  assert (E2 : String.eqb n ".." = false) by now apply (plain_not_dots isPosixPathSeparator).
  assert (N : forall d : Key, (d ++ [n])%list <> []).
  { intros d X. apply app_eq_nil in X as [_ X]. discriminate. }
  induction cs as [|c rest IH]; intros cur k; cbn [app walk].
  - destruct (lookup t cur) as [[| |]|];
      try (intros [[x H]|H]; discriminate).
    rewrite E0, E2. destruct (lookup t (cur ++ [n])%list) as [y|] eqn:L; cbn [walk].
    + intros [[x H]|H]; [|discriminate].
      injection H as <- _. split; [apply last_last|apply N].
    + intros [[x H]|H]; [discriminate|]. injection H as <-.
      split; [apply last_last|apply N].
  - destruct (lookup t cur) as [[| |]|];
      try (intros [[x H]|H]; discriminate).
    destruct (String.eqb c "" || String.eqb c "."); [apply IH|].
    destruct (String.eqb c ".."); [apply IH|].
    destruct (lookup t (cur ++ [c])%list); [apply IH|].
    destruct (rest ++ [n])%list eqn:X; [now apply app_eq_nil in X as [_ X]|].
    intros [[x H]|H]; discriminate.
Qed.

Lemma resolve_found w p k x : resolve w p = Found k x -> lookup (entries w) k = Some x.
Proof.
  unfold resolve. destruct (negb (nonempty p)); [discriminate|]. apply walk_found.
Qed.

Lemma resolve_missing w p k :
  resolve w p = Missing k -> lookup (entries w) k = None /\ k <> [].
Proof.
  unfold resolve. destruct (negb (nonempty p)); [discriminate|]. apply walk_missing.
Qed.

(** What a successful [writeFileSync] leaves. *)
Lemma writeFileSync_ok p buf w w' :
  writeFileSync p buf w = (Return tt, w') ->
  exists k r,
    ((exists x, resolve w p = Found k x) \/ resolve w p = Missing k) /\
    lookup (entries w') k = Some (File (now w) r buf) /\
    (forall k', k' <> k -> lookup (entries w') k' = lookup (entries w) k') /\
    entropy w' = entropy w /\ epos w' = epos w /\ now w' = now w /\ net w' = net w.
Proof.
  unfold writeFileSync.
  destruct (resolve w p) as [k [m r d|m|]|k|c] eqn:R; try discriminate.
  - intros H. injection H as <-. exists k, r. cbn.
    pose proof (resolve_found _ _ _ _ R) as L.
    assert (K : k <> []) by (intros ->; discriminate L).
    split; [left; eauto|]. split; [now apply (lookup_replace_same _ _ _ _ K L)|].
    split; [intros k' Hk; now apply lookup_replace_other|auto].
  - intros H. injection H as <-. exists k, true. cbn.
    destruct (resolve_missing _ _ _ R) as [L K].
    split; [now right|]. split; [now apply lookup_snoc_same|].
    split; [intros k' Hk; now apply lookup_snoc_other|auto].
Qed.

(** A staged name is the last name of the key it is written at. *)
Lemma resolve_join_last w T n k :
  plain isPosixPathSeparator n = true ->
  (exists x, resolve w (posix.join [T; n]) = Found k x) \/
  resolve w (posix.join [T; n]) = Missing k ->
  last k "" = n /\ k <> [].
Proof.
  intros Hn.
  rewrite posix_join_plain by (repeat constructor; auto; discriminate).
  set (abs := posix.isAbsolute T).
  set (L := norm_segments (negb abs) isPosixPathSeparator T).
  assert (NL : normal_stack isPosixPathSeparator (negb abs) (L ++ [n]) = true).
  { apply normal_app_plain; [apply norm_segments_normal|assumption]. }
  assert (NN : (L ++ [n])%list <> []).
  { intros X. apply app_eq_nil in X as [_ X]. discriminate. }
  unfold resolve. rewrite (render_nonempty abs (negb abs)) by assumption. cbn [negb].
  rewrite (split_render abs (negb abs)) by assumption.
  rewrite app_assoc. apply walk_last. exact Hn.
Qed.


(** ** Synthesized file names *)

Section Names.
Variable url_pathname : string -> option string.
Local Arguments String.append : simpl never.
Local Arguments posix.join : simpl never.

Lemma generateFileName_run url w :
  generateFileName url_pathname url w =
  match usable_basename url_pathname url with
  | Some b => (Return (suffixed_name b (window w (epos w) 4)), snd (randomBytes 4 w))
  | None => (Return (random_upload_name (window w (epos w) 8)), snd (randomBytes 8 w))
  end.
Proof.
  unfold generateFileName, usable_basename, random_name.
  destruct (truthy url); [|reflexivity].
  destruct (url_pathname (value url)) as [pathname|]; [|reflexivity].
  cbv zeta.
  destruct (nonempty (posix.basename pathname) &&
            negb (String.eqb (posix.basename pathname) "/")); reflexivity.
Qed.

Lemma suffixed_name_plain b r :
  no_sep isPosixPathSeparator b = true -> plain isPosixPathSeparator (suffixed_name b r) = true.
Proof.
  intros H. apply dash_plain.
  - unfold suffixed_name, posix.extname. rewrite !no_sep_append.
    rewrite basename_suffix_no_sep, hex_no_sep by assumption.
    rewrite ext_of_no_sep by apply basename_no_sep. reflexivity.
  - unfold suffixed_name. apply has_char_append_r. now apply has_char_append_l.
Qed.

Lemma random_upload_name_plain r : plain isPosixPathSeparator (random_upload_name r) = true.
Proof.
  apply dash_plain.
  - unfold random_upload_name. rewrite !no_sep_append, hex_no_sep. reflexivity.
  - unfold random_upload_name. now apply has_char_append_l.
Qed.

Lemma suffixed_name_inj b r1 r2 :
  List.length r1 = List.length r2 ->
  suffixed_name b r1 = suffixed_name b r2 -> r1 = r2.
Proof.
  intros L H. unfold suffixed_name in H.
  apply append_inv_head in H. apply append_inv_head in H.
  apply append_same_length in H as [H _]; [now apply hex_inj|].
  rewrite !hex_length. lia.
Qed.

Lemma random_upload_name_inj r1 r2 :
  List.length r1 = List.length r2 ->
  random_upload_name r1 = random_upload_name r2 -> r1 = r2.
Proof.
  intros L H. unfold random_upload_name in H.
  apply append_inv_head in H.
  apply append_same_length in H as [H _]; [now apply hex_inj|].
  rewrite !hex_length. lia.
Qed.

Lemma join_plain_inj T n1 n2 :
  plain isPosixPathSeparator n1 = true -> plain isPosixPathSeparator n2 = true ->
  posix.join [T; n1] = posix.join [T; n2] -> n1 = n2.
Proof.
  intros P1 P2. rewrite !posix_join_plain by (repeat constructor; auto; discriminate).
  unfold render. rewrite !sconcat_app by discriminate. cbn [String.concat].
  intros H. apply append_inv_head in H. now apply append_inv_head in H.
Qed.

(** What a successful download did. *)
Lemma downloadFile_ok this url name w p n sz w' :
  truthy name = false ->
  downloadFile url_pathname this url name w = (Return (Staged p n sz), w') ->
  exists buf,
    fst (generateFileName url_pathname (Some url) w) = Return n /\
    p = posix.join [tempDir this; n] /\
    sz = List.length buf /\
    writeFileSync p buf (snd (generateFileName url_pathname (Some url) w))
      = (Return tt, w').
Proof.
  intros Hname. unfold downloadFile, try_catch, bind, fetch, buffer, throw, ret.
  rewrite Hname.
  destruct (net w url) as [resp|e]; [|discriminate].
  destruct (ok resp); cbn [negb]; [|discriminate].
  rewrite generateFileName_run.
  destruct (usable_basename url_pathname (Some url)) as [b|]; cbn [fst snd];
    destruct (body resp) as [buf|e]; try discriminate;
    match goal with
    | |- context [writeFileSync ?q buf ?w0] =>
        destruct (writeFileSync q buf w0) as [[[]|e] w''] eqn:Wr; try discriminate
    end;
    intros H; injection H as <- <- <- <-; exists buf; auto.
Qed.

(** A synthesized name is an ordinary file name. *)
Lemma generated_name_plain url w n :
  fst (generateFileName url_pathname url w) = Return n ->
  plain isPosixPathSeparator n = true.
Proof.
  rewrite generateFileName_run.
  destruct (usable_basename url_pathname url) as [b|] eqn:U; cbn [fst];
    intros H; injection H as <-; [|apply random_upload_name_plain].
  apply suffixed_name_plain.
  unfold usable_basename in U. destruct (truthy url); [|discriminate].
  destruct (url_pathname (value url)) as [s|]; [|discriminate]. cbv zeta in U.
  destruct (nonempty (posix.basename s) && negb (String.eqb (posix.basename s) "/"));
    [|discriminate].
  injection U as <-. apply basename_no_sep.
Qed.

(** The name a later call synthesizes, from a world whose entropy is that
    of [w] read further on, is not the name synthesized at [w] when the
    draws differ. *)
Lemma generated_names_differ url w w1 n1 n2 :
  window w (epos w) 4 <> window w (epos w + 4) 4 ->
  window w (epos w) 8 <> window w (epos w + 8) 8 ->
  entropy w1 = entropy w ->
  epos w1 = epos (snd (generateFileName url_pathname url w)) ->
  fst (generateFileName url_pathname url w) = Return n1 ->
  fst (generateFileName url_pathname url w1) = Return n2 ->
  n1 <> n2.
Proof.
  intros H4 H8 He Hp. rewrite !generateFileName_run. rewrite generateFileName_run in Hp.
  destruct (usable_basename url_pathname url) as [b|]; cbn [fst snd] in *;
    intros E1 E2; injection E1 as <-; injection E2 as <-;
    unfold window at 2; rewrite He, Hp; cbn [randomBytes snd epos];
    fold (window w (epos w + 4) 4); fold (window w (epos w + 8) 8); intros E.
  - apply suffixed_name_inj in E; [contradiction|now rewrite !window_length].
  - apply random_upload_name_inj in E; [contradiction|now rewrite !window_length].
Qed.

(** C4. Two stagings of one URL without a caller-supplied name, whose
    random draws differ, synthesize two names that differ, and so do the
    paths they are written to.  Each name is the last path segment of the
    URL with a hyphen and eight hexadecimal digits before its extension,
    or, when the URL has no usable segment, [upload-] followed by sixteen
    hexadecimal digits and [.bin].  When both downloads succeed, the file
    the first one wrote is still there, as written, after the second. *)
Theorem staged_names_distinct (this : FileHandler.t) (url : string) (w : World) :
  window w (epos w) 4 <> window w (epos w + 4) 4 ->
  window w (epos w) 8 <> window w (epos w + 8) 8 ->
  let r1 := generateFileName url_pathname (Some url) w in
  let r2 := generateFileName url_pathname (Some url) (snd r1) in
  (exists n1 n2,
     fst r1 = Return n1 /\ fst r2 = Return n2 /\ n1 <> n2 /\
     posix.join [tempDir this; n1] <> posix.join [tempDir this; n2] /\
     match usable_basename url_pathname (Some url) with
     | Some b => exists s1 s2, List.length s1 = 4 /\ List.length s2 = 4 /\
                   n1 = suffixed_name b s1 /\ n2 = suffixed_name b s2
     | None => exists s1 s2, List.length s1 = 8 /\ List.length s2 = 8 /\
                   n1 = random_upload_name s1 /\ n2 = random_upload_name s2
     end) /\
  (forall name1 name2 p1 n1 s1 w1 p2 n2 s2 w2,
     truthy name1 = false -> truthy name2 = false ->
     downloadFile url_pathname this url name1 w = (Return (Staged p1 n1 s1), w1) ->
     downloadFile url_pathname this url name2 w1 = (Return (Staged p2 n2 s2), w2) ->
     n1 <> n2 /\ p1 <> p2 /\
     exists k1 m r buf,
       last k1 "" = n1 /\ List.length buf = s1 /\
       lookup (entries w1) k1 = Some (File m r buf) /\
       lookup (entries w2) k1 = Some (File m r buf)).
Proof.
  intros H4 H8. cbv zeta. split.
  - destruct (generateFileName url_pathname (Some url) w) as [o1 wg] eqn:G1.
    cbn [fst snd].
    destruct (generateFileName url_pathname (Some url) wg) as [o2 wg'] eqn:G2.
    cbn [fst snd].
    assert (R1 : exists n1, o1 = Return n1).
    { revert G1. rewrite generateFileName_run.
      destruct (usable_basename url_pathname (Some url)); intros G; injection G as <- _; eauto. }
    assert (R2 : exists n2, o2 = Return n2).
    { revert G2. rewrite generateFileName_run.
      destruct (usable_basename url_pathname (Some url)); intros G; injection G as <- _; eauto. }
    destruct R1 as [n1 ->]. destruct R2 as [n2 ->].
    assert (N : n1 <> n2).
    { apply (generated_names_differ (Some url) w wg); auto.
      - revert G1. rewrite generateFileName_run.
        destruct (usable_basename url_pathname (Some url)); intros G; injection G as _ <-;
          reflexivity.
      - now rewrite G1.
      - now rewrite G1.
      - now rewrite G2. }
    assert (P1 : plain isPosixPathSeparator n1 = true).
    { apply (generated_name_plain (Some url) w). now rewrite G1. }
    assert (P2 : plain isPosixPathSeparator n2 = true).
    { apply (generated_name_plain (Some url) wg). now rewrite G2. }
    exists n1, n2. split; [reflexivity|]. split; [reflexivity|].
    split; [exact N|]. split.
    + intros E. now apply join_plain_inj in E.
    + revert G1 G2. rewrite !generateFileName_run.
      destruct (usable_basename url_pathname (Some url)); intros G1 G2;
        injection G1 as <- _; injection G2 as <- _;
        do 2 eexists; repeat split; apply window_length.
  - intros name1 name2 p1 n1 s1 w1 p2 n2 s2 w2 T1 T2 D1 D2.
    destruct (downloadFile_ok _ _ _ _ _ _ _ _ T1 D1) as (buf1 & G1 & -> & -> & W1).
    destruct (downloadFile_ok _ _ _ _ _ _ _ _ T2 D2) as (buf2 & G2 & -> & -> & W2).
    destruct (writeFileSync_ok _ _ _ _ W1) as (k1 & r1 & K1 & L1 & _ & E1 & E2 & _).
    destruct (writeFileSync_ok _ _ _ _ W2) as (k2 & r2 & K2 & _ & O2 & _).
    pose proof (generated_name_plain _ _ _ G1) as P1.
    pose proof (generated_name_plain _ _ _ G2) as P2.
    assert (N : n1 <> n2).
    { apply (generated_names_differ (Some url) w w1); auto.
      rewrite E1. revert G1. rewrite generateFileName_run.
      destruct (usable_basename url_pathname (Some url)); reflexivity. }
    apply resolve_join_last in K1 as [Z1 _]; [|assumption].
    apply resolve_join_last in K2 as [Z2 _]; [|assumption].
    split; [exact N|]. split; [intros E; now apply join_plain_inj in E|].
    eexists k1, _, r1, buf1. split; [exact Z1|]. split; [reflexivity|].
    split; [exact L1|].
    rewrite O2 by congruence.
    enough (X : entries (snd (generateFileName url_pathname (Some url) w1)) = entries w1)
      by (rewrite X; exact L1).
    rewrite generateFileName_run.
    destruct (usable_basename url_pathname (Some url)); reflexivity.
Qed.
End Names.

(** ** Directories of the two platforms *)

Section PlatformPaths.
Local Arguments String.append : simpl never.

Lemma device_not_sep c : isWindowsDeviceRoot c = true -> isPathSeparator c = false.
Proof.
  destruct c as [[] [] [] [] [] [] [] []]; intros H; try reflexivity; discriminate H.
Qed.

Lemma normal_false_plain isSep l :
  normal_stack isSep false l = true -> Forall (fun s => plain isSep s = true) l.
Proof.
  destruct l as [|s r]; [constructor|]. cbn [normal_stack].
  destruct (String.eqb s ".."); [discriminate|].
  intros H. apply Forall_forall. intros x Hx. rewrite forallb_forall in H. auto.
Qed.

Lemma flat_concat sep l :
  l <> [] -> flat sep l = String.concat sep l ++ sep.
Proof.
  unfold flat. induction l as [|x l IH]; [congruence|]. intros _.
  cbn [map]. rewrite sconcat_empty_cons.
  destruct l as [|y l].
  - cbn. now rewrite append_nil_r.
  - rewrite IH by discriminate. rewrite sconcat_cons. now rewrite !append_assoc.
Qed.

Lemma sconcat_plain_nonempty isSep sep l :
  Forall (fun s => plain isSep s = true) l -> l <> [] ->
  nonempty (String.concat sep l) = true.
Proof.
  intros H Hn. destruct l as [|s r]; [congruence|].
  apply sconcat_nonempty. inversion H; subst. now apply (plain_nonempty isSep).
Qed.

Lemma dir_of_flat isSep c pre l trailing :
  isSep c = true ->
  Forall (fun s => plain isSep s = true) l ->
  opt_test isSep (last_char pre) = true ->
  let sep := String c "" in
  let q := String.concat sep l in
  dir_of isSep sep (pre ++ (if nonempty q && trailing then q ++ sep else q))
  = pre ++ flat sep l.
Proof.
  intros Hc Hl Hpre sep q. unfold dir_of.
  destruct l as [|s r].
  - cbn. rewrite append_nil_r, Hpre. reflexivity.
  - subst q. rewrite (sconcat_plain_nonempty isSep) by (auto; discriminate).
    rewrite flat_concat by discriminate. cbn [andb].
    destruct trailing.
    + rewrite <- append_assoc. rewrite last_char_append by reflexivity.
      cbn. rewrite Hc. now rewrite append_assoc.
    + rewrite (last_char_concat isSep sep (s :: r) pre) by (auto; discriminate).
      now rewrite append_assoc.
Qed.

Section Win32.
Variables (c0 c1 c2 : ascii) (r : string).
Hypothesis rooted : drive_rooted (String c0 (String c1 (String c2 r))) = true.

Let st := norm_segments false isPathSeparator r.

Lemma rooted_inv : isWindowsDeviceRoot c0 = true /\ c1 = ":"%char /\ isPathSeparator c2 = true.
Proof.
  unfold drive_rooted in rooted.
  apply andb_true_iff in rooted as [H H2]. apply andb_true_iff in H as [H0 H1].
  apply Ascii.eqb_eq in H1. auto.
Qed.

Lemma st_plain : Forall (fun s => plain isPathSeparator s = true) st.
Proof. apply normal_false_plain. apply norm_segments_normal. Qed.

Lemma win32_normalize_drive :
  dir_of isPathSeparator "\" (win32.normalize (String c0 (String c1 (String c2 r))))
  = String c0 ":\" ++ flat "\" st.
Proof.
  destruct rooted_inv as (H0 & -> & H2).
  unfold win32.normalize, win32.parse_root.
  rewrite (device_not_sep _ H0), H0, H2. cbn [andb Ascii.eqb Bool.eqb].
  assert (Q : (if nonempty r then normalizeString r (negb true) "\" isPathSeparator else "")
              = String.concat "\" st).
  { destruct r; reflexivity. }
  rewrite Q. cbn [negb andb].
  assert (E : (if negb (nonempty (String.concat "\" st)) && false then "."
               else String.concat "\" st) = String.concat "\" st).
  { now rewrite andb_false_r. }
  rewrite E.
  change (String c0 ":" ++ "\" ++ ?x) with (String c0 ":\" ++ x).
  apply (dir_of_flat isPathSeparator "\"%char (String c0 ":\") st);
    [reflexivity|apply st_plain|reflexivity].
Qed.

Lemma win32_join_drive segs :
  Forall (fun s => plain isPathSeparator s = true) segs -> segs <> [] ->
  win32.join ((String c0 (String c1 (String c2 r))) :: segs) =
  dir_of isPathSeparator "\" (win32.normalize (String c0 (String c1 (String c2 r))))
  ++ String.concat "\" segs.
Proof.
  intros Hp Hn. rewrite win32_normalize_drive.
  destruct rooted_inv as (H0 & -> & H2).
  unfold win32.join. cbn [filter nonempty].
  rewrite (filter_nonempty_plain isPathSeparator) by assumption.
  destruct segs as [|s q]; [congruence|].
  unfold win32.unc_intended. rewrite (device_not_sep _ H0). cbn [andb].
  rewrite sconcat_cons.
  change (String c0 (String ":" (String c2 r)) ++ "\" ++ String.concat "\" (s :: q))
    with (String c0 (String ":" (String c2 (r ++ String "\"%char (String.concat (String "\"%char "") (s :: q)))))).
  cbn [span]. rewrite (device_not_sep _ H0). cbn [String.length Nat.leb].
  unfold win32.normalize, win32.parse_root.
  rewrite (device_not_sep _ H0), H0, H2. cbn [andb Ascii.eqb Bool.eqb].
  rewrite (nonempty_append_r r) by reflexivity.
  unfold normalizeString. rewrite (norm_segments_app isPathSeparator) by (auto; reflexivity).
  cbn [negb].
  assert (N : nonempty (String.concat "\" (st ++ s :: q)) = true).
  { rewrite sconcat_app by discriminate. apply nonempty_append_r.
    apply (sconcat_plain_nonempty isPathSeparator); auto. }
  unfold st in N. rewrite N. cbn [negb andb].
  pose proof (last_char_concat isPathSeparator "\" (s :: q)
                (String c0 (String ":" (String c2 r)) ++ "\") Hp Hn) as L.
  rewrite append_assoc in L.
  change (String c0 (String ":" (String c2 r)) ++ "\" ++ String.concat "\" (s :: q))
    with (String c0 (String ":" (String c2 (r ++ String "\"%char (String.concat (String "\"%char "") (s :: q))))))
    in L.
  rewrite L. rewrite sconcat_app by discriminate.
  unfold flat, st. rewrite andb_false_r.
  change (String c0 ":" ++ "\" ++ ?x) with (String c0 ":\" ++ x).
  now rewrite append_assoc.
Qed.
End Win32.

Lemma posix_dir_absolute x :
  posix.isAbsolute x = true ->
  dir_of isPosixPathSeparator "/" (posix.normalize x)
  = "/" ++ flat "/" (norm_segments false isPosixPathSeparator x).
Proof.
  intros A. unfold posix.normalize. rewrite A.
  destruct x as [|c x]; [discriminate|]. cbn [nonempty negb].
  unfold normalizeString. set (st := norm_segments false isPosixPathSeparator (String c x)).
  assert (P : Forall (fun s => plain isPosixPathSeparator s = true) st).
  { apply normal_false_plain. apply norm_segments_normal. }
  destruct st as [|s q] eqn:E.
  - reflexivity.
  - rewrite (sconcat_plain_nonempty isPosixPathSeparator) by (auto; discriminate). cbn [negb].
    pose proof (dir_of_flat isPosixPathSeparator "/"%char "/" (s :: q)
                  (opt_test isPosixPathSeparator (last_char (String c x))) eq_refl P eq_refl) as D.
    cbv zeta in D. rewrite (sconcat_plain_nonempty isPosixPathSeparator) in D by (auto; discriminate).
    cbn [andb] in D. rewrite <- D.
    destruct (opt_test isPosixPathSeparator (last_char (String c x))); now rewrite ?append_nil_r.
Qed.

Lemma posix_join_absolute x segs :
  posix.isAbsolute x = true ->
  Forall (fun s => plain isPosixPathSeparator s = true) segs -> segs <> [] ->
  posix.join (x :: segs) =
  dir_of isPosixPathSeparator "/" (posix.normalize x) ++ String.concat "/" segs.
Proof.
  intros A Hp Hn. rewrite posix_join_plain, posix_dir_absolute by assumption.
  rewrite A. unfold render. cbn [negb]. rewrite sconcat_app by assumption.
  unfold flat. now rewrite append_assoc.
Qed.
End PlatformPaths.

(** ** The request handler *)

Section Handler.
Variable url_pathname : string -> option string.
Variable base64_decode : string -> list Byte.byte.
Variable this : FileHandler.t.

Local Arguments resolve : simpl never.
Local Arguments String.append : simpl never.
Local Arguments posix.join : simpl never.
Local Arguments posix.basename : simpl never.

Ltac run_fs E :=
  unfold try_catch, bind, existsSync, statSync, accessSync_R_OK, unlinkSync, throw, ret;
  repeat (cbn; rewrite ?E).

Lemma try_catch_returns {A} (m : M World A) h w :
  (forall e w', returns (h e w')) -> returns (try_catch m h w).
Proof.
  intros H. unfold try_catch. destruct (m w) as [[a|e] w']; [exact I|apply H].
Qed.

(** No exception leaves the handler when its argument is an object. *)
Lemma handleFileRequest_returns (request : Request) w :
  returns (handleFileRequest url_pathname base64_decode this request w).
Proof. apply try_catch_returns. intros e w'. exact I. Qed.

(** An argument that is [undefined] or [null] makes it throw, before
    anything is done. *)
Lemma handleFileRequest_nullish (request : Argument) w :
  request = Undefined \/ request = Null ->
  exists e,
    handleFileRequest url_pathname base64_decode this request w = (Throw e, w) /\
    ename e = "TypeError".
Proof. intros [-> | ->]; eexists; split; reflexivity. Qed.

(** An unknown action is answered with a failure that names it. *)
Lemma handleFileRequest_unknown_action (request : Request) w :
  is_action (action request) "prepareFile" = false ->
  is_action (action request) "cleanupFile" = false ->
  handleFileRequest url_pathname base64_decode this request w =
  (Return (Some (Failure ("Unknown file action: " ++ show (action request)))), w).
Proof.
  intros H1 H2. unfold handleFileRequest, try_catch. cbv zeta. now rewrite H1, H2.
Qed.

Lemma handle_prepare (request : Request) w :
  is_action (action request) "prepareFile" = true ->
  handleFileRequest url_pathname base64_decode this request w =
  if truthy (fileUrl request) then
    settled (downloadFile url_pathname this (value (fileUrl request)) (fileName request) w)
  else if truthy (base64Data request) then
    settled (saveBase64File base64_decode this (value (base64Data request)) (fileName request) w)
  else if truthy (filePath request) then
    settled (verifyFile (value (filePath request)) w)
  else (Return None, w).
Proof.
  intros H. unfold handleFileRequest, try_catch, bind, settled, ret. cbv zeta. rewrite H.
  destruct (truthy (fileUrl request)).
  { destruct (downloadFile _ _ _ _ w) as [[r|e] w']; reflexivity. }
  destruct (truthy (base64Data request)).
  { destruct (saveBase64File _ _ _ _ w) as [[r|e] w']; reflexivity. }
  destruct (truthy (filePath request)); [|reflexivity].
  destruct (verifyFile _ w) as [[r|e] w']; reflexivity.
Qed.

Lemma handle_cleanup (request : Request) w :
  is_action (action request) "prepareFile" = false ->
  is_action (action request) "cleanupFile" = true ->
  handleFileRequest url_pathname base64_decode this request w =
  settled (cleanupFile this (filePath request) w).
Proof.
  intros H1 H2. unfold handleFileRequest, try_catch, bind, settled, ret. cbv zeta.
  rewrite H1, H2. destruct (cleanupFile this (filePath request) w) as [[r|e] w']; reflexivity.
Qed.

Lemma settled_some o : fst (settled o) <> Return None.
Proof. destruct o as [[r|e] w]; discriminate. Qed.

Lemma verifyFile_spec p w :
  match verifiable w p with
  | Some n => verifyFile p w = (Return (Staged p (posix.basename p) n), w)
  | None => exists msg,
      verifyFile p w = (Throw (error ("Failed to verify file: " ++ msg)), w)
  end.
Proof.
  unfold verifiable, verifyFile.
  destruct (resolve w p) as [k [m r d| m | ] | k | c] eqn:E; [destruct r| | | |];
    run_fs E; eauto.
Qed.

Lemma verifyFile_missing p w :
  existsSync p w = (Return false, w) ->
  verifyFile p w =
  (Throw (error ("Failed to verify file: Error: File does not exist: " ++ p)), w).
Proof.
  intros H. unfold verifyFile, try_catch, bind. rewrite H. reflexivity.
Qed.

Lemma existsSync_world p w : snd (existsSync p w) = w.
Proof. unfold existsSync. destruct (resolve w p) as [k [| |]| |]; reflexivity. Qed.

(** A path that does not start with the scratch root is refused and
    nothing is touched. *)
Lemma cleanupFile_refuses p w :
  starts_with p (tempDir this) = false ->
  cleanupFile this (Some p) w =
  (Return (Failure "Can only cleanup files in temp directory"), w).
Proof. intros H. unfold cleanupFile, try_catch. now rewrite H. Qed.

Lemma cleanupFile_absent p w :
  starts_with p (tempDir this) = true ->
  fst (existsSync p w) = Return false ->
  cleanupFile this (Some p) w = (Return (Cleaned "File cleaned up successfully"), w).
Proof.
  intros H E. unfold cleanupFile, try_catch, bind. rewrite H. cbn [negb].
  pose proof (existsSync_world p w) as S.
  destruct (existsSync p w) as [o w']. cbn in E, S. subst. reflexivity.
Qed.

(** C3. The handler answers a [prepareFile] request that names no source
    with [undefined]: no structured result is returned.  An argument that
    is itself [undefined] or [null] is a second way past the structured
    result: the destructuring of line 25 throws a [TypeError] before the
    [try], and nothing catches it.  Apart from these the handler does what
    the specification says: a request object never makes it throw, and an
    unknown action is answered with a failure that names it. *)
Theorem handleFileRequest_no_source_is_undefined :
  (forall (name : option string) (w : World),
     handleFileRequest url_pathname base64_decode this
       (mkRequest (Some "prepareFile") None None name None) w = (Return None, w)) /\
  (forall (request : Request) w,
     returns (handleFileRequest url_pathname base64_decode this request w)) /\
  (forall (request : Request) w,
     is_action (action request) "prepareFile" = false ->
     is_action (action request) "cleanupFile" = false ->
     handleFileRequest url_pathname base64_decode this request w =
     (Return (Some (Failure ("Unknown file action: " ++ show (action request)))), w)) /\
  (forall (request : Argument) w,
     request = Undefined \/ request = Null ->
     exists e,
       handleFileRequest url_pathname base64_decode this request w = (Throw e, w) /\
       ename e = "TypeError").
Proof.
  split; [reflexivity|]. split; [|split].
  - apply handleFileRequest_returns.
  - apply handleFileRequest_unknown_action.
  - apply handleFileRequest_nullish.
Qed.

(** C10. A [prepareFile] request with no usable source (each of [fileUrl],
    [base64Data] and [filePath] absent, or empty, which the tests of the
    handler do not tell apart) is answered with [undefined]; no other
    request is; and the first usable one of [fileUrl], [base64Data],
    [filePath], in this order, decides the operation. *)
Theorem prepareFile_sources (request : Request) (w : World) :
  let r := handleFileRequest url_pathname base64_decode this request w in
  let prepare := is_action (action request) "prepareFile" in
  let url := truthy (fileUrl request) in
  let b64 := truthy (base64Data request) in
  let path := truthy (filePath request) in
  (fst r = Return None <->
     prepare = true /\ url = false /\ b64 = false /\ path = false) /\
  (prepare = true -> url = false -> b64 = false -> path = false ->
     r = (Return None, w)) /\
  (prepare = true -> url = true ->
     r = settled (downloadFile url_pathname this (value (fileUrl request))
                    (fileName request) w)) /\
  (prepare = true -> url = false -> b64 = true ->
     r = settled (saveBase64File base64_decode this (value (base64Data request))
                    (fileName request) w)) /\
  (prepare = true -> url = false -> b64 = false -> path = true ->
     r = settled (verifyFile (value (filePath request)) w)).
Proof.
  cbv zeta. split; [|repeat split; intros P; rewrite (handle_prepare _ _ P);
                     intros; repeat match goal with H : _ = _ |- _ => rewrite H end;
                     reflexivity].
  destruct (is_action (action request) "prepareFile") eqn:P.
  - rewrite (handle_prepare _ _ P).
    destruct (truthy (fileUrl request));
      [split; [intros H; now apply settled_some in H|intros (_ & H & _); discriminate]|].
    destruct (truthy (base64Data request));
      [split; [intros H; now apply settled_some in H|intros (_ & _ & H & _); discriminate]|].
    destruct (truthy (filePath request));
      [split; [intros H; now apply settled_some in H|intros (_ & _ & _ & H); discriminate]|].
    split; auto.
  - split; [|intros (H & _); discriminate].
    destruct (is_action (action request) "cleanupFile") eqn:C.
    + rewrite (handle_cleanup _ _ P C). intros H. now apply settled_some in H.
    + rewrite (handleFileRequest_unknown_action _ _ P C). discriminate.
Qed.

(** C8. Staging an existing path copies nothing and leaves the world as it
    is.  The answer is a success that carries the path unchanged exactly
    when the path exists, is a regular file and is readable; otherwise it
    is a failure whose message starts with [Failed to verify file]; a path
    that does not exist is reported as such.  Nothing is thrown. *)
Theorem stage_existing_path (request : Request) (p : string) (w : World) :
  is_action (action request) "prepareFile" = true ->
  truthy (fileUrl request) = false ->
  truthy (base64Data request) = false ->
  filePath request = Some p ->
  nonempty p = true ->
  let r := handleFileRequest url_pathname base64_decode this request w in
  snd r = w /\
  (forall n, verifiable w p = Some n ->
     fst r = Return (Some (Staged p (posix.basename p) n))) /\
  (verifiable w p = None ->
     exists msg, fst r = Return (Some (Failure ("Failed to verify file: " ++ msg)))) /\
  (fst (existsSync p w) = Return false ->
     fst r = Return (Some (Failure
       ("Failed to verify file: Error: File does not exist: " ++ p)))).
Proof.
  intros P U B F N. cbv zeta. rewrite (handle_prepare _ _ P), U, B, F.
  cbn [truthy value]. rewrite N.
  pose proof (verifyFile_spec p w) as V.
  repeat split.
  - destruct (verifiable w p); [rewrite V; reflexivity|].
    destruct V as [msg ->]. reflexivity.
  - intros n E. rewrite E in V. now rewrite V.
  - intros E. rewrite E in V. destruct V as [msg ->]. exists msg. reflexivity.
  - intros E. rewrite verifyFile_missing; [reflexivity|].
    pose proof (existsSync_world p w) as S.
    destruct (existsSync p w) as [o w']. cbn in E, S. now subst.
Qed.

(** C9. Cleaning up a path under the scratch root that does not exist is a
    success, and the world is left as it is: nothing is deleted. *)
Theorem cleanup_absent_is_noop (p : string) (w : World) :
  starts_with p (tempDir this) = true ->
  fst (existsSync p w) = Return false ->
  cleanupFile this (Some p) w =
    (Return (Cleaned "File cleaned up successfully"), w) /\
  forall request,
    is_action (action request) "cleanupFile" = true ->
    filePath request = Some p ->
    handleFileRequest url_pathname base64_decode this request w =
      (Return (Some (Cleaned "File cleaned up successfully")), w).
Proof.
  intros H E. pose proof (cleanupFile_absent p w H E) as C. split; [exact C|].
  intros request A F. rewrite handle_cleanup; [now rewrite F, C| |assumption].
  unfold is_action in *. destruct (action request) as [a|]; [|reflexivity].
  apply String.eqb_eq in A. now subst.
Qed.
End Handler.

(** ** Cleanup and the scratch root *)

(** C1. The containment test of [cleanupFile] compares text: the path
    [/tmp/chrome-mcp-uploads/../../etc/passwd] starts with the scratch root,
    resolves outside it, and is deleted with a success answer.  What the
    test does refuse, without touching anything, is a path that does not
    start with the scratch root. *)
Theorem cleanupFile_deletes_through_traversal :
  (let p := "/tmp/chrome-mcp-uploads/../../etc/passwd" in
   let w := Scenario.world_system in
   let r := cleanupFile Scenario.scratch (Some p) w in
   starts_with p (tempDir Scenario.scratch) = true /\
   resolves_inside w (tempDir Scenario.scratch) p = false /\
   lookup (entries w) ["etc"; "passwd"] = Some (File 0 true [Byte.x72]) /\
   fst r = Return (Cleaned "File cleaned up successfully") /\
   lookup (entries (snd r)) ["etc"; "passwd"] = None) /\
  (forall this p w,
     starts_with p (tempDir this) = false ->
     cleanupFile this (Some p) w =
     (Return (Failure "Can only cleanup files in temp directory"), w)).
Proof.
  split; [vm_compute; repeat split|]. apply cleanupFile_refuses.
Qed.

Section SweepTheorem.
Local Arguments resolve : simpl never.

(** The sweep never throws. *)
Lemma cleanupOldFiles_returns this w : fst (cleanupOldFiles this w) = Return tt.
Proof.
  unfold cleanupOldFiles, try_catch.
  match goal with |- context [match ?m w with _ => _ end] => destruct (m w) as [[[]|e] w'] end;
    reflexivity.
Qed.
End SweepTheorem.

(** ** Manifest paths *)

Section Manifest.
Import BrowserConfig.
Variable HOST_NAME : string.
Local Arguments String.append : simpl never.
Local Arguments win32.join : simpl never.
Local Arguments posix.join : simpl never.
Local Arguments win32.normalize : simpl never.
Local Arguments posix.normalize : simpl never.

Lemma drive_rooted_inv s :
  drive_rooted s = true ->
  exists c0 c2 r, s = String c0 (String ":" (String c2 r)).
Proof.
  destruct s as [|c0 [|c1 [|c2 r]]]; try discriminate. intros H. cbn in H.
  apply andb_true_iff in H as [H _]. apply andb_true_iff in H as [_ H].
  apply Ascii.eqb_eq in H. subst. eauto.
Qed.

Lemma win32_join_rooted s segs :
  drive_rooted s = true ->
  Forall (fun x => plain isPathSeparator x = true) segs -> segs <> [] ->
  win32.join (s :: segs) = win_dir s ++ String.concat "\" segs.
Proof.
  intros R. destruct (drive_rooted_inv s R) as (c0 & c2 & r & ->).
  now apply win32_join_drive.
Qed.

Lemma win_dir_rooted s :
  drive_rooted s = true ->
  exists c0 rest, isWindowsDeviceRoot c0 = true /\
                  win_dir s = String c0 (String ":" (String "\" rest)).
Proof.
  intros R. destruct (drive_rooted_inv s R) as (c0 & c2 & r & ->).
  destruct (rooted_inv _ _ _ _ R) as (H0 & _ & _).
  unfold win_dir. rewrite (win32_normalize_drive _ _ _ _ R).
  exists c0, (flat "\" (norm_segments false isPathSeparator r)). split; [assumption|reflexivity].
Qed.

Lemma posix_join_rooted x segs :
  posix.isAbsolute x = true ->
  Forall (fun s => plain isPosixPathSeparator s = true) segs -> segs <> [] ->
  posix.join (x :: segs) = posix_dir x ++ String.concat "/" segs.
Proof. apply posix_join_absolute. Qed.

Lemma posix_dir_rooted s :
  posix.isAbsolute s = true -> exists rest, posix_dir s = String "/" rest.
Proof.
  intros A. unfold posix_dir. rewrite posix_dir_absolute by assumption.
  eexists. reflexivity.
Qed.

Lemma no_sep_weaken s :
  no_sep isPathSeparator s = true -> no_sep isPosixPathSeparator s = true.
Proof.
  induction s as [|c s IH]; [reflexivity|]. cbn [no_sep]. intros H.
  apply andb_true_iff in H as [Hc Hs]. rewrite (IH Hs), andb_true_r.
  unfold isPathSeparator in Hc. apply negb_true_iff in Hc.
  apply orb_false_iff in Hc as [Hc _]. unfold isPosixPathSeparator. now rewrite Hc.
Qed.

Lemma char_plain isSep c s :
  no_sep isSep s = true -> has_char c s = true ->
  has_char c "." = false -> plain isSep s = true.
Proof.
  intros H D N. unfold plain. rewrite H.
  assert (E1 : String.eqb s "." = false).
  { destruct (String.eqb_spec s "."); [subst; congruence|reflexivity]. }
  assert (E2 : String.eqb s ".." = false).
  { destruct (String.eqb_spec s ".."); [|reflexivity]. subst. cbn in D, N.
    rewrite orb_false_r in N. rewrite N in D. discriminate D. }
  rewrite E1, E2. destruct s; [discriminate|reflexivity].
Qed.

Hypothesis host_clean : no_sep isPathSeparator HOST_NAME = true.

Lemma manifest_plain_win : plain isPathSeparator (manifest HOST_NAME) = true.
Proof.
  apply (char_plain _ "j"); [|now apply has_char_append_r|reflexivity].
  unfold manifest. now rewrite no_sep_append, host_clean.
Qed.

Lemma manifest_plain_posix : plain isPosixPathSeparator (manifest HOST_NAME) = true.
Proof.
  apply (char_plain _ "j"); [|now apply has_char_append_r|reflexivity].
  unfold manifest. now rewrite no_sep_append, (no_sep_weaken _ host_clean).
Qed.

Lemma drive_rooted_append s x : drive_rooted s = true -> drive_rooted (s ++ x) = true.
Proof. destruct s as [|c0 [|c1 [|c2 r]]]; try discriminate. intros H; exact H. Qed.

Lemma drive_rooted_absolute s : drive_rooted s = true -> win32.isAbsolute s = true.
Proof.
  destruct s as [|c0 [|c1 [|c2 r]]]; try discriminate. intros H.
  cbn [win32.isAbsolute]. unfold drive_rooted in H. rewrite H. apply orb_true_r.
Qed.

Lemma win_dir_is_rooted s : drive_rooted s = true -> drive_rooted (win_dir s) = true.
Proof.
  intros R. destruct (win_dir_rooted _ R) as (c0 & rest & H0 & D).
  rewrite D. cbn. now rewrite H0.
Qed.

Lemma appData_rooted env :
  is_win32 env = true -> well_rooted env = true -> drive_rooted (appData env) = true.
Proof.
  intros W R. unfold well_rooted in R. rewrite W in R.
  apply andb_true_iff in R as [R _]. apply andb_true_iff in R as [H A].
  destruct (truthy (APPDATA env)) eqn:T; [exact A|].
  unfold appData, or_else. unfold truthy in T.
  assert (E : win32.join [homedir env; "AppData"; "Roaming"] =
              win_dir (homedir env) ++ "AppData\Roaming").
  { apply win32_join_rooted; [assumption|repeat constructor|discriminate]. }
  assert (G : drive_rooted (win32.join [homedir env; "AppData"; "Roaming"]) = true).
  { rewrite E. apply drive_rooted_append. now apply win_dir_is_rooted. }
  destruct (APPDATA env) as [a|]; [|exact G]. now rewrite T.
Qed.

Lemma programFiles_rooted env :
  is_win32 env = true -> well_rooted env = true -> drive_rooted (programFiles env) = true.
Proof.
  intros W R. unfold well_rooted in R. rewrite W in R.
  apply andb_true_iff in R as [_ A].
  destruct (truthy (ProgramFiles env)) eqn:T; [exact A|].
  unfold programFiles, or_else. unfold truthy in T.
  destruct (ProgramFiles env) as [a|]; [now rewrite T|reflexivity].
Qed.

Ltac win_case R :=
  rewrite (win32_join_rooted _ _ R)
    by (repeat constructor; try reflexivity; try apply manifest_plain_win; discriminate);
  let D := fresh "DR" in
  pose proof (win_dir_is_rooted _ R) as D;
  split; [apply nonempty_append_l; now destruct (win_dir _)|];
  split; [apply drive_rooted_absolute; now apply drive_rooted_append|].

Ltac posix_case A :=
  rewrite (posix_join_rooted _ _ A)
    by (repeat constructor; try reflexivity; try apply manifest_plain_posix; discriminate);
  let rest := fresh "rest" in
  let DR := fresh "DR" in
  destruct (posix_dir_rooted _ A) as (rest & DR);
  split; [rewrite DR; reflexivity|];
  split; [rewrite DR; reflexivity|]; clear DR.

(** C5. For a supported variant and platform, with a home directory and
    environment variables that are absolute paths, the manifest path is
    not empty, is absolute, starts with the root of the platform table and
    ends with the hosts directory ([NativeMessagingHosts], or
    [native-messaging-hosts] for the Linux system tier) and
    [<host>.json], both after a separator of the platform. *)
Theorem manifest_path_shape (env : Env) (variant : BrowserType) (tier : Tier) :
  supported_variant variant = true ->
  supported_platform env = true ->
  well_rooted env = true ->
  let p := manifest_path HOST_NAME env variant tier in
  nonempty p = true /\
  is_absolute env p = true /\
  exists mid,
    nonempty mid = true /\
    p = table_root env tier ++ mid ++ path_sep env ++ hosts_dir env tier
          ++ path_sep env ++ HOST_NAME ++ ".json".
Proof.
  intros V P R. cbv zeta.
  assert (V' : variant = CHROME \/ variant = CHROMIUM).
  { unfold supported_variant in V. cbn in V. rewrite orb_false_r in V.
    apply orb_true_iff in V as [V|V]; apply String.eqb_eq in V; auto. }
  unfold manifest_path, getUserManifestPathForBrowser, getSystemManifestPathForBrowser,
    table_root, hosts_dir, path_sep, is_absolute. cbv zeta.
  change (or_else (APPDATA env) (win32.join [homedir env; "AppData"; "Roaming"]))
    with (appData env).
  change (or_else (ProgramFiles env) "C:\Program Files") with (programFiles env).
  change (String.eqb (platform env) "win32") with (is_win32 env).
  change (String.eqb (platform env) "darwin") with (is_darwin env).
  destruct (is_win32 env) eqn:W.
  - pose proof (appData_rooted env W R) as RA.
    pose proof (programFiles_rooted env W R) as RP.
    cbn [orb].
    destruct tier; destruct V' as [->| ->]; unfold CHROME, CHROMIUM;
        cbn [String.eqb Ascii.eqb Bool.eqb].
    + win_case RA. exists "Google\Chrome". split; reflexivity.
    + win_case RA. exists "Chromium". split; reflexivity.
    + win_case RP. exists "Google\Chrome". split; reflexivity.
    + win_case RP. exists "Chromium". split; reflexivity.
  - assert (A : posix.isAbsolute (homedir env) = true).
    { unfold well_rooted in R. now rewrite W in R. }
    cbn [orb].
    destruct (is_darwin env) eqn:D.
    + destruct tier; destruct V' as [->| ->]; unfold CHROME, CHROMIUM;
        cbn [String.eqb Ascii.eqb Bool.eqb].
      * posix_case A. exists "Google/Chrome". split; [reflexivity|].
        rewrite !append_assoc. reflexivity.
      * posix_case A. exists "Chromium". split; [reflexivity|].
        rewrite !append_assoc. reflexivity.
      * posix_case (eq_refl : posix.isAbsolute "/Library" = true).
        exists "Google/Chrome". split; reflexivity.
      * posix_case (eq_refl : posix.isAbsolute "/Library" = true).
        exists "Application Support/Chromium". split; reflexivity.
    + destruct tier; destruct V' as [->| ->]; unfold CHROME, CHROMIUM;
        cbn [String.eqb Ascii.eqb Bool.eqb].
      * posix_case A. exists "google-chrome". split; [reflexivity|].
        rewrite !append_assoc. reflexivity.
      * posix_case A. exists "chromium". split; [reflexivity|].
        rewrite !append_assoc. reflexivity.
      * posix_case (eq_refl : posix.isAbsolute "/etc" = true).
        exists "opt/chrome". split; reflexivity.
      * posix_case (eq_refl : posix.isAbsolute "/etc" = true).
        exists "chromium". split; reflexivity.
Qed.

End Manifest.

(** ** The variant that is not enumerated *)

Section Fallback.
Import BrowserConfig.
Variable HOST_NAME : string.
Hypothesis host_clean : no_sep isPathSeparator HOST_NAME = true.
Local Arguments String.append : simpl never.
Local Arguments win32.join : simpl never.
Local Arguments posix.join : simpl never.
Local Arguments win32.normalize : simpl never.
Local Arguments posix.normalize : simpl never.

(** What the last branch of each [switch] returns, whatever the variant:
    the path of the Chrome branch. *)
Lemma default_branch_is_chrome (env : Env) (variant : BrowserType) :
  variant <> CHROME -> variant <> CHROMIUM ->
  getUserManifestPathForBrowser HOST_NAME env variant =
    getUserManifestPathForBrowser HOST_NAME env CHROME /\
  getSystemManifestPathForBrowser HOST_NAME env variant =
    getSystemManifestPathForBrowser HOST_NAME env CHROME.
Proof.
  intros H1 H2. apply String.eqb_neq in H1, H2.
  unfold getUserManifestPathForBrowser, getSystemManifestPathForBrowser.
  cbv zeta. rewrite H1, H2.
  change (String.eqb CHROME CHROME) with true. cbv iota.
  split; reflexivity.
Qed.

(** The manifest of Chrome, written out: the directory of the platform
    and the tier, Chrome's vendor directory, the hosts directory and the
    manifest. *)
Lemma chrome_manifest_paths (env : Env) :
  well_rooted env = true ->
  let user := getUserManifestPathForBrowser HOST_NAME env CHROME in
  let system := getSystemManifestPathForBrowser HOST_NAME env CHROME in
  if is_win32 env then
    user = win_dir (appData env)
             ++ "Google\Chrome\NativeMessagingHosts\" ++ HOST_NAME ++ ".json" /\
    system = win_dir (programFiles env)
               ++ "Google\Chrome\NativeMessagingHosts\" ++ HOST_NAME ++ ".json"
  else if is_darwin env then
    user = posix_dir (homedir env)
             ++ "Library/Application Support/Google/Chrome/NativeMessagingHosts/"
             ++ HOST_NAME ++ ".json" /\
    system = "/Library/Google/Chrome/NativeMessagingHosts/" ++ HOST_NAME ++ ".json"
  else
    user = posix_dir (homedir env)
             ++ ".config/google-chrome/NativeMessagingHosts/" ++ HOST_NAME ++ ".json" /\
    system = "/etc/opt/chrome/native-messaging-hosts/" ++ HOST_NAME ++ ".json".
Proof.
  intros R. cbv zeta.
  pose proof (manifest_plain_win HOST_NAME host_clean) as MW.
  pose proof (manifest_plain_posix HOST_NAME host_clean) as MP.
  unfold getUserManifestPathForBrowser, getSystemManifestPathForBrowser. cbv zeta.
  change (or_else (APPDATA env) (win32.join [homedir env; "AppData"; "Roaming"]))
    with (appData env).
  change (or_else (ProgramFiles env) "C:\Program Files") with (programFiles env).
  change (String.eqb (platform env) "win32") with (is_win32 env).
  change (String.eqb (platform env) "darwin") with (is_darwin env).
  change (String.eqb CHROME CHROME) with true. cbv iota.
  destruct (is_win32 env) eqn:W.
  - pose proof (appData_rooted env W R) as RA.
    pose proof (programFiles_rooted env W R) as RP.
    rewrite (win32_join_rooted _ _ RA), (win32_join_rooted _ _ RP)
      by (repeat constructor; try reflexivity; try exact MW; discriminate).
    split; reflexivity.
  - assert (A : posix.isAbsolute (homedir env) = true).
    { unfold well_rooted in R. now rewrite W in R. }
    destruct (is_darwin env).
    + rewrite (posix_join_rooted _ _ A),
        (posix_join_rooted _ _ (eq_refl : posix.isAbsolute "/Library" = true))
        by (repeat constructor; try reflexivity; try exact MP; discriminate).
      split; reflexivity.
    + rewrite (posix_join_rooted _ _ A),
        (posix_join_rooted _ _ (eq_refl : posix.isAbsolute "/etc" = true))
        by (repeat constructor; try reflexivity; try exact MP; discriminate).
      split; reflexivity.
Qed.

(** C6. On every platform and for both tiers, a variant that is neither
    [chrome] nor [chromium] gets the path of Chrome, whatever the
    environment.  With a home directory and environment variables that
    are absolute paths, this is the manifest in Chrome's own directory:
    [Google\Chrome] under [%APPDATA%] and [%ProgramFiles%] on Windows,
    [Google/Chrome] under the two [Library] directories on macOS,
    [google-chrome] under [~/.config] and [opt/chrome] under [/etc]
    elsewhere. *)
Theorem unknown_variant_falls_back (env : Env) (variant : BrowserType) :
  variant <> CHROME -> variant <> CHROMIUM ->
  let user := getUserManifestPathForBrowser HOST_NAME env variant in
  let system := getSystemManifestPathForBrowser HOST_NAME env variant in
  (user = getUserManifestPathForBrowser HOST_NAME env CHROME /\
   system = getSystemManifestPathForBrowser HOST_NAME env CHROME) /\
  (well_rooted env = true ->
   nonempty user = true /\ nonempty system = true /\
   is_absolute env user = true /\ is_absolute env system = true /\
   if is_win32 env then
     user = win_dir (appData env)
              ++ "Google\Chrome\NativeMessagingHosts\" ++ HOST_NAME ++ ".json" /\
     system = win_dir (programFiles env)
                ++ "Google\Chrome\NativeMessagingHosts\" ++ HOST_NAME ++ ".json"
   else if is_darwin env then
     user = posix_dir (homedir env)
              ++ "Library/Application Support/Google/Chrome/NativeMessagingHosts/"
              ++ HOST_NAME ++ ".json" /\
     system = "/Library/Google/Chrome/NativeMessagingHosts/" ++ HOST_NAME ++ ".json"
   else
     user = posix_dir (homedir env)
              ++ ".config/google-chrome/NativeMessagingHosts/" ++ HOST_NAME ++ ".json" /\
     system = "/etc/opt/chrome/native-messaging-hosts/" ++ HOST_NAME ++ ".json").
Proof.
  intros H1 H2. cbv zeta.
  destruct (default_branch_is_chrome env variant H1 H2) as [-> ->].
  split; [split; reflexivity|]. intros R.
  pose proof (chrome_manifest_paths env R) as P. cbv zeta in P.
  split; [|split; [|split; [|split; [|exact P]]]].
  - destruct (is_win32 env); [|destruct (is_darwin env)]; destruct P as [-> _];
      apply nonempty_append_r; apply nonempty_append_l; reflexivity.
  - destruct (is_win32 env); [|destruct (is_darwin env)]; destruct P as [_ ->];
      try reflexivity; apply nonempty_append_r; apply nonempty_append_l; reflexivity.
  - unfold is_absolute. destruct (is_win32 env) eqn:W.
    + destruct P as [-> _]. apply drive_rooted_absolute, drive_rooted_append.
      apply win_dir_is_rooted. now apply appData_rooted.
    + assert (A : posix.isAbsolute (homedir env) = true).
      { unfold well_rooted in R. now rewrite W in R. }
      destruct (posix_dir_rooted _ A) as (rest & DR).
      destruct (is_darwin env); destruct P as [-> _]; rewrite DR; reflexivity.
  - unfold is_absolute. destruct (is_win32 env) eqn:W.
    + destruct P as [_ ->]. apply drive_rooted_absolute, drive_rooted_append.
      apply win_dir_is_rooted. now apply programFiles_rooted.
    + destruct (is_darwin env); destruct P as [_ ->]; reflexivity.
Qed.

End Fallback.

(** ** The registration tier *)

Section Register.
Import BrowserConfig Cli.

Lemma hasElevatedPermissions_spec p :
  hasElevatedPermissions p = true <-> elevated p.
Proof.
  unfold hasElevatedPermissions, isRoot, isAdmin, elevated.
  destruct (getuid p) as [u|]; destruct (String.eqb_spec (proc_platform p) "win32") as [E|E];
    destruct (is_admin p) as [[|]|]; try destruct (Z.eqb_spec u 0); subst; cbn;
    intuition (try congruence; try discriminate).
Qed.

(** C7. The tier is the system tier exactly when [--system] is given or
    the process is elevated (user id 0, or administrator on Windows), the
    user tier otherwise; an invocation that gets as far as registering
    does so at that tier, and the only one that does not has exited on an
    invalid browser name. *)
Theorem tier_resolution (options : Options) (p : Process) :
  (resolveTier options p = SystemTier <-> system options = true \/ elevated p) /\
  (resolveTier options p = UserTier <-> ~ (system options = true \/ elevated p)) /\
  (tier (register options p) = Some (resolveTier options p) \/
   (targetBrowsers options p = inl tt /\
    tier (register options p) = None /\ exit_code (register options p) = 1)).
Proof.
  pose proof (hasElevatedPermissions_spec p) as E.
  unfold register, resolveTier.
  repeat split.
  - destruct (system options); [auto|]. cbn [orb].
    destruct (hasElevatedPermissions p); [intros _; right; now apply E|discriminate].
  - intros [->|H]; [reflexivity|]. apply E in H. rewrite H. now rewrite orb_true_r.
  - destruct (system options); [discriminate|]. cbn [orb].
    destruct (hasElevatedPermissions p); [discriminate|].
    intros _ [H|H]; [discriminate|]. apply E in H. discriminate.
  - intros H. destruct (system options); [exfalso; auto|]. cbn [orb].
    destruct (hasElevatedPermissions p); [|reflexivity].
    exfalso. apply H. right. now apply E.
  - destruct (targetBrowsers options p) as [[]|t]; [right; auto|left].
    destruct (system options || hasElevatedPermissions p); reflexivity.
Qed.
End Register.


(** ** What a request leaves behind *)

Section HandlerEffects.
Variable url_pathname : string -> option string.
Variable base64_decode : string -> list Byte.byte.
Variable this : FileHandler.t.

Local Arguments resolve : simpl never.
Local Arguments String.append : simpl never.
Local Arguments posix.join : simpl never.
Local Arguments posix.basename : simpl never.

Lemma writeFileSync_throws p buf w e w' :
  writeFileSync p buf w = (Throw e, w') -> w' = w.
Proof.
  unfold writeFileSync.
  destruct (resolve w p) as [k [m r d|m|]|k|c]; intros H; inversion H; reflexivity.
Qed.

Lemma generateFileName_entries url w :
  entries (snd (generateFileName url_pathname url w)) = entries w /\
  cwd (snd (generateFileName url_pathname url w)) = cwd w /\
  now (snd (generateFileName url_pathname url w)) = now w /\
  console (snd (generateFileName url_pathname url w)) = console w.
Proof.
  rewrite generateFileName_run.
  destruct (usable_basename url_pathname url); cbn; auto.
Qed.

Lemma generateFileName_total url w :
  exists n, fst (generateFileName url_pathname url w) = Return n.
Proof.
  rewrite generateFileName_run.
  destruct (usable_basename url_pathname url); cbn; eauto.
Qed.

(** The name a staging uses: the caller's when it is usable, a synthesized one otherwise. *)
Lemma downloadFile_throws url name w e w' :
  downloadFile url_pathname this url name w = (Throw e, w') ->
  entries w' = entries w /\ cwd w' = cwd w /\ console w' = console w.
Proof.
  unfold downloadFile, try_catch, bind, fetch, buffer, throw, ret.
  destruct (net w url) as [resp|e0]; [|intros H; inversion H; auto].
  destruct (ok resp); cbn [negb]; [|intros H; inversion H; auto].
  destruct (truthy name).
  - destruct (body resp) as [buf|e0]; [|intros H; inversion H; auto].
    destruct (writeFileSync _ buf w) as [[[]|e0] w1] eqn:Wr; intros H; inversion H; subst.
    apply writeFileSync_throws in Wr. subst. auto.
  - destruct (generateFileName_total (Some url) w) as [n G].
    destruct (generateFileName_entries (Some url) w) as (G1 & G2 & G3 & G4).
    destruct (generateFileName url_pathname (Some url) w) as [o wg]. cbn [fst snd] in *. subst o.
    destruct (body resp) as [buf|e0]; [|intros H; inversion H; subst; auto].
    destruct (writeFileSync _ buf wg) as [[[]|e0] w1] eqn:Wr; intros H; inversion H; subst.
    apply writeFileSync_throws in Wr. subst. auto.
Qed.

Lemma saveBase64File_throws data name w e w' :
  saveBase64File base64_decode this data name w = (Throw e, w') -> w' = w.
Proof.
  unfold saveBase64File, try_catch, bind, Date_now, gets, throw, ret.
  destruct (truthy name).
  - destruct (writeFileSync _ _ w) as [[[]|e0] w1] eqn:Wr; intros H; inversion H; subst.
    now apply writeFileSync_throws in Wr.
  - destruct (writeFileSync _ _ w) as [[[]|e0] w1] eqn:Wr; intros H; inversion H; subst.
    now apply writeFileSync_throws in Wr.
Qed.

Lemma verifyFile_world p w : snd (verifyFile p w) = w.
Proof.
  pose proof (verifyFile_spec p w) as V.
  destruct (verifiable w p); [now rewrite V|]. destruct V as [msg ->]. reflexivity.
Qed.

Lemma unlinkSync_throws p w e w' : unlinkSync p w = (Throw e, w') -> w' = w.
Proof.
  unfold unlinkSync.
  destruct (resolve w p) as [k [m r d|m|]|k|c]; intros H; inversion H; reflexivity.
Qed.


Lemma downloadFile_success url name w r w' :
  downloadFile url_pathname this url name w = (Return r, w') -> success r = true.
Proof.
  unfold downloadFile, try_catch, bind, fetch, buffer, throw, ret.
  destruct (net w url) as [resp|e0]; [|discriminate].
  destruct (ok resp); cbn [negb]; [|discriminate].
  destruct (truthy name).
  - destruct (body resp) as [buf|e0]; [|discriminate].
    destruct (writeFileSync _ buf w) as [[[]|e0] w1]; intros H; inversion H; reflexivity.
  - destruct (generateFileName url_pathname (Some url) w) as [[n|e0] wg]; [|discriminate].
    destruct (body resp) as [buf|e0]; [|discriminate].
    destruct (writeFileSync _ buf wg) as [[[]|e0] w1]; intros H; inversion H; reflexivity.
Qed.

Lemma saveBase64File_success data name w r w' :
  saveBase64File base64_decode this data name w = (Return r, w') -> success r = true.
Proof.
  unfold saveBase64File, try_catch, bind, Date_now, gets, throw, ret.
  destruct (truthy name);
    destruct (writeFileSync _ _ w) as [[[]|e0] w1]; intros H; inversion H; reflexivity.
Qed.

Lemma verifyFile_success p w r w' :
  verifyFile p w = (Return r, w') -> success r = true.
Proof.
  pose proof (verifyFile_spec p w) as V.
  destruct (verifiable w p); [rewrite V; intros H; inversion H; reflexivity|].
  destruct V as [msg ->]. discriminate.
Qed.

(** What [cleanupFile] does, by what the path resolves to. *)
Lemma cleanupFile_run p w :
  starts_with p (tempDir this) = true ->
  cleanupFile this (Some p) w =
  match resolve w p with
  | Found k (File _ _ _) =>
      (Return (Cleaned "File cleaned up successfully"),
       set_entries (remove (entries w) k) w)
  | Found _ (Dir _) =>
      (Return (Failure ("Failed to cleanup file: " ++ toString (syserr "EISDIR" "unlink" p))), w)
  | _ => (Return (Cleaned "File cleaned up successfully"), w)
  end.
Proof.
  intros S. unfold cleanupFile, try_catch, bind, existsSync, unlinkSync, ret. rewrite S.
  cbn [negb].
  destruct (resolve w p) as [k [m r d|m|]|k|c] eqn:E; cbn; rewrite ?E; reflexivity.
Qed.


End HandlerEffects.

Section HandlerThrows.
Variable url_pathname : string -> option string.
Variable base64_decode : string -> list Byte.byte.
Variable this : FileHandler.t.

Local Arguments resolve : simpl never.
Local Arguments String.append : simpl never.
Local Arguments posix.join : simpl never.
Local Arguments posix.basename : simpl never.

(** X1. A request that is not answered with a success leaves the file
    table as it was: a failed download, a failed write, a path that cannot
    be verified, a refused or failed cleanup and an unknown action change
    no file, and neither does the request that is answered with
    [undefined].  A request object never makes the handler throw.  The
    handler throws exactly when its argument is [undefined] or [null]: the
    destructuring of line 25, before the [try], throws a [TypeError], and
    the world is as it was. *)
Theorem failed_request_changes_nothing (request : Argument) (w : World) :
  let r := handleFileRequest url_pathname base64_decode this request w in
  match fst r with
  | Return (Some reply) =>
      (exists o, request = Object o) /\
      (success reply = false ->
       entries (snd r) = entries w /\ cwd (snd r) = cwd w /\ console (snd r) = console w)
  | Return None => (exists o, request = Object o) /\ snd r = w
  | Throw e =>
      (request = Undefined \/ request = Null) /\ ename e = "TypeError" /\ snd r = w
  end.
Proof.
  cbv zeta. destruct request as [| |request]; [cbn; auto..|].
  assert (O : exists o, Object request = Object o) by (now exists request).
  destruct (is_action (action request) "prepareFile") eqn:P.
  - rewrite (handle_prepare _ _ _ _ _ P).
    destruct (truthy (fileUrl request)).
    { destruct (downloadFile _ _ _ _ w) as [[r|e] w'] eqn:D; cbn; (split; [exact O|]).
      - intros F. apply downloadFile_success in D. congruence.
      - intros _. now apply downloadFile_throws in D. }
    destruct (truthy (base64Data request)).
    { destruct (saveBase64File _ _ _ _ w) as [[r|e] w'] eqn:D; cbn; (split; [exact O|]).
      - intros F. apply saveBase64File_success in D. congruence.
      - intros _. apply saveBase64File_throws in D. now subst. }
    destruct (truthy (filePath request)); [|cbn; auto].
    pose proof (verifyFile_world (value (filePath request)) w) as V.
    destruct (verifyFile _ w) as [[r|e] w'] eqn:D; cbn in *; subst; auto.
  - destruct (is_action (action request) "cleanupFile") eqn:C.
    + rewrite (handle_cleanup _ _ _ _ _ P C).
      destruct (filePath request) as [p|]; [|cbn; auto].
      destruct (starts_with p (tempDir this)) eqn:S.
      * rewrite (cleanupFile_run this p w S).
        destruct (resolve w p) as [k [m r d|m|]|k|c]; cbn; (split; [exact O|]); auto;
          discriminate.
      * rewrite (cleanupFile_refuses this p w S). cbn. auto.
    + rewrite (handleFileRequest_unknown_action _ _ _ _ _ P C). cbn. auto.
Qed.

End HandlerThrows.


(** ** Resolution after a write *)

Lemma resolve_ext w1 w2 p :
  entries w1 = entries w2 -> cwd w1 = cwd w2 -> resolve w1 p = resolve w2 p.
Proof. intros E C. unfold resolve. now rewrite E, C. Qed.

Lemma walk_after_create (t : list (Key * Node)) k n cs : forall cur,
  walk t cur cs = Missing k ->
  walk (t ++ [(k, n)])%list cur cs = Found k n.
Proof.
  induction cs as [|c rest IH]; intros cur H.
  - cbn [walk] in H. destruct (lookup t cur); discriminate.
  - destruct (walk_missing _ _ _ _ H) as [Lk Nk].
    assert (O : forall q x, lookup t q = Some x -> lookup (t ++ [(k, n)])%list q = Some x).
    { intros q x Hq. rewrite lookup_snoc_other; [assumption|]. congruence. }
    cbn [walk] in H |- *.
    destruct (lookup t cur) as [[m r d|m|]|] eqn:L; try discriminate.
    rewrite (O _ _ L).
    destruct (String.eqb c "" || String.eqb c "."); [now apply IH|].
    destruct (String.eqb c ".."); [now apply IH|].
    destruct (lookup t (cur ++ [c])%list) as [x|] eqn:L2.
    + rewrite (O _ _ L2). now apply IH.
    + destruct rest; [|discriminate]. injection H as <-.
      rewrite (lookup_snoc_same _ _ _ Nk L2). cbn [walk].
      now rewrite (lookup_snoc_same _ _ _ Nk L2).
Qed.

Lemma walk_after_replace (t : list (Key * Node)) k m r d m' d' cs : forall cur,
  walk t cur cs = Found k (File m r d) ->
  walk (replace t k (File m' r d')) cur cs = Found k (File m' r d').
Proof.
  induction cs as [|c rest IH]; intros cur H.
  - pose proof (walk_found _ _ _ _ _ H) as Lk.
    cbn [walk] in H |- *. destruct (lookup t cur) eqn:L; [|discriminate].
    injection H as -> ->.
    assert (K : k <> []) by (intros ->; discriminate Lk).
    now rewrite (lookup_replace_same _ _ _ _ K Lk).
  - pose proof (walk_found _ _ _ _ _ H) as Lk.
    assert (K : k <> []) by (intros ->; discriminate Lk).
    assert (O : forall q x, lookup t q = Some (Dir x) ->
                lookup (replace t k (File m' r d')) q = Some (Dir x)).
    { intros q x Hq. rewrite lookup_replace_other; [assumption|]. congruence. }
    cbn [walk] in H |- *.
    destruct (lookup t cur) as [[m0 r0 d0|m0|]|] eqn:L; try discriminate.
    rewrite (O _ _ L).
    destruct (String.eqb c "" || String.eqb c "."); [now apply IH|].
    destruct (String.eqb c ".."); [now apply IH|].
    destruct (lookup t (cur ++ [c])%list) as [x|] eqn:L2.
    + destruct (key_dec (cur ++ [c])%list k) as [E|E].
      * rewrite E. rewrite (lookup_replace_same _ _ _ _ K Lk). rewrite E in H. now apply IH.
      * rewrite lookup_replace_other, L2 by assumption. now apply IH.
    + destruct rest; discriminate.
Qed.

Lemma walk_dirs_preserved (t t' : list (Key * Node)) :
  (forall q m, lookup t q = Some (Dir m) -> lookup t' q = Some (Dir m)) ->
  forall cs cur d m,
  walk t cur cs = Found d (Dir m) -> walk t' cur cs = Found d (Dir m).
Proof.
  intros O. induction cs as [|c rest IH]; intros cur d m H.
  - cbn [walk] in H |- *. destruct (lookup t cur) as [x|] eqn:L; [|discriminate].
    injection H as -> ->. now rewrite (O _ _ L).
  - cbn [walk] in H |- *.
    destruct (lookup t cur) as [[m0 r0 d0|m0|]|] eqn:L; try discriminate.
    rewrite (O _ _ L).
    destruct (String.eqb c "" || String.eqb c "."); [now apply IH|].
    destruct (String.eqb c ".."); [now apply IH|].
    destruct (lookup t (cur ++ [c])%list) as [x|] eqn:L2.
    + pose proof (walk_start_dir _ _ _ _ _ H) as S. rewrite L2 in S.
      destruct x as [| m1 |]; try discriminate S.
      rewrite (O _ _ L2). now apply IH.
    + destruct rest; discriminate.
Qed.

(** After a successful write the path resolves to the file written; a
    file that was not there before is readable; nothing else changes. *)
Lemma writeFileSync_resolve p buf w w' :
  writeFileSync p buf w = (Return tt, w') ->
  exists k r,
    resolve w' p = Found k (File (now w) r buf) /\
    (resolve w p = Missing k ->
       r = true /\ entries w' = (entries w ++ [(k, File (now w) true buf)])%list) /\
    ((exists x, resolve w p = Found k x) \/ resolve w p = Missing k) /\
    is_dir (lookup (entries w) k) = false /\
    (forall k', k' <> k -> lookup (entries w') k' = lookup (entries w) k') /\
    cwd w' = cwd w /\ now w' = now w /\ console w' = console w.
Proof.
  unfold writeFileSync.
  destruct (resolve w p) as [k [m r d|m|]|k|c] eqn:R; try discriminate.
  - intros H. injection H as <-. exists k, r.
    pose proof (resolve_found _ _ _ _ R) as L.
    split; [|split; [discriminate|split; [left; eauto|]]].
    + unfold resolve in R |- *. cbn [entries cwd set_entries].
      destruct (negb (nonempty p)); [discriminate|].
      eapply walk_after_replace; eassumption.
    + split; [now rewrite L|]. split; [|auto].
      intros k' Hk. cbn. now apply lookup_replace_other.
  - intros H. injection H as <-. exists k, true.
    destruct (resolve_missing _ _ _ R) as [L K].
    split; [|split; [auto|split; [now right|]]].
    + unfold resolve in R |- *. cbn [entries cwd set_entries].
      destruct (negb (nonempty p)); [discriminate|].
      now apply walk_after_create.
    + split; [now rewrite L|]. split; [|auto].
      intros k' Hk. cbn. now apply lookup_snoc_other.
Qed.

(** Writing a file leaves every directory where it resolved. *)
Lemma writeFileSync_keeps_dirs p buf w w' q d m :
  writeFileSync p buf w = (Return tt, w') ->
  resolve w q = Found d (Dir m) -> resolve w' q = Found d (Dir m).
Proof.
  intros Wr. destruct (writeFileSync_resolve _ _ _ _ Wr) as (k & r & _ & _ & _ & D & O & C & _).
  unfold resolve. rewrite C. destruct (negb (nonempty q)); [discriminate|].
  apply walk_dirs_preserved. intros x mx L. rewrite O; [assumption|].
  intros E. rewrite E in L. rewrite L in D. discriminate.
Qed.

Lemma remove_fresh (t : list (Key * Node)) k :
  k <> [] -> lookup t k = None -> remove t k = t.
Proof.
  intros K. unfold lookup, remove. destruct k as [|c k]; [congruence|].
  set (q := c :: k). clearbody q.
  induction t as [|[a y] t IH]; [reflexivity|]. cbn [find filter fst snd].
  destruct (key_dec a q); [discriminate|]. intros H. now rewrite IH.
Qed.

Lemma remove_snoc_fresh (t : list (Key * Node)) k n :
  k <> [] -> lookup t k = None -> remove (t ++ [(k, n)])%list k = t.
Proof.
  intros K L. unfold remove. rewrite filter_app. cbn [filter fst].
  destruct (key_dec k k); [|congruence]. rewrite app_nil_r.
  now apply remove_fresh.
Qed.

Lemma prefix_append (a b : string) : String.prefix a (a ++ b) = true.
Proof.
  induction a as [|c a IH]; [now destruct b|]. cbn.
  destruct (ascii_dec c c); [exact IH|congruence].
Qed.

Lemma basename_child T n :
  plain isPosixPathSeparator n = true -> posix.basename (T ++ "/" ++ n) = n.
Proof.
  intros P. unfold posix.basename.
  change (T ++ "/" ++ n) with (T ++ String "/"%char n).
  rewrite split_app_sep by reflexivity.
  rewrite (split_no_sep isPosixPathSeparator n) by now apply plain_no_sep.
  rewrite filter_app. cbn [filter]. rewrite (plain_nonempty _ _ P).
  apply last_last.
Qed.

(** ** What a staging wrote *)

Section Staging.
Variable url_pathname : string -> option string.
Variable base64_decode : string -> list Byte.byte.
Variable this : FileHandler.t.

Local Arguments resolve : simpl never.
Local Arguments String.append : simpl never.
Local Arguments posix.join : simpl never.
Local Arguments posix.basename : simpl never.

Lemma downloadFile_staged url name w p n sz w' :
  downloadFile url_pathname this url name w = (Return (Staged p n sz), w') ->
  exists resp buf wg,
    net w url = Return resp /\ ok resp = true /\ body resp = Return buf /\
    (if truthy name then n = value name /\ wg = w
     else generateFileName url_pathname (Some url) w = (Return n, wg)) /\
    p = posix.join [tempDir this; n] /\ sz = List.length buf /\
    writeFileSync p buf wg = (Return tt, w').
Proof.
  unfold downloadFile, try_catch, bind, fetch, buffer, throw, ret.
  destruct (net w url) as [resp|e0]; [|discriminate].
  destruct (ok resp) eqn:O; cbn [negb]; [|discriminate].
  destruct (truthy name).
  - destruct (body resp) as [buf|e0] eqn:B; [|discriminate].
    destruct (writeFileSync _ buf w) as [[[]|e0] w1] eqn:Wr; intros H; inversion H; subst.
    exists resp, buf, w. auto 10.
  - destruct (generateFileName url_pathname (Some url) w) as [[g|e0] wg] eqn:G; [|discriminate].
    destruct (body resp) as [buf|e0] eqn:B; [|discriminate].
    destruct (writeFileSync _ buf wg) as [[[]|e0] w1] eqn:Wr; intros H; inversion H; subst.
    exists resp, buf, wg. auto 10.
Qed.

Lemma saveBase64File_staged data name w p n sz w' :
  saveBase64File base64_decode this data name w = (Return (Staged p n sz), w') ->
  n = (if truthy name then value name else "upload-" ++ decimal (now w) ++ ".bin") /\
  p = posix.join [tempDir this; n] /\
  sz = List.length (base64_decode (strip_data_url_prefix data)) /\
  writeFileSync p (base64_decode (strip_data_url_prefix data)) w = (Return tt, w').
Proof.
  unfold saveBase64File, try_catch, bind, Date_now, gets, throw, ret.
  destruct (truthy name);
    destruct (writeFileSync _ _ w) as [[[]|e0] w1] eqn:Wr; intros H; inversion H; subst; auto.
Qed.

End Staging.

(** ** Decimal numerals *)

Lemma uint_no_sep u : no_sep isPosixPathSeparator (NilEmpty.string_of_uint u) = true.
Proof. induction u; cbn; auto. Qed.

Lemma decimal_no_sep z : no_sep isPosixPathSeparator (decimal z) = true.
Proof.
  unfold decimal, NilZero.string_of_int, NilZero.string_of_uint.
  destruct (Z.to_int z) as [u|u]; destruct u; cbn; auto using uint_no_sep.
Qed.

Lemma decimal_inj a b : decimal a = decimal b -> a = b.
Proof.
  unfold decimal. intros H.
  assert (N : forall z, Z.to_int z <> Decimal.Pos Decimal.Nil /\ Z.to_int z <> Decimal.Neg Decimal.Nil).
  { intros [|p|p]; cbn; split; try discriminate; intros E; injection E;
      apply Unsigned.to_uint_nonnil. }
  apply (f_equal NilZero.int_of_string) in H.
  rewrite !NilZero.isi in H by apply N.
  injection H as H. now apply DecimalZ.to_int_inj.
Qed.

Lemma dated_name_plain z : plain isPosixPathSeparator ("upload-" ++ decimal z ++ ".bin") = true.
Proof.
  apply dash_plain.
  - rewrite !no_sep_append, decimal_no_sep. reflexivity.
  - now apply has_char_append_l.
Qed.

Section StagingTheorems.
Variable url_pathname : string -> option string.
Variable base64_decode : string -> list Byte.byte.

Local Arguments resolve : simpl never.
Local Arguments String.append : simpl never.
Local Arguments posix.join : simpl never.
Local Arguments posix.basename : simpl never.

Lemma cleanupFile_not_staged this fp w p n sz w' :
  cleanupFile this fp w <> (Return (Staged p n sz), w').
Proof.
  destruct fp as [q|]; [|discriminate].
  destruct (starts_with q (tempDir this)) eqn:S.
  - rewrite (cleanupFile_run this q w S).
    destruct (resolve w q) as [k [m r d|m|]|k|c]; discriminate.
  - rewrite (cleanupFile_refuses this q w S). discriminate.
Qed.

(** A staged reply comes from one of the three sources of [prepareFile]. *)
Lemma handle_staged this (request : Request) w p n sz w' :
  handleFileRequest url_pathname base64_decode this request w
    = (Return (Some (Staged p n sz)), w') ->
  if truthy (fileUrl request) then
    downloadFile url_pathname this (value (fileUrl request)) (fileName request) w
      = (Return (Staged p n sz), w')
  else if truthy (base64Data request) then
    saveBase64File base64_decode this (value (base64Data request)) (fileName request) w
      = (Return (Staged p n sz), w')
  else verifyFile (value (filePath request)) w = (Return (Staged p n sz), w').
Proof.
  destruct (is_action (action request) "prepareFile") eqn:P.
  - rewrite (handle_prepare _ _ _ _ _ P).
    destruct (truthy (fileUrl request)).
    { destruct (downloadFile _ _ _ _ w) as [[r|e] w1]; cbn; intros H; inversion H; reflexivity. }
    destruct (truthy (base64Data request)).
    { destruct (saveBase64File _ _ _ _ w) as [[r|e] w1]; cbn; intros H; inversion H; reflexivity. }
    destruct (truthy (filePath request)); [|discriminate].
    destruct (verifyFile _ w) as [[r|e] w1]; cbn; intros H; inversion H; reflexivity.
  - destruct (is_action (action request) "cleanupFile") eqn:C.
    + rewrite (handle_cleanup _ _ _ _ _ P C).
      destruct (cleanupFile this (filePath request) w) as [[r|e] w1] eqn:K; cbn;
        intros H; inversion H; subst. now apply cleanupFile_not_staged in K.
    + rewrite (handleFileRequest_unknown_action _ _ _ _ _ P C). discriminate.
Qed.

(** What a successful staging from a URL or from base64 data wrote. *)
Lemma staged_write this (request : Request) w p n sz w' :
  handleFileRequest url_pathname base64_decode this request w
    = (Return (Some (Staged p n sz)), w') ->
  truthy (fileUrl request) = true \/ truthy (base64Data request) = true ->
  exists buf wg,
    (if truthy (fileUrl request)
     then exists resp, net w (value (fileUrl request)) = Return resp /\
                       ok resp = true /\ body resp = Return buf
     else buf = base64_decode (strip_data_url_prefix (value (base64Data request)))) /\
    sz = List.length buf /\
    p = posix.join [tempDir this; n] /\
    (if truthy (fileName request) then n = value (fileName request)
     else if truthy (fileUrl request)
          then fst (generateFileName url_pathname (fileUrl request) w) = Return n
          else n = "upload-" ++ decimal (now w) ++ ".bin") /\
    entries wg = entries w /\ cwd wg = cwd w /\ now wg = now w /\ console wg = console w /\
    writeFileSync p buf wg = (Return tt, w').
Proof.
  intros H S. apply handle_staged in H.
  destruct (truthy (fileUrl request)) eqn:U.
  - apply downloadFile_staged in H as (resp & buf & wg & N & O & B & G & -> & -> & Wr).
    exists buf, wg. split; [eauto|]. split; [reflexivity|]. split; [reflexivity|].
    destruct (truthy (fileName request)).
    + destruct G as [-> ->]. auto 10.
    + assert (V : Some (value (fileUrl request)) = fileUrl request).
      { destruct (fileUrl request); [reflexivity|discriminate]. }
      rewrite V in G.
      destruct (generateFileName_entries url_pathname (fileUrl request) w) as (G1 & G2 & G3 & G4).
      rewrite G in G1, G2, G3, G4 |- *. cbn [fst snd] in *. auto 10.
  - destruct S as [S|S]; [discriminate|]. rewrite S in H.
    apply saveBase64File_staged in H as (-> & -> & -> & Wr).
    eexists _, w. split; [reflexivity|]. split; [reflexivity|]. split; [reflexivity|].
    destruct (truthy (fileName request)); auto 10.
Qed.

(** X3. The file a successful staging leaves holds the payload: the body of
    the response, or the decoded base64 data without its data-URL prefix;
    the reply carries its length and the path [join(tempDir, fileName)];
    no other entry of the file table changes. *)
Theorem staged_file_holds_the_payload (this : FileHandler.t) (request : Request)
  (w : World) p n sz w' :
  handleFileRequest url_pathname base64_decode this request w
    = (Return (Some (Staged p n sz)), w') ->
  truthy (fileUrl request) = true \/ truthy (base64Data request) = true ->
  exists buf k r,
    (if truthy (fileUrl request)
     then exists resp, net w (value (fileUrl request)) = Return resp /\
                       ok resp = true /\ body resp = Return buf
     else buf = base64_decode (strip_data_url_prefix (value (base64Data request)))) /\
    sz = List.length buf /\
    p = posix.join [tempDir this; n] /\
    (truthy (fileName request) = true -> n = value (fileName request)) /\
    resolve w' p = Found k (File (now w) r buf) /\
    (forall k', k' <> k -> lookup (entries w') k' = lookup (entries w) k').
Proof.
  intros H S.
  destruct (staged_write _ _ _ _ _ _ _ H S) as (buf & wg & B & -> & -> & N & E1 & E2 & E3 & _ & Wr).
  destruct (writeFileSync_resolve _ _ _ _ Wr) as (k & r & R & _ & _ & _ & O & _).
  exists buf, k, r. rewrite E3 in R. rewrite E1 in O.
  repeat split; auto. intros T. now rewrite T in N.
Qed.

(** Where a staging without a caller-supplied name writes. *)
Lemma unnamed_staging_entry (os_tmpdir : string) (request : Request)
  (w : World) p n sz w' :
  let this := FileHandler.mk (posix.join [os_tmpdir; "chrome-mcp-uploads"]) in
  handleFileRequest url_pathname base64_decode this request w
    = (Return (Some (Staged p n sz)), w') ->
  truthy (fileUrl request) = true \/ truthy (base64Data request) = true ->
  truthy (fileName request) = false ->
  plain isPosixPathSeparator n = true /\
  p = tempDir this ++ "/" ++ n /\
  forall d m, resolve w (tempDir this) = Found d (Dir m) ->
    resolve w' (tempDir this) = Found d (Dir m) /\
    exists r buf, resolve w' p = Found (d ++ [n])%list (File (now w) r buf) /\
                  List.length buf = sz.
Proof.
  intros this H S F.
  destruct (staged_write _ _ _ _ _ _ _ H S) as (buf & wg & B & -> & -> & N & E1 & E2 & E3 & _ & Wr).
  rewrite F in N.
  assert (P : plain isPosixPathSeparator n = true).
  { destruct (truthy (fileUrl request)).
    - now apply (generated_name_plain url_pathname (fileUrl request) w).
    - subst n. apply dated_name_plain. }
  destruct (tempDir_normal os_tmpdir) as (abs & l & TF & TN & TL).
  assert (J : posix.join [tempDir this; n] = tempDir this ++ "/" ++ n).
  { cbn [tempDir this]. rewrite TF. now apply posix_join_child. }
  split; [exact P|]. split; [exact J|]. rewrite J in *.
  intros d m HT.
  assert (HTg : resolve wg (tempDir this) = Found d (Dir m))
    by (rewrite (resolve_ext wg w); auto).
  assert (NE : nonempty (tempDir this) = true).
  { cbn [tempDir this]. rewrite TF. eapply render_nonempty; eauto. }
  pose proof (resolve_child wg _ n d m NE P HTg) as RC.
  destruct (writeFileSync_resolve _ _ _ _ Wr) as (k & r & R & _ & K & _ & _ & _).
  assert (Ek : k = (d ++ [n])%list).
  { destruct (lookup (entries wg) (d ++ [n])%list); rewrite RC in K;
      destruct K as [[x K]|K]; congruence. }
  subst k. rewrite E3 in R.
  split; [exact (writeFileSync_keeps_dirs _ _ _ _ _ _ _ Wr HTg)|].
  exists r, buf. split; [exact R|reflexivity].
Qed.

(** X4. Without a caller-supplied name, a staging writes a direct child of
    the scratch root the constructor built: the synthesized name has no
    separator and is neither [.] nor [..]. *)
Theorem unnamed_staging_stays_in_root (os_tmpdir : string) (request : Request)
  (w : World) p n sz w' :
  let this := FileHandler.mk (posix.join [os_tmpdir; "chrome-mcp-uploads"]) in
  handleFileRequest url_pathname base64_decode this request w
    = (Return (Some (Staged p n sz)), w') ->
  truthy (fileUrl request) = true \/ truthy (base64Data request) = true ->
  truthy (fileName request) = false ->
  plain isPosixPathSeparator n = true /\
  p = tempDir this ++ "/" ++ n /\
  starts_with p (tempDir this) = true /\
  forall d m, resolve w (tempDir this) = Found d (Dir m) ->
    resolves_inside w' (tempDir this) p = true /\
    exists r buf, lookup (entries w') (d ++ [n])%list = Some (File (now w) r buf) /\
                  List.length buf = sz.
Proof.
  intros this H S F.
  destruct (unnamed_staging_entry os_tmpdir request w p n sz w' H S F) as (P & J & K).
  fold this in J, K.
  split; [exact P|]. split; [exact J|].
  split; [rewrite J; apply prefix_append|].
  intros d m HT. destruct (K d m HT) as (HT' & r & buf & R & L). split.
  - unfold resolves_inside. rewrite HT', R.
    rewrite length_app. cbn [List.length].
    rewrite firstn_app, Nat.sub_diag, firstn_all. cbn [firstn]. rewrite app_nil_r.
    destruct (key_dec d d); [|congruence].
    rewrite andb_true_r. apply Nat.ltb_lt. lia.
  - exists r, buf. split; [|exact L]. now apply (resolve_found _ _ _ _ R).
Qed.

End StagingTheorems.

Lemma append_inv_tail (a b c : string) : a ++ c = b ++ c -> a = b.
Proof.
  intros H. apply append_same_length in H; [tauto|].
  apply (f_equal String.length) in H. rewrite !length_append in H. lia.
Qed.

Section RoundTrip.
Variable url_pathname : string -> option string.
Variable base64_decode : string -> list Byte.byte.

Local Arguments resolve : simpl never.
Local Arguments String.append : simpl never.
Local Arguments posix.join : simpl never.
Local Arguments posix.basename : simpl never.

(** Writing to a path that does not exist creates a readable file. *)
Lemma writeFileSync_fresh p buf w w' :
  writeFileSync p buf w = (Return tt, w') ->
  fst (existsSync p w) = Return false ->
  exists k, resolve w p = Missing k /\
    w' = set_entries (entries w ++ [(k, File (now w) true buf)])%list w.
Proof.
  unfold writeFileSync, existsSync.
  destruct (resolve w p) as [k [m r d|m|]|k|c]; try discriminate.
  intros H _. injection H as <-. eauto.
Qed.

Lemma existsSync_ext w1 w2 p :
  entries w1 = entries w2 -> cwd w1 = cwd w2 ->
  fst (existsSync p w1) = fst (existsSync p w2).
Proof.
  intros E C. unfold existsSync. rewrite (resolve_ext w1 w2 p E C).
  destruct (resolve w2 p) as [k [m r d|m|]|k|c]; reflexivity.
Qed.

(** X5. A file staged under a synthesized name, at a path that was free, can
    be staged again by its path, with the same answer, and cleaned up; the
    cleanup leaves the file table as it was before the staging. *)
Theorem stage_verify_cleanup_round_trip (os_tmpdir : string) (request : Request)
  (w : World) p n sz w1 :
  let this := FileHandler.mk (posix.join [os_tmpdir; "chrome-mcp-uploads"]) in
  let handle := handleFileRequest url_pathname base64_decode this in
  handle request w = (Return (Some (Staged p n sz)), w1) ->
  truthy (fileUrl request) = true \/ truthy (base64Data request) = true ->
  truthy (fileName request) = false ->
  fst (existsSync p w) = Return false ->
  handle (mkRequest (Some "prepareFile") None None None (Some p)) w1
    = (Return (Some (Staged p n sz)), w1) /\
  exists w2,
    handle (mkRequest (Some "cleanupFile") None None None (Some p)) w1
      = (Return (Some (Cleaned "File cleaned up successfully")), w2) /\
    entries w2 = entries w.
Proof.
  intros this handle H S F X. subst handle.
  destruct (staged_write _ _ _ _ _ _ _ _ _ H S) as (buf & wg & B & -> & -> & N & E1 & E2 & E3 & _ & Wr).
  rewrite F in N.
  assert (P : plain isPosixPathSeparator n = true).
  { destruct (truthy (fileUrl request)).
    - now apply (generated_name_plain url_pathname (fileUrl request) w).
    - subst n. apply dated_name_plain. }
  destruct (tempDir_normal os_tmpdir) as (abs & l & TF & TN & TL).
  assert (J : posix.join [tempDir this; n] = tempDir this ++ "/" ++ n).
  { cbn [tempDir this]. rewrite TF. now apply posix_join_child. }
  rewrite J in *. set (p := tempDir this ++ "/" ++ n) in *.
  assert (NE : nonempty p = true).
  { apply nonempty_append_r. reflexivity. }
  rewrite <- (existsSync_ext wg w p E1 E2) in X.
  destruct (writeFileSync_fresh _ _ _ _ Wr X) as (k & R & ->).
  destruct (resolve_missing _ _ _ R) as [L K].
  assert (R1 : resolve (set_entries (entries wg ++ [(k, File (now wg) true buf)])%list wg) p
               = Found k (File (now wg) true buf)).
  { unfold resolve in R |- *. cbn [entries cwd set_entries].
    destruct (negb (nonempty p)); [discriminate|]. now apply walk_after_create. }
  split.
  - rewrite handle_prepare by reflexivity. cbn [fileUrl base64Data filePath truthy value].
    rewrite NE.
    pose proof (verifyFile_spec p (set_entries (entries wg ++ [(k, File (now wg) true buf)])%list wg)) as V.
    unfold verifiable in V. rewrite R1 in V. rewrite V. cbn [settled].
    unfold p at 2. now rewrite (basename_child _ _ P).
  - eexists. split.
    + rewrite handle_cleanup by reflexivity. cbn [filePath].
      rewrite cleanupFile_run by apply prefix_append. rewrite R1. reflexivity.
    + cbn [entries set_entries]. rewrite remove_snoc_fresh by assumption. exact E1.
Qed.

(** X6. Two stagings of base64 data without a caller-supplied name get the
    same file name exactly when they run in the same millisecond; the
    second then replaces what the first one wrote. *)
Theorem unnamed_base64_stagings_collide (this : FileHandler.t)
  (request1 request2 : Request) (w : World) (later : Z) p1 n1 s1 w1 p2 n2 s2 w2 :
  let handle := handleFileRequest url_pathname base64_decode this in
  handle request1 w = (Return (Some (Staged p1 n1 s1)), w1) ->
  handle request2 (set_now later w1) = (Return (Some (Staged p2 n2 s2)), w2) ->
  truthy (fileUrl request1) = false -> truthy (base64Data request1) = true ->
  truthy (fileName request1) = false ->
  truthy (fileUrl request2) = false -> truthy (base64Data request2) = true ->
  truthy (fileName request2) = false ->
  n1 = "upload-" ++ decimal (now w) ++ ".bin" /\
  (n1 = n2 <-> later = now w) /\
  (p1 = p2 <-> later = now w) /\
  (later = now w ->
     exists k r1 r2,
       resolve w1 p1 = Found k
         (File (now w) r1 (base64_decode (strip_data_url_prefix (value (base64Data request1))))) /\
       resolve w2 p1 = Found k
         (File (now w) r2 (base64_decode (strip_data_url_prefix (value (base64Data request2)))))).
Proof.
  intros handle H1 H2 U1 B1 F1 U2 B2 F2. subst handle.
  destruct (staged_write _ _ _ _ _ _ _ _ _ H1 (or_intror B1))
    as (buf1 & wg1 & D1 & -> & -> & N1 & Ea & Eb & Ec & _ & Wr1).
  destruct (staged_write _ _ _ _ _ _ _ _ _ H2 (or_intror B2))
    as (buf2 & wg2 & D2 & -> & -> & N2 & Ea2 & Eb2 & Ec2 & _ & Wr2).
  rewrite U1 in D1. rewrite U2 in D2. rewrite F1, U1 in N1. rewrite F2, U2 in N2.
  cbn [now set_now] in N2. subst n1 n2 buf1 buf2.
  assert (Q : "upload-" ++ decimal (now w) ++ ".bin" = "upload-" ++ decimal later ++ ".bin"
              <-> later = now w).
  { split; [|now intros ->]. intros E. apply append_inv_head in E.
    apply append_inv_tail in E. symmetry. now apply decimal_inj. }
  split; [reflexivity|]. split; [exact Q|]. split.
  - rewrite <- Q. split; [|now intros ->].
    apply join_plain_inj; apply dated_name_plain.
  - intros L. subst later.
    destruct (writeFileSync_resolve _ _ _ _ Wr1) as (k & r1 & R1 & _ & K1 & _ & _ & C1 & _).
    destruct (writeFileSync_resolve _ _ _ _ Wr2) as (k2 & r2 & R2 & _ & K2 & _ & _ & _).
    rewrite Ec in R1. rewrite Ec2 in R2. cbn [now set_now] in R2.
    assert (Rg : resolve wg2 (posix.join [tempDir this; "upload-" ++ decimal (now w) ++ ".bin"])
                 = resolve w1 (posix.join [tempDir this; "upload-" ++ decimal (now w) ++ ".bin"])).
    { apply resolve_ext; [rewrite Ea2|rewrite Eb2]; reflexivity. }
    rewrite Rg, R1 in K2.
    assert (Ek : k2 = k) by (destruct K2 as [[x K2]|K2]; congruence).
    subst k2. eauto.
Qed.

End RoundTrip.

(** ** Prefixes *)

Lemma prefix_inv (a b : string) : String.prefix a b = true -> exists c, b = a ++ c.
Proof.
  revert b. induction a as [|x a IH]; intros b H; [exists b; reflexivity|].
  destruct b as [|y b]; [discriminate|]. cbn in H.
  destruct (ascii_dec x y) as [->|]; [|discriminate].
  destruct (IH _ H) as [c ->]. now exists c.
Qed.

Lemma prefix_app_cancel (x a b : string) : String.prefix (x ++ a) (x ++ b) = String.prefix a b.
Proof.
  induction x as [|c x IH]; [reflexivity|]. cbn.
  destruct (ascii_dec c c); [exact IH|congruence].
Qed.

Lemma substring_all (s : string) : substring 0 (String.length s) s = s.
Proof. induction s; cbn; congruence. Qed.

(** ** A caller-supplied name with a parent segment *)

Section CallerName.
Local Arguments String.append : simpl never.

Lemma join_parent tmp n :
  plain isPosixPathSeparator n = true ->
  posix.join [posix.join [tmp; "chrome-mcp-uploads"]; "../" ++ n] = posix.join [tmp; n].
Proof.
  intros P.
  rewrite (posix_join_plain tmp ["chrome-mcp-uploads"]) by (repeat constructor; discriminate).
  rewrite (posix_join_plain tmp [n]) by (repeat constructor; auto; discriminate).
  set (abs := posix.isAbsolute tmp).
  set (L := norm_segments (negb abs) isPosixPathSeparator tmp).
  assert (NL : normal_stack isPosixPathSeparator (negb abs) (L ++ ["chrome-mcp-uploads"]) = true).
  { apply normal_app_plain; [apply norm_segments_normal|reflexivity]. }
  assert (NN : (L ++ ["chrome-mcp-uploads"])%list <> []).
  { intros X. apply app_eq_nil in X as [_ X]. discriminate. }
  set (T := render abs (L ++ ["chrome-mcp-uploads"])).
  assert (NE : nonempty T = true) by (eapply render_nonempty; eauto).
  unfold posix.join. cbn [filter]. rewrite NE.
  assert (NE2 : nonempty ("../" ++ n) = true) by reflexivity.
  rewrite NE2. cbn [String.concat].
  unfold posix.normalize.
  rewrite (nonempty_append_l T _ NE). cbn [negb].
  assert (A : posix.isAbsolute (T ++ "/" ++ "../" ++ n) = abs).
  { unfold posix.isAbsolute. rewrite first_char_append by assumption.
    apply (isAbsolute_render abs (negb abs)); assumption. }
  rewrite A.
  assert (Tr : opt_test isPosixPathSeparator (last_char (T ++ "/" ++ "../" ++ n)) = false).
  { rewrite <- !append_assoc.
    apply (last_char_concat isPosixPathSeparator "/" [n]); [repeat constructor; auto|discriminate]. }
  rewrite Tr.
  assert (S : norm_segments (negb abs) isPosixPathSeparator (T ++ "/" ++ "../" ++ n)
              = (L ++ [n])%list).
  { unfold norm_segments.
    change (T ++ "/" ++ "../" ++ n) with (T ++ String "/"%char (".." ++ String "/"%char n)).
    rewrite !split_app_sep by reflexivity.
    rewrite (split_no_sep isPosixPathSeparator n) by now apply plain_no_sep.
    rewrite fold_left_app.
    change (fold_left (norm_step (negb abs)) (split isPosixPathSeparator T) [])
      with (norm_segments (negb abs) isPosixPathSeparator T).
    unfold T. rewrite norm_segments_render by assumption.
    cbn [split isPosixPathSeparator Ascii.eqb Bool.eqb app fold_left].
    assert (St : norm_step (negb abs) (L ++ ["chrome-mcp-uploads"]) ".." = L).
    { unfold norm_step. cbn [String.eqb Ascii.eqb Bool.eqb orb].
      destruct (L ++ ["chrome-mcp-uploads"])%list as [|y q] eqn:E; [congruence|].
      rewrite <- E, last_last. cbn [String.eqb Ascii.eqb Bool.eqb].
      apply removelast_last. }
    rewrite St. now apply norm_step_plain with (isSep := isPosixPathSeparator). }
  unfold normalizeString. rewrite S.
  assert (Q : nonempty (String.concat "/" (L ++ [n])) = true).
  { rewrite sconcat_app by discriminate. apply nonempty_append_r.
    cbn [String.concat]. now apply (plain_nonempty isPosixPathSeparator). }
  rewrite Q. cbn [negb]. unfold render. now rewrite append_nil_r.
Qed.

Lemma sibling_not_inside tmp n :
  plain isPosixPathSeparator n = true ->
  starts_with (posix.join [tmp; n]) (posix.join [tmp; "chrome-mcp-uploads"] ++ "/") = false.
Proof.
  intros P.
  rewrite (posix_join_plain tmp ["chrome-mcp-uploads"]) by (repeat constructor; discriminate).
  rewrite (posix_join_plain tmp [n]) by (repeat constructor; auto; discriminate).
  set (abs := posix.isAbsolute tmp).
  set (L := norm_segments (negb abs) isPosixPathSeparator tmp).
  unfold render, starts_with. rewrite !sconcat_app by discriminate.
  cbn [String.concat]. rewrite !append_assoc, !prefix_app_cancel.
  destruct (String.prefix ("chrome-mcp-uploads" ++ "/") n) eqn:E; [|reflexivity].
  apply prefix_inv in E as [c ->].
  apply plain_no_sep in P. rewrite !no_sep_append in P. cbn in P. discriminate.
Qed.

Variable url_pathname : string -> option string.
Variable base64_decode : string -> list Byte.byte.
Local Arguments posix.join : simpl never.

(** X7. The caller's [fileName] is joined to the scratch root as it is: with
    [../n] the file is written to [join(os.tmpdir(), n)], beside the
    scratch root and not in it. *)
Theorem caller_name_is_joined_as_is (os_tmpdir : string) (request : Request)
  (w : World) p n' sz w' (n : string) :
  let this := FileHandler.mk (posix.join [os_tmpdir; "chrome-mcp-uploads"]) in
  handleFileRequest url_pathname base64_decode this request w
    = (Return (Some (Staged p n' sz)), w') ->
  truthy (fileUrl request) = true \/ truthy (base64Data request) = true ->
  fileName request = Some ("../" ++ n) ->
  plain isPosixPathSeparator n = true ->
  n' = "../" ++ n /\
  p = posix.join [os_tmpdir; n] /\
  starts_with p (tempDir this ++ "/") = false.
Proof.
  intros this H S F P.
  destruct (staged_write _ _ _ _ _ _ _ _ _ H S) as (buf & wg & _ & _ & -> & N & _).
  rewrite F in N. cbn [truthy value] in N.
  change (nonempty ("../" ++ n)) with true in N. cbv iota in N. subst n'.
  split; [reflexivity|]. cbn [tempDir this]. rewrite join_parent by assumption.
  split; [reflexivity|]. now apply sibling_not_inside.
Qed.

End CallerName.

(** ** The data-URL prefix *)


Section DataUrl.
Local Arguments String.append : simpl never.

Lemma prefix_blocked pat : forall h rest,
  nonempty pat = true -> has_char ";" pat = false -> last_char pat = Some ","%char ->
  has_char "," h = false ->
  String.prefix pat (h ++ String ";" rest) = false.
Proof.
  induction pat as [|a pat IH]; intros h rest Hn Hs Hl Hh; [discriminate|].
  cbn [has_char] in Hs. apply orb_false_iff in Hs as [Ha Hs].
  destruct h as [|c h].
  - change ("" ++ String ";" rest) with (String ";" rest). cbn [String.prefix].
    destruct (ascii_dec a ";") as [->|]; [discriminate Ha|reflexivity].
  - change (String c h ++ String ";" rest) with (String c (h ++ String ";" rest)).
    cbn [String.prefix has_char] in *. apply orb_false_iff in Hh as [Hc Hh].
    destruct (ascii_dec a c) as [->|]; [|reflexivity].
    destruct pat as [|b pat].
    + cbn in Hl. injection Hl as ->. discriminate Hc.
    + apply IH; auto.
Qed.


Lemma header_no_comma h : all_chars header_char h = true -> has_char "," h = false.
Proof.
  induction h as [|c h IH]; [reflexivity|]. cbn [all_chars has_char]. intros H.
  apply andb_true_iff in H as [Hc Hh]. unfold header_char in Hc.
  apply andb_true_iff in Hc as [Hc _]. apply negb_true_iff in Hc.
  now rewrite Hc, IH.
Qed.

Lemma after_marker_header h payload :
  all_chars header_char h = true ->
  after_base64_marker (h ++ ";base64," ++ payload) = Some payload.
Proof.
  induction h as [|c h IH]; intros H.
  - change ("" ++ ";base64," ++ payload) with (";base64," ++ payload).
    destruct (";base64," ++ payload) eqn:E; [discriminate|].
    cbn [after_base64_marker]. rewrite <- E. rewrite prefix_append.
    f_equal. change (";base64," ++ payload) with (String ";" (String "b" (String "a"
      (String "s" (String "e" (String "6" (String "4" (String "," payload)))))))).
    cbn [String.length substring Nat.sub]. rewrite ?Nat.sub_0_r. apply substring_all.
  - cbn [all_chars] in H. apply andb_true_iff in H as [Hc Hh].
    change (String c h ++ ";base64," ++ payload) with (String c (h ++ ";base64," ++ payload)).
    cbn [after_base64_marker].
    assert (B : String.prefix ";base64," (String c (h ++ ";base64," ++ payload)) = false).
    { cbn [String.prefix]. destruct (ascii_dec ";" c); [|reflexivity].
      change (h ++ ";base64," ++ payload) with (h ++ String ";" ("base64," ++ payload)).
      apply prefix_blocked; try reflexivity. now apply header_no_comma. }
    rewrite B. unfold header_char in Hc. apply andb_true_iff in Hc as [_ Hc].
    apply negb_true_iff in Hc. rewrite Hc. now apply IH.
Qed.

Lemma strip_data_url h payload :
  all_chars header_char h = true ->
  strip_data_url_prefix ("data:" ++ h ++ ";base64," ++ payload) = payload.
Proof.
  intros H. unfold strip_data_url_prefix. rewrite prefix_append.
  change ("data:" ++ h ++ ";base64," ++ payload)
    with (String "d" (String "a" (String "t" (String "a" (String ":" (h ++ ";base64," ++ payload)))))).
  cbn [String.length substring Nat.sub]. rewrite ?Nat.sub_0_r, substring_all.
  now rewrite after_marker_header.
Qed.

Lemma after_marker_suffix s : forall r,
  after_base64_marker s = Some r -> exists pre, s = pre ++ r.
Proof.
  induction s as [|c s IH]; intros r.
  - cbn. discriminate.
  - cbn [after_base64_marker].
    destruct (String.prefix ";base64," (String c s)) eqn:P.
    + apply prefix_inv in P as [x E]. rewrite E.
      change (";base64," ++ x) with (String ";" (String "b" (String "a"
        (String "s" (String "e" (String "6" (String "4" (String "," x)))))))).
      cbn [String.length substring Nat.sub]. rewrite ?Nat.sub_0_r, substring_all.
      intros H. injection H as <-. now exists ";base64,".
    + destruct (is_line_terminator c); [discriminate|]. intros H.
      destruct (IH _ H) as [pre ->]. now exists (String c pre).
Qed.

Variable base64_decode : string -> list Byte.byte.
Variable this : FileHandler.t.
Local Arguments posix.join : simpl never.

(** X8. The data-URL prefix of base64 data is dropped before decoding: a data
    URL whose header holds no comma and no line break is staged as its
    payload is; data that does not start with [data:] is decoded as it
    is; and what is decoded is always a suffix of what was sent. *)
Theorem data_url_prefix_is_dropped (header payload : string)
  (name : option string) (w : World) :
  all_chars header_char header = true ->
  String.prefix "data:" payload = false ->
  strip_data_url_prefix ("data:" ++ header ++ ";base64," ++ payload) = payload /\
  saveBase64File base64_decode this ("data:" ++ header ++ ";base64," ++ payload) name w
    = saveBase64File base64_decode this payload name w /\
  forall s, exists pre, s = pre ++ strip_data_url_prefix s.
Proof.
  intros H Pp. pose proof (strip_data_url header payload H) as E.
  split; [exact E|]. split.
  - unfold saveBase64File. rewrite E.
    assert (E2 : strip_data_url_prefix payload = payload).
    { unfold strip_data_url_prefix. now rewrite Pp. }
    now rewrite E2.
  - intros s. unfold strip_data_url_prefix.
    destruct (String.prefix "data:" s) eqn:P; [|now exists ""].
    destruct (after_base64_marker (substring 5 (String.length s - 5) s)) as [r|] eqn:A;
      [|now exists ""].
    apply after_marker_suffix in A as [pre A].
    apply prefix_inv in P as [x ->].
    change ("data:" ++ x) with (String "d" (String "a" (String "t" (String "a" (String ":" x))))) in A.
    cbn [String.length substring Nat.sub] in A. rewrite ?Nat.sub_0_r, substring_all in A.
    exists ("data:" ++ pre). rewrite A. now rewrite append_assoc.
Qed.

End DataUrl.

(** ** What the sweep never does *)

Section SweepSafety.
Variables (now0 : Z) (d : Key).

Lemma lookup_nil_key (t : list (Key * Node)) : lookup t [] = Some (Dir 0).
Proof. reflexivity. Qed.

Lemma sweep_table_no_add names : forall (t : list (Key * Node)) k,
  lookup t k = None -> lookup (snd (sweep_table now0 d t names)) k = None.
Proof.
  induction names as [|n rest IH]; intros t k H; [exact H|].
  cbn [sweep_table].
  destruct (lookup t (d ++ [n])%list) as [[m' r' d'|m'|]|]; try exact H.
  - destruct (now0 - m' >? oneHour)%Z; [|now apply IH].
    apply IH. destruct k as [|a k]; [discriminate H|].
    rewrite lookup_remove by discriminate.
    destruct (key_dec (a :: k) (d ++ [n])%list); [reflexivity|exact H].
  - destruct (now0 - m' >? oneHour)%Z; [exact H|now apply IH].
Qed.

(** Whatever stops it, the sweep removes nothing but regular files of
    the listed names that are older than one hour. *)
Lemma sweep_table_safe names : forall (t : list (Key * Node)) k,
  lookup (snd (sweep_table now0 d t names)) k = lookup t k \/
  (lookup (snd (sweep_table now0 d t names)) k = None /\
   exists n m r dt, In n names /\ k = (d ++ [n])%list /\
     lookup t k = Some (File m r dt) /\ (now0 - m > oneHour)%Z).
Proof.
  induction names as [|n rest IH]; intros t k; [now left|].
  cbn [sweep_table].
  destruct (lookup t (d ++ [n])%list) as [[m' r' d'|m'|]|] eqn:L; try (now left).
  - destruct (now0 - m' >? oneHour)%Z eqn:O.
    + destruct (key_dec k (d ++ [n])%list) as [->|Hk].
      * right. split.
        { apply sweep_table_no_add. apply lookup_remove_same. }
        exists n, m', r', d'. split; [now left|]. split; [reflexivity|].
        split; [exact L|]. now apply Z.gtb_lt in O; lia.
      * destruct (IH (remove t (d ++ [n])%list) k) as [E|(E & x & m & r & dt & I & K & F & G)].
        { left. rewrite E. now apply lookup_remove_other. }
        right. split; [exact E|]. exists x, m, r, dt. split; [now right|].
        split; [exact K|]. split; [|exact G].
        rewrite <- F. symmetry. now apply lookup_remove_other.
    + destruct (IH t k) as [E|(E & x & m & r & dt & I & K & F & G)]; [now left|].
      right. split; [exact E|]. exists x, m, r, dt. split; [now right|auto].
  - destruct (now0 - m' >? oneHour)%Z; [now left|].
    destruct (IH t k) as [E|(E & x & m & r & dt & I & K & F & G)]; [now left|].
    right. split; [exact E|]. exists x, m, r, dt. split; [now right|auto].
Qed.
End SweepSafety.

Section SweepTheorems2.
Local Arguments resolve : simpl never.
Local Arguments String.append : simpl never.
Local Arguments posix.join : simpl never.

(** Without a directory at the scratch root there is nothing to list:
    the error is printed and nothing else happens. *)
Lemma cleanupOldFiles_no_root this w :
  (forall d m, resolve w (tempDir this) <> Found d (Dir m)) ->
  exists e,
    cleanupOldFiles this w =
    (Return tt,
     mkWorld (entries w) (cwd w) (now w) (entropy w) (epos w) (net w)
       (console w ++ [Err "Error cleaning up old files:" e])%list).
Proof.
  intros H. unfold cleanupOldFiles, try_catch, bind, Date_now, gets, readdirSync, console_log, console_error, print, modify.
  destruct (resolve w (tempDir this)) as [k [m r dt|m|]|k|c] eqn:R;
    try (eexists; reflexivity).
  exfalso. now apply (H k m).
Qed.

(** X10. The sweep only ever deletes regular files older than one hour that
    sit directly in the scratch root: every other entry of the file
    table (directories, recent files, entries elsewhere) is left as it
    was, whatever ends the sweep, and no entry is added. *)
Theorem sweep_removes_only_old_files (os_tmpdir : string) (w : World) :
  let this := FileHandler.mk (posix.join [os_tmpdir; "chrome-mcp-uploads"]) in
  let t' := entries (snd (cleanupOldFiles this w)) in
  wf_table (entries w) = true ->
  forall k,
    lookup t' k = lookup (entries w) k \/
    (lookup t' k = None /\
     exists d dm n m rd dt,
       resolve w (tempDir this) = Found d (Dir dm) /\ k = (d ++ [n])%list /\
       lookup (entries w) k = Some (File m rd dt) /\ (now w - m > oneHour)%Z).
Proof.
  intros this t' W k. subst t'.
  destruct (resolve w (tempDir this)) as [d [m r dt|dm|]|d|c] eqn:R;
    try (destruct (cleanupOldFiles_no_root this w) as [e ->];
         [intros d0 m0; rewrite R; discriminate|now left]).
  destruct (tempDir_normal os_tmpdir) as (abs & l & TF & TN & TL).
  apply andb_true_iff in W as [WD WP].
  assert (PL : Forall (fun n => plain isPosixPathSeparator n = true) (children (entries w) d))
    by now apply children_plain.
  destruct (cleanupOldFiles_refines this abs l TF TN TL d dm w PL R) as (_ & R2 & _).
  rewrite R2.
  destruct (sweep_table_safe (now w) d (children (entries w) d) (entries w) k)
    as [E|(E & n & m & rd & dt & I & K & F & G)]; [now left|].
  right. split; [exact E|]. exists d, dm, n, m, rd, dt. auto.
Qed.

End SweepTheorems2.

(** ** Sweeping twice *)

Lemma filter_all {A} (l : list A) : filter (fun _ => true) l = l.
Proof. induction l; cbn; congruence. Qed.

Lemma filter_twice {A} (f g : A -> bool) l :
  filter f (filter g l) = filter (fun x => g x && f x) l.
Proof.
  induction l as [|a l IH]; [reflexivity|]. cbn. destruct (g a); cbn; [|exact IH].
  destruct (f a); now rewrite IH.
Qed.

Lemma lookup_filter (g : Key -> bool) (t : list (Key * Node)) k :
  k <> [] ->
  lookup (filter (fun e => g (fst e)) t) k = if g k then lookup t k else None.
Proof.
  intros K. unfold lookup. destruct k as [|c k]; [congruence|].
  set (q := c :: k). clearbody q.
  induction t as [|[a x] t IH]; cbn [filter find fst snd].
  - now destruct (g q).
  - destruct (g a) eqn:G; cbn [find fst snd].
    + destruct (key_dec a q) as [->|]; [now rewrite G|exact IH].
    + destruct (key_dec a q) as [->|]; [|exact IH].
      rewrite G in IH |- *. exact IH.
Qed.

Lemma lookup_in (t : list (Key * Node)) k x :
  In (k, x) t -> k <> [] -> lookup t k <> None.
Proof.
  intros I K. unfold lookup. destruct k as [|c k]; [congruence|].
  set (q := c :: k) in *. clearbody q.
  induction t as [|[a y] t IH]; [contradiction|]. cbn [find fst snd].
  destruct (key_dec a q); [discriminate|].
  destruct I as [E|I]; [congruence|]. now apply IH.
Qed.

Lemma children_filter (g : Key -> bool) (t : list (Key * Node)) d :
  children (filter (fun e => g (fst e)) t) d =
  filter (fun n => g (d ++ [n])%list) (children t d).
Proof.
  induction t as [|[k x] t IH]; [reflexivity|]. cbn [filter fst].
  destruct k as [|a k].
  - destruct (g []); cbn [children]; exact IH.
  - assert (E : forall (H : removelast (a :: k) = d),
                (d ++ [last (a :: k) ""])%list = a :: k).
    { intros <-. apply snoc_last_eq. discriminate. }
    destruct (g (a :: k)) eqn:G; cbn [children];
      destruct (key_dec (removelast (a :: k)) d) as [H|H]; cbn [filter];
      rewrite ?(E H), ?G, IH; reflexivity.
Qed.

Section SweepTwice.
Variables (now0 : Z) (d : Key).


Lemma sweep_subtable names : forall (t : list (Key * Node)),
  exists g, snd (sweep_table now0 d t names) = filter (fun e => g (fst e)) t.
Proof.
  induction names as [|n rest IH]; intros t.
  - exists (fun _ => true). cbn. now rewrite (filter_all t).
  - cbn [sweep_table].
    assert (Same : exists g, t = filter (fun e : Key * Node => g (fst e)) t).
    { exists (fun _ => true). now rewrite (filter_all t). }
    destruct (lookup t (d ++ [n])%list) as [[m' r' d'|m'|]|]; try exact Same.
    + destruct (now0 - m' >? oneHour)%Z; [|apply IH].
      destruct (IH (remove t (d ++ [n])%list)) as [g ->].
      unfold remove. rewrite filter_twice.
      exists (fun k => (if key_dec k (d ++ [n])%list then false else true) && g k).
      reflexivity.
    + destruct (now0 - m' >? oneHour)%Z; [exact Same|apply IH].
Qed.

(** A second pass over what the first one left finds nothing to delete. *)
Lemma sweep_again names : forall (t : list (Key * Node)),
  NoDup names ->
  (forall n, In n names -> lookup t (d ++ [n])%list <> None) ->
  sweep_table now0 d (snd (sweep_table now0 d t names))
    (filter (present d (snd (sweep_table now0 d t names))) names)
  = (fst (sweep_table now0 d t names), snd (sweep_table now0 d t names)).
Proof.
  induction names as [|n rest IH]; intros t Hd Hp; [reflexivity|].
  inversion Hd as [|? ? Hn Hrest]; subst.
  assert (Hp' : forall x, In x rest -> lookup t (d ++ [x])%list <> None)
    by (intros x Hx; apply Hp; now right).
  assert (U : forall t', lookup (snd (sweep_table now0 d t' rest)) (d ++ [n])%list
                         = lookup t' (d ++ [n])%list).
  { intros t'. apply sweep_untouched. intros x Hx E. apply snoc_inj in E. congruence. }
  cbn [sweep_table].
  destruct (lookup t (d ++ [n])%list) as [[m' r' d'|m'|]|] eqn:L.
  - destruct (now0 - m' >? oneHour)%Z eqn:O.
    + cbn [filter]. unfold present at 1. rewrite U, lookup_remove_same.
      apply IH; [assumption|].
      intros x Hx. rewrite lookup_remove_other; [now apply Hp'|].
      intros E. apply snoc_inj in E. congruence.
    + cbn [filter]. unfold present at 1. rewrite U, L.
      cbn [sweep_table]. rewrite U, L, O. now apply IH.
  - destruct (now0 - m' >? oneHour)%Z eqn:O.
    + cbn [fst snd filter]. unfold present at 1. rewrite L.
      cbn [sweep_table]. now rewrite L, O.
    + cbn [filter]. unfold present at 1. rewrite U, L.
      cbn [sweep_table]. rewrite U, L, O. now apply IH.
  - cbn [fst snd filter]. unfold present at 1. rewrite L.
    cbn [sweep_table]. now rewrite L.
  - exfalso. apply (Hp n); [now left|exact L].
Qed.

(** The listing of the scratch root after a sweep: the names that are
    still there, in the order they had. *)
Lemma children_after_sweep (t : list (Key * Node)) :
  children (snd (sweep_table now0 d t (children t d))) d =
  filter (present d (snd (sweep_table now0 d t (children t d)))) (children t d).
Proof.
  destruct (sweep_subtable (children t d) t) as [g E]. rewrite E.
  rewrite children_filter. apply filter_ext_in. intros n I.
  unfold present. rewrite lookup_filter by apply snoc_neq_nil.
  destruct (g (d ++ [n])%list); [|reflexivity].
  apply children_In in I as [x I].
  pose proof (lookup_in _ _ _ I (snoc_neq_nil d n)) as N.
  destruct (lookup t (d ++ [n])%list); [reflexivity|congruence].
Qed.

Lemma sweep_table_twice (t : list (Key * Node)) :
  NoDup (map fst t) ->
  let t1 := snd (sweep_table now0 d t (children t d)) in
  snd (sweep_table now0 d t1 (children t1 d)) = t1.
Proof.
  intros ND t1. subst t1. rewrite children_after_sweep.
  rewrite sweep_again; [reflexivity|now apply children_NoDup|].
  intros n I. apply children_In in I as [x I].
  exact (lookup_in _ _ _ I (snoc_neq_nil d n)).
Qed.
End SweepTwice.

Section SweepIdempotent.
Local Arguments resolve : simpl never.
Local Arguments String.append : simpl never.
Local Arguments posix.join : simpl never.
Local Opaque oneHour.

Lemma sweep_entry_frame this now0 n w :
  cwd (snd (sweep_entry this now0 n w)) = cwd w /\
  now (snd (sweep_entry this now0 n w)) = now w.
Proof.
  unfold sweep_entry, bind, statSync, unlinkSync, console_log, console_error, print, modify, ret.
  destruct (resolve w (posix.join [tempDir this; n])) as [k [m r dt|m|]|k|c] eqn:R;
    cbn; try (split; reflexivity);
    destruct (now0 - m >? oneHour)%Z; cbn; rewrite ?R; cbn; split; reflexivity.
Qed.

Lemma for_each_frame this now0 names : forall w,
  cwd (snd (for_each names (sweep_entry this now0) w)) = cwd w /\
  now (snd (for_each names (sweep_entry this now0) w)) = now w.
Proof.
  induction names as [|n rest IH]; intros w; [split; reflexivity|].
  rewrite for_each_cons. destruct (sweep_entry_frame this now0 n w) as [C N].
  destruct (sweep_entry this now0 n w) as [[[]|e] w1]; cbn [fst snd] in *.
  - destruct (IH w1) as [C1 N1]. split; congruence.
  - split; assumption.
Qed.

Lemma cleanupOldFiles_frame this w :
  cwd (snd (cleanupOldFiles this w)) = cwd w /\
  now (snd (cleanupOldFiles this w)) = now w.
Proof.
  unfold cleanupOldFiles, try_catch, bind, Date_now, gets, readdirSync, console_log, console_error, print, modify.
  destruct (resolve w (tempDir this)) as [k [m r dt|m|]|k|c]; cbn; try (split; reflexivity).
  destruct (for_each_frame this (now w) (children (entries w) k) w) as [C N].
  destruct (for_each (children (entries w) k) (sweep_entry this (now w)) w) as [[[]|e] w1];
    cbn [fst snd] in *; split; assumption.
Qed.

(** X11. Sweeping a second time, at the same clock, deletes nothing more:
    what the first sweep left, it leaves. *)
Theorem sweep_is_idempotent (os_tmpdir : string) (w : World) :
  let this := FileHandler.mk (posix.join [os_tmpdir; "chrome-mcp-uploads"]) in
  let w1 := snd (cleanupOldFiles this w) in
  wf_table (entries w) = true ->
  entries (snd (cleanupOldFiles this w1)) = entries w1.
Proof.
  intros this w1 W. subst w1.
  destruct (cleanupOldFiles_frame this w) as [FC FN].
  destruct (resolve w (tempDir this)) as [d [m r dt|dm|]|d|c] eqn:R;
    try (destruct (cleanupOldFiles_no_root this w) as [e E];
         [intros d0 m0; rewrite R; discriminate|];
         destruct (cleanupOldFiles_no_root this (snd (cleanupOldFiles this w))) as [e' E'];
         [intros d0 m0; rewrite (resolve_ext _ w) by (rewrite ?E; reflexivity);
          rewrite R; discriminate|];
         rewrite E'; reflexivity).
  destruct (tempDir_normal os_tmpdir) as (abs & l & TF & TN & TL).
  apply andb_true_iff in W as [WD WP].
  assert (PL : Forall (fun n => plain isPosixPathSeparator n = true) (children (entries w) d))
    by now apply children_plain.
  destruct (cleanupOldFiles_refines this abs l TF TN TL d dm w PL R) as (_ & R2 & _).
  set (w1 := snd (cleanupOldFiles this w)) in *.
  assert (R1 : resolve w1 (tempDir this) = Found d (Dir dm)).
  { unfold resolve in R |- *. rewrite FC.
    destruct (negb (nonempty (tempDir this))); [discriminate|].
    apply (walk_dirs_preserved (entries w)); [|exact R].
    intros q mq L. rewrite R2.
    destruct (sweep_table_safe (now w) d (children (entries w) d) (entries w) q)
      as [E|(_ & n & m & rd & dt & _ & _ & F & _)]; [now rewrite E|congruence]. }
  assert (PL1 : Forall (fun n => plain isPosixPathSeparator n = true) (children (entries w1) d)).
  { rewrite R2, children_after_sweep. now apply Forall_filter. }
  destruct (cleanupOldFiles_refines this abs l TF TN TL d dm w1 PL1 R1) as (_ & R3 & _).
  rewrite R3, FN, R2. apply sweep_table_twice. now apply distinct_NoDup.
Qed.

End SweepIdempotent.

(** ** Staging and the sweep *)

Section Lifetime.
Variable url_pathname : string -> option string.
Variable base64_decode : string -> list Byte.byte.

Local Arguments resolve : simpl never.
Local Arguments String.append : simpl never.
Local Arguments posix.join : simpl never.
Local Opaque oneHour.

(** X20. A file staged under a synthesized name outlives every sweep
    that runs within the hour: whatever else the scratch root holds, and
    whatever stops the sweep, the file is still there, as it was written,
    after a sweep at a clock that is not more than one hour past the
    staging. *)
Theorem staged_file_survives_the_hour (os_tmpdir : string) (request : Request)
  (w : World) p n sz w' (later : Z) (d : Key) (m : Z) :
  let this := FileHandler.mk (posix.join [os_tmpdir; "chrome-mcp-uploads"]) in
  handleFileRequest url_pathname base64_decode this request w
    = (Return (Some (Staged p n sz)), w') ->
  truthy (fileUrl request) = true \/ truthy (base64Data request) = true ->
  truthy (fileName request) = false ->
  resolve w (tempDir this) = Found d (Dir m) ->
  wf_table (entries w') = true ->
  (later - now w <= oneHour)%Z ->
  exists r buf,
    lookup (entries w') (d ++ [n])%list = Some (File (now w) r buf) /\
    List.length buf = sz /\
    lookup (entries (snd (cleanupOldFiles this (set_now later w')))) (d ++ [n])%list
      = Some (File (now w) r buf).
Proof.
  intros this H S F HT W Hl.
  destruct (unnamed_staging_entry url_pathname base64_decode os_tmpdir request w p n sz w' H S F)
    as (P & J & K).
  fold this in J, K. destruct (K d m HT) as (HT' & r & buf & R & L).
  pose proof (resolve_found _ _ _ _ R) as L0.
  exists r, buf. split; [exact L0|]. split; [exact L|].
  set (w2 := set_now later w').
  assert (R2 : resolve w2 (tempDir this) = Found d (Dir m)).
  { rewrite (resolve_ext w2 w'); [exact HT'|reflexivity|reflexivity]. }
  destruct (tempDir_normal os_tmpdir) as (abs & l & TF & TN & TL).
  apply andb_true_iff in W as [WD WP].
  assert (PL : Forall (fun x => plain isPosixPathSeparator x = true) (children (entries w2) d))
    by now apply children_plain.
  destruct (cleanupOldFiles_refines this abs l TF TN TL d m w2 PL R2) as (_ & E & _).
  rewrite E.
  destruct (sweep_table_safe (now w2) d (children (entries w2) d) (entries w2) (d ++ [n])%list)
    as [Q|(_ & x & m0 & rd & dt & _ & _ & G & O)].
  - rewrite Q. exact L0.
  - exfalso. cbn [entries w2 set_now] in G. rewrite L0 in G. injection G as <- _ _.
    cbn [now w2 set_now] in O. lia.
Qed.

(** X21. A download that fails is answered with a failure that says
    why, and nothing is written: a rejected [fetch] and a response whose
    status is not ok leave the world untouched (no name is synthesized, no
    random bytes are drawn); a body that cannot be read leaves the file
    table untouched. *)
Theorem failed_download_is_reported (this : FileHandler.t) (request : Request)
  (w : World) (url : string) :
  is_action (action request) "prepareFile" = true ->
  fileUrl request = Some url -> nonempty url = true ->
  let r := handleFileRequest url_pathname base64_decode this request w in
  match net w url with
  | Throw e =>
      r = (Return (Some (Failure ("Failed to download file from URL: " ++ toString e))), w)
  | Return response =>
      if ok response then
        match body response with
        | Throw e =>
            fst r = Return (Some (Failure ("Failed to download file from URL: " ++ toString e)))
            /\ entries (snd r) = entries w
        | Return _ => exists reply, fst r = Return (Some reply)
        end
      else
        r = (Return (Some (Failure
               ("Failed to download file from URL: Error: Failed to download file: "
                ++ statusText response))), w)
  end.
Proof.
  intros A U N r. subst r. rewrite (handle_prepare _ _ _ _ _ A), U.
  cbn [truthy value]. rewrite N.
  unfold downloadFile, try_catch, bind, fetch, buffer, throw, ret.
  destruct (net w url) as [resp|e]; [|reflexivity].
  destruct (ok resp); cbn [negb]; [|reflexivity].
  destruct (truthy (fileName request)).
  - destruct (body resp) as [buf|e]; [|split; reflexivity].
    destruct (writeFileSync _ buf w) as [[[]|e0] w1]; cbn; eauto.
  - destruct (generateFileName_total url_pathname (Some url) w) as [g G].
    destruct (generateFileName_entries url_pathname (Some url) w) as (G1 & _).
    destruct (generateFileName url_pathname (Some url) w) as [o wg]. cbn [fst snd] in *. subst o.
    destruct (body resp) as [buf|e]; [|split; [reflexivity|exact G1]].
    destruct (writeFileSync _ buf wg) as [[[]|e0] w1]; cbn; eauto.
Qed.

End Lifetime.

(** ** What the sweep prints *)

Section SweepLog.
Local Arguments resolve : simpl never.
Local Arguments String.append : simpl never.
Local Arguments posix.join : simpl never.
Local Opaque oneHour.

Variable this : FileHandler.t.
Variables (abs : bool) (l : list string).
Hypothesis T_form : tempDir this = render abs l.
Hypothesis T_normal : normal_stack isPosixPathSeparator (negb abs) l = true.
Hypothesis T_nonnil : l <> [].
Variables (d : Key) (m : Z).

Lemma sweep_entry_console now0 n w :
  plain isPosixPathSeparator n = true ->
  resolve w (tempDir this) = Found d (Dir m) ->
  console (snd (sweep_entry this now0 n w)) =
  match lookup (entries w) (d ++ [n])%list with
  | Some (File m' _ _) =>
      if (now0 - m' >? oneHour)%Z
      then (console w ++ [deleted_line n])%list
      else console w
  | _ => console w
  end.
Proof.
  intros Hn HT. unfold sweep_entry.
  rewrite T_form, posix_join_child by assumption. rewrite <- T_form.
  pose proof (resolve_child w _ n d m (tempDir_nonempty this abs l T_form T_normal T_nonnil) Hn HT) as R.
  unfold bind, statSync, unlinkSync, console_log, console_error, print, modify, ret.
  destruct (lookup (entries w) (d ++ [n])%list) as [[m' r' d'|m'|]|];
    rewrite R; cbn; try reflexivity;
    destruct (now0 - m' >? oneHour)%Z; cbn; rewrite ?R; cbn; reflexivity.
Qed.

Lemma filter_none {A} (f : A -> bool) (l0 : list A) :
  (forall x, In x l0 -> f x = false) -> filter f l0 = [].
Proof.
  induction l0 as [|a l0 IH]; [reflexivity|]. intros H. cbn.
  rewrite (H a (or_introl eq_refl)). apply IH. intros x Hx. apply H. now right.
Qed.

Lemma for_each_console now0 names : forall w,
  Forall (fun n => plain isPosixPathSeparator n = true) names ->
  NoDup names ->
  (forall n, In n names -> lookup (entries w) (d ++ [n])%list <> None) ->
  resolve w (tempDir this) = Found d (Dir m) ->
  let r := for_each names (sweep_entry this now0) w in
  console (snd r) =
  (console w ++
   map deleted_line
       (filter (fun n => negb (present d (entries (snd r)) n)) names))%list.
Proof.
  induction names as [|n rest IH]; intros w Hp Hd Hl HT; [cbn; now rewrite app_nil_r|].
  inversion Hp as [|? ? Hn Hrest]; subst. inversion Hd as [|? ? Hnr Hdr]; subst.
  cbv zeta.
  destruct (sweep_loop this abs l T_form T_normal T_nonnil d m now0 (n :: rest) w Hp HT)
    as (SL & _ & _). cbv zeta in SL.
  destruct (sweep_entry_spec this abs l T_form T_normal T_nonnil d m now0 n w Hn HT) as [C S].
  pose proof (sweep_entry_console now0 n w Hn HT) as K.
  cbv zeta in C, S.
  assert (Keep : forall w', cwd w' = cwd w -> entries w' = entries w ->
                 resolve w' (tempDir this) = Found d (Dir m)).
  { intros w' Hc He. now rewrite (resolve_ext w' w). }
  assert (U : forall t', lookup (snd (sweep_table now0 d t' rest)) (d ++ [n])%list
                         = lookup t' (d ++ [n])%list).
  { intros t'. apply sweep_untouched. intros x Hx E. apply snoc_inj in E. congruence. }
  assert (Stop : forall w1, entries w1 = entries w ->
            filter (fun x => negb (present d (entries w1) x)) (n :: rest) = []).
  { intros w1 E1. apply filter_none. intros x Hx. unfold present. rewrite E1.
    specialize (Hl x Hx). destruct (lookup (entries w) (d ++ [x])%list); [reflexivity|congruence]. }
  revert SL. rewrite for_each_cons. cbn [sweep_table].
  destruct (sweep_entry this now0 n w) as [o w1] eqn:E. cbn [fst snd] in *.
  destruct (lookup (entries w) (d ++ [n])%list) as [[m' r' d'|m'|]|] eqn:L.
  - destruct S as [-> S].
    destruct (now0 - m' >? oneHour)%Z eqn:O.
    + assert (HT1 : resolve w1 (tempDir this) = Found d (Dir m)).
      { unfold resolve in HT |- *. rewrite C, S.
        destruct (negb (nonempty (tempDir this))); [discriminate|].
        apply walk_remove; [now rewrite L|apply snoc_neq_nil|exact HT]. }
      assert (Hl1 : forall x, In x rest -> lookup (entries w1) (d ++ [x])%list <> None).
      { intros x Hx. rewrite S, lookup_remove_other; [apply Hl; now right|].
        intros Q. apply snoc_inj in Q. congruence. }
      intros SL. rewrite (IH w1 Hrest Hdr Hl1 HT1), K.
      cbn [filter]. unfold present at 2. rewrite SL, U, lookup_remove_same.
      cbn [negb map]. now rewrite <- app_assoc.
    + assert (HT1 : resolve w1 (tempDir this) = Found d (Dir m)) by (apply Keep; assumption).
      assert (Hl1 : forall x, In x rest -> lookup (entries w1) (d ++ [x])%list <> None).
      { intros x Hx. rewrite S. apply Hl. now right. }
      intros SL. rewrite (IH w1 Hrest Hdr Hl1 HT1), K.
      cbn [filter]. unfold present at 2. rewrite SL, U, L. reflexivity.
  - destruct S as [S Ot]. destruct (now0 - m' >? oneHour)%Z eqn:O.
    + destruct Ot as [e ->]. intros _. cbn [snd]. rewrite K, (Stop w1 S). cbn.
      now rewrite app_nil_r.
    + subst o.
      assert (HT1 : resolve w1 (tempDir this) = Found d (Dir m)) by (apply Keep; assumption).
      assert (Hl1 : forall x, In x rest -> lookup (entries w1) (d ++ [x])%list <> None).
      { intros x Hx. rewrite S. apply Hl. now right. }
      intros SL. rewrite (IH w1 Hrest Hdr Hl1 HT1), K.
      cbn [filter]. unfold present at 2. rewrite SL, U, L. reflexivity.
  - destruct S as [S [e ->]]. intros _. cbn [snd]. rewrite K, (Stop w1 S). cbn.
    now rewrite app_nil_r.
  - exfalso. apply (Hl n); [now left|exact L].
Qed.

End SweepLog.

(** ** Entries that stop the sweep *)

Section SweepClear.
Variables (now0 : Z) (d : Key).

Lemma failing_dec (t : list (Key * Node)) n :
  failing now0 d t n \/ ~ failing now0 d t n.
Proof.
  unfold failing. destruct (lookup t (d ++ [n])%list) as [[m r dt|m|]|]; auto.
  destruct (now0 - m >? oneHour)%Z; [now left|right; discriminate].
Qed.

Lemma failing_remove (t : list (Key * Node)) n x :
  x <> n -> failing now0 d (remove t (d ++ [n])%list) x <-> failing now0 d t x.
Proof.
  intros H. unfold failing. rewrite lookup_remove_other; [tauto|].
  intros E. apply snoc_inj in E. congruence.
Qed.

(** A listed name is either the first one that fails, after names that do
    not, or no listed name fails. *)
Lemma first_failure (t : list (Key * Node)) names :
  (forall n, In n names -> ~ failing now0 d t n) \/
  exists pre n post,
    names = (pre ++ n :: post)%list /\
    (forall x, In x pre -> ~ failing now0 d t x) /\ failing now0 d t n.
Proof.
  induction names as [|a rest IH]; [left; intros n []|].
  destruct (failing_dec t a) as [F|F].
  - right. exists [], a, rest. split; [reflexivity|]. split; [intros x []|exact F].
  - destruct IH as [IH|(pre & n & post & E & P & Fn)].
    + left. intros n [<-|Hn]; auto.
    + right. exists (a :: pre), n, post. split; [now rewrite E|].
      split; [|exact Fn]. intros x [<-|Hx]; auto.
Qed.

(** Without a failing entry the sweep goes through the whole listing and
    handles every name. *)
Lemma sweep_clear names : forall t,
  NoDup names -> (forall n, In n names -> ~ failing now0 d t n) ->
  fst (sweep_table now0 d t names) = false /\
  forall n, In n names ->
    lookup (snd (sweep_table now0 d t names)) (d ++ [n])%list =
    after_sweep now0 (lookup t (d ++ [n])%list).
Proof.
  induction names as [|n0 rest IH]; intros t Hd Hf; [split; [reflexivity|intros n []]|].
  inversion Hd as [|? ? Hn0 Hrest]; subst.
  assert (Hf' : forall x, In x rest -> ~ failing now0 d t x)
    by (intros x Hx; apply Hf; now right).
  pose proof (Hf n0 (or_introl eq_refl)) as F0. unfold failing in F0.
  assert (U : forall t', lookup (snd (sweep_table now0 d t' rest)) (d ++ [n0])%list
                         = lookup t' (d ++ [n0])%list).
  { intros t'. apply sweep_untouched. intros x Hx E. apply snoc_inj in E. congruence. }
  cbn [sweep_table].
  destruct (lookup t (d ++ [n0])%list) as [[m0 r0 d0|m0|]|] eqn:L0;
    try (exfalso; exact (F0 I)).
  - destruct (now0 - m0 >? oneHour)%Z eqn:O.
    + assert (Hf1 : forall x, In x rest -> ~ failing now0 d (remove t (d ++ [n0])%list) x).
      { intros x Hx. rewrite failing_remove; [now apply Hf'|]. intros ->. contradiction. }
      destruct (IH _ Hrest Hf1) as [I1 I2]. split; [assumption|].
      intros n [E|Hn].
      * subst n. rewrite U, lookup_remove_same, L0. cbn [after_sweep]. now rewrite O.
      * rewrite I2 by assumption. rewrite lookup_remove_other; [reflexivity|].
        intros E. apply snoc_inj in E. congruence.
    + destruct (IH t Hrest Hf') as [I1 I2]. split; [assumption|].
      intros n [E|Hn]; [|now apply I2].
      subst n. rewrite U, L0. cbn [after_sweep]. now rewrite O.
  - destruct (now0 - m0 >? oneHour)%Z eqn:O; [exfalso; now apply F0|].
    destruct (IH t Hrest Hf') as [I1 I2]. split; [assumption|].
    intros n [E|Hn]; [|now apply I2].
    subst n. rewrite U, L0. reflexivity.
Qed.

Lemma sweep_app_clear pre : forall t post,
  NoDup pre -> (forall n, In n pre -> ~ failing now0 d t n) ->
  sweep_table now0 d t (pre ++ post) =
  sweep_table now0 d (snd (sweep_table now0 d t pre)) post.
Proof.
  induction pre as [|n0 rest IH]; intros t post Hd Hf; [reflexivity|].
  inversion Hd as [|? ? Hn0 Hrest]; subst.
  assert (Hf' : forall x, In x rest -> ~ failing now0 d t x)
    by (intros x Hx; apply Hf; now right).
  pose proof (Hf n0 (or_introl eq_refl)) as F0. unfold failing in F0.
  cbn [app sweep_table].
  destruct (lookup t (d ++ [n0])%list) as [[m0 r0 d0|m0|]|] eqn:L0;
    try (exfalso; exact (F0 I)).
  - destruct (now0 - m0 >? oneHour)%Z; [|now apply IH].
    apply IH; [assumption|].
    intros x Hx. rewrite failing_remove; [now apply Hf'|]. intros ->. contradiction.
  - destruct (now0 - m0 >? oneHour)%Z; [exfalso; now apply F0|now apply IH].
Qed.

(** The first failing entry ends the sweep: the table is the one the
    names before it leave. *)
Lemma sweep_stops_clear (t : list (Key * Node)) pre n post :
  NoDup (pre ++ n :: post) ->
  (forall x, In x pre -> ~ failing now0 d t x) -> failing now0 d t n ->
  fst (sweep_table now0 d t (pre ++ n :: post)) = true /\
  snd (sweep_table now0 d t (pre ++ n :: post)) = snd (sweep_table now0 d t pre).
Proof.
  intros Hd Hf Hn.
  assert (Hp : NoDup pre) by (apply NoDup_app_remove_r in Hd; assumption).
  assert (Hnp : ~ In n pre).
  { intros I. apply NoDup_remove_2 in Hd. apply Hd. apply in_or_app. now left. }
  rewrite sweep_app_clear by assumption.
  set (t1 := snd (sweep_table now0 d t pre)).
  assert (L : lookup t1 (d ++ [n])%list = lookup t (d ++ [n])%list).
  { apply sweep_untouched. intros x Hx E. apply snoc_inj in E. congruence. }
  unfold failing in Hn. cbn [sweep_table]. rewrite L.
  destruct (lookup t (d ++ [n])%list) as [[m' r' d'|m'|]|]; try contradiction; auto.
  rewrite Hn. auto.
Qed.

(** Names listed from the failing one on are not among the ones before. *)
Lemma NoDup_app_disjoint {A} (pre post : list A) x :
  NoDup (pre ++ post) -> In x post -> ~ In x pre.
Proof.
  induction pre as [|y pre IH]; [tauto|]. cbn [app]. intros ND Hx [->|Hp].
  - inversion ND as [|? ? Hy _]; subst. apply Hy. apply in_or_app. now right.
  - inversion ND; subst. now apply IH.
Qed.
End SweepClear.

Section SweepStop.
Local Arguments resolve : simpl never.
Local Arguments String.append : simpl never.
Local Arguments posix.join : simpl never.
Local Opaque oneHour.

Variable this : FileHandler.t.
Variables (abs : bool) (l : list string).
Hypothesis T_form : tempDir this = render abs l.
Hypothesis T_normal : normal_stack isPosixPathSeparator (negb abs) l = true.
Hypothesis T_nonnil : l <> [].
Variables (d : Key) (m : Z).

(** The error a failing entry throws: the one of [unlinkSync] on an old
    directory, the one of [statSync] on a name with nothing behind it. *)
Lemma sweep_entry_error now0 n w :
  plain isPosixPathSeparator n = true ->
  resolve w (tempDir this) = Found d (Dir m) ->
  failing now0 d (entries w) n ->
  sweep_entry this now0 n w = (Throw (stop_error this d (entries w) n), w).
Proof.
  intros Hn HT F. unfold sweep_entry, stop_error, failing in *. cbv zeta.
  rewrite T_form, posix_join_child by assumption. rewrite <- T_form.
  pose proof (resolve_child w _ n d m
                (tempDir_nonempty this abs l T_form T_normal T_nonnil) Hn HT) as R.
  unfold bind, statSync, unlinkSync, console_log, print, modify, ret.
  destruct (lookup (entries w) (d ++ [n])%list) as [[m' r' d'|m'|]|];
    try contradiction; rewrite R; cbn; try reflexivity.
  rewrite F. rewrite R. reflexivity.
Qed.

Lemma for_each_app {A} (f : A -> M World unit) pre post : forall w,
  for_each (pre ++ post) f w =
  match for_each pre f w with
  | (Return _, w1) => for_each post f w1
  | (Throw e, w1) => (Throw e, w1)
  end.
Proof.
  induction pre as [|a pre IH]; intros w; [reflexivity|].
  cbn [app]. rewrite !for_each_cons. destruct (f a w) as [[[]|e] w1]; [apply IH|reflexivity].
Qed.

(** The scratch root is still there after the sweep of any names. *)
Lemma resolve_after_sweep now0 names w w1 :
  resolve w (tempDir this) = Found d (Dir m) ->
  entries w1 = snd (sweep_table now0 d (entries w) names) -> cwd w1 = cwd w ->
  resolve w1 (tempDir this) = Found d (Dir m).
Proof.
  intros HT E C. unfold resolve in *. rewrite C, E.
  destruct (negb (nonempty (tempDir this))); [discriminate|].
  revert HT. apply walk_dirs_preserved. intros q mq L.
  destruct (sweep_table_safe now0 d names (entries w) q)
    as [S|(S & n & m' & r & dt & _ & _ & F & _)]; congruence.
Qed.

Lemma for_each_clear now0 names w :
  Forall (fun n => plain isPosixPathSeparator n = true) names -> NoDup names ->
  resolve w (tempDir this) = Found d (Dir m) ->
  (forall n, In n names -> ~ failing now0 d (entries w) n) ->
  fst (for_each names (sweep_entry this now0) w) = Return tt.
Proof.
  intros PL ND HT Hf.
  destruct (sweep_loop this abs l T_form T_normal T_nonnil d m now0 names w PL HT)
    as (_ & _ & I3).
  destruct (sweep_clear now0 d names (entries w) ND Hf) as [F _].
  cbv zeta in I3.
  destruct (fst (for_each names (sweep_entry this now0) w)) as [[]|e];
    [reflexivity|congruence].
Qed.

(** The loop leaves at the first failing entry, with its error. *)
Lemma for_each_stops now0 pre n post w :
  Forall (fun n => plain isPosixPathSeparator n = true) (pre ++ n :: post) ->
  NoDup (pre ++ n :: post) ->
  resolve w (tempDir this) = Found d (Dir m) ->
  (forall x, In x pre -> ~ failing now0 d (entries w) x) ->
  failing now0 d (entries w) n ->
  for_each (pre ++ n :: post) (sweep_entry this now0) w =
  (Throw (stop_error this d (entries w) n),
   snd (for_each pre (sweep_entry this now0) w)).
Proof.
  intros PL ND HT Hpre Hn.
  apply Forall_app in PL as [PLp PLn]. inversion PLn as [|? ? Pn _]; subst.
  assert (NDp : NoDup pre) by (apply NoDup_app_remove_r in ND; assumption).
  assert (Hnp : ~ In n pre) by (apply (NoDup_app_disjoint _ _ _ ND); now left).
  rewrite for_each_app.
  pose proof (for_each_clear now0 pre w PLp NDp HT Hpre) as C.
  destruct (sweep_loop this abs l T_form T_normal T_nonnil d m now0 pre w PLp HT)
    as (I1 & I2 & _).
  cbv zeta in I1, I2.
  destruct (for_each pre (sweep_entry this now0) w) as [o w1]. cbn [fst snd] in *. subst o.
  rewrite for_each_cons.
  assert (HT1 : resolve w1 (tempDir this) = Found d (Dir m))
    by (eapply resolve_after_sweep; eauto).
  assert (L : lookup (entries w1) (d ++ [n])%list = lookup (entries w) (d ++ [n])%list).
  { rewrite I1. apply sweep_untouched. intros x Hx E. apply snoc_inj in E. congruence. }
  rewrite (sweep_entry_error now0 n w1 Pn HT1) by (unfold failing in *; now rewrite L).
  unfold stop_error. now rewrite L.
Qed.

(** What the sweep prints after the lines of the loop: nothing when no
    entry fails, the error of the first failing entry otherwise. *)
Lemma cleanupOldFiles_console w :
  wf_table (entries w) = true ->
  resolve w (tempDir this) = Found d (Dir m) ->
  let r := cleanupOldFiles this w in
  let names := children (entries w) d in
  let printed :=
    (console w ++
     map deleted_line
       (filter (fun n => negb (present d (entries (snd r)) n)) names))%list in
  ((forall n, In n names -> ~ failing (now w) d (entries w) n) ->
     console (snd r) = printed) /\
  (forall pre n post,
     names = (pre ++ n :: post)%list ->
     (forall x, In x pre -> ~ failing (now w) d (entries w) x) ->
     failing (now w) d (entries w) n ->
     console (snd r) =
     (printed ++ [Err "Error cleaning up old files:" (stop_error this d (entries w) n)])%list).
Proof.
  intros W HT. cbv zeta.
  apply andb_true_iff in W as [WD WP].
  assert (PL : Forall (fun n => plain isPosixPathSeparator n = true) (children (entries w) d))
    by now apply children_plain.
  assert (ND : NoDup (children (entries w) d))
    by (apply children_NoDup; now apply distinct_NoDup).
  assert (HL : forall n, In n (children (entries w) d) ->
                 lookup (entries w) (d ++ [n])%list <> None).
  { intros n I. apply children_In in I as [x I].
    exact (lookup_in _ _ _ I (snoc_neq_nil d n)). }
  destruct (cleanupOldFiles_refines this abs l T_form T_normal T_nonnil d m w PL HT)
    as (_ & R2 & R3).
  destruct (sweep_loop this abs l T_form T_normal T_nonnil d m (now w) _ w PL HT)
    as (SL & _ & _).
  pose proof (for_each_console this abs l T_form T_normal T_nonnil d m (now w) _ w PL ND HL HT)
    as FC.
  cbv zeta in R2, R3, SL, FC. rewrite SL in FC. rewrite R2, R3, FC. split.
  - intros Hf. now rewrite (for_each_clear (now w) _ w PL ND HT Hf).
  - intros pre n post E Hpre Hn. rewrite E in PL, ND.
    pose proof (for_each_stops (now w) pre n post w PL ND HT Hpre Hn) as St.
    rewrite <- E in St. now rewrite St.
Qed.

End SweepStop.

Section SweepOutcome.
Local Arguments resolve : simpl never.
Local Arguments String.append : simpl never.
Local Arguments posix.join : simpl never.
Local Opaque oneHour.

(** C2. The sweep stops at the first entry it cannot examine or delete.
    In a scratch root that holds an old file, a subdirectory and another
    old file, in this order, three hours after they were written, the
    first file is deleted, [unlinkSync] refuses the directory, the one
    handler around the whole loop prints the error, and the second old
    file is never examined: it stays.

    What does hold, for every state: the sweep never throws.  For a
    scratch root built by the constructor, in a table without duplicate
    paths, it touches nothing but the listed entries; either no listed
    entry fails or there is a first one that does; when none fails, every
    listed entry has been handled (a regular file older than one hour,
    3,600,000 ms, is gone, every other entry is as it was) and only
    deletions are printed; and at the first failing entry the entries
    before it have been handled, that entry and the ones after it are as
    they were, and its error is the last thing printed. *)
Theorem sweep_until_first_failure :
  (let this := Scenario.scratch in
   let w := Scenario.world_sweep in
   let d := Scenario.scratch_key in
   let r := cleanupOldFiles this w in
   ~ sweep_deletes_every_old_entry this d w /\
   children (entries w) d = ["a.bin"; "cache"; "z.bin"] /\
   lookup (entries w) (d ++ ["z.bin"])%list = Some (File 0 true [Byte.x02]) /\
   (now w - 0 >? 60 * 60 * 1000)%Z = true /\
   lookup (entries (snd r)) (d ++ ["a.bin"])%list = None /\
   lookup (entries (snd r)) (d ++ ["cache"])%list = Some (Dir 0) /\
   lookup (entries (snd r)) (d ++ ["z.bin"])%list = Some (File 0 true [Byte.x02]) /\
   console (snd r) =
     [Out "Cleaned up old temp file: a.bin";
      Err "Error cleaning up old files:"
          (syserr "EISDIR" "unlink" "/tmp/chrome-mcp-uploads/cache")]) /\
  (forall this w, fst (cleanupOldFiles this w) = Return tt) /\
  (forall (os_tmpdir : string) (w : World) (d : Key) (m : Z),
     let this := FileHandler.mk (posix.join [os_tmpdir; "chrome-mcp-uploads"]) in
     let r := cleanupOldFiles this w in
     let t := entries w in
     let t' := entries (snd r) in
     let names := children t d in
     wf_table t = true ->
     resolve w (tempDir this) = Found d (Dir m) ->
     (forall k, (forall n, In n names -> k <> (d ++ [n])%list) ->
        lookup t' k = lookup t k) /\
     ((forall n, In n names -> ~ failing (now w) d t n) \/
      exists pre n post,
        names = (pre ++ n :: post)%list /\
        (forall x, In x pre -> ~ failing (now w) d t x) /\ failing (now w) d t n) /\
     ((forall n, In n names -> ~ failing (now w) d t n) ->
        (forall n, In n names ->
           lookup t' (d ++ [n])%list = after_sweep (now w) (lookup t (d ++ [n])%list)) /\
        exists deleted, console (snd r) = (console w ++ map deleted_line deleted)%list) /\
     (forall pre n post,
        names = (pre ++ n :: post)%list ->
        (forall x, In x pre -> ~ failing (now w) d t x) ->
        failing (now w) d t n ->
        (forall x, In x pre ->
           lookup t' (d ++ [x])%list = after_sweep (now w) (lookup t (d ++ [x])%list)) /\
        (forall x, In x (n :: post) ->
           lookup t' (d ++ [x])%list = lookup t (d ++ [x])%list) /\
        exists deleted,
          console (snd r) =
          (console w ++ map deleted_line deleted ++
           [Err "Error cleaning up old files:" (stop_error this d t n)])%list)).
Proof.
  split; [|split; [apply cleanupOldFiles_returns|]].
  { cbv zeta. split.
    - intros H. specialize (H "z.bin" 0%Z true [Byte.x02] eq_refl eq_refl).
      vm_compute in H. discriminate H.
    - vm_compute. repeat split. }
  intros os_tmpdir w d m this r t t' names W HT. subst names t' t r.
  set (names := children (entries w) d).
  destruct (tempDir_normal os_tmpdir) as (abs & l & TF & TN & TL).
  destruct (cleanupOldFiles_console this abs l TF TN TL d m w W HT) as [K1 K2].
  cbv zeta in K1, K2. fold names in K1, K2.
  apply andb_true_iff in W as [WD WP].
  assert (ND : NoDup names) by (apply children_NoDup; now apply distinct_NoDup).
  assert (PL : Forall (fun n => plain isPosixPathSeparator n = true) names)
    by now apply children_plain.
  destruct (cleanupOldFiles_refines this abs l TF TN TL d m w PL HT) as (_ & R2 & _).
  cbv zeta in R2. fold names in R2.
  split; [|split; [apply first_failure|split]].
  - intros k Hk. rewrite R2. now apply sweep_untouched.
  - intros Hf. split.
    + intros n Hn. rewrite R2.
      now apply (proj2 (sweep_clear (now w) d names (entries w) ND Hf)).
    + eexists. apply (K1 Hf).
  - intros pre n post E Hpre Fn.
    assert (NDp : NoDup pre) by (rewrite E in ND; now apply NoDup_app_remove_r in ND).
    rewrite E in R2, ND.
    destruct (sweep_stops_clear (now w) d (entries w) pre n post ND Hpre Fn) as (_ & S3).
    split; [|split].
    + intros x Hx. rewrite R2, S3.
      now apply (proj2 (sweep_clear (now w) d pre (entries w) NDp Hpre)).
    + intros x Hx. rewrite R2, S3. apply sweep_untouched. intros y Hy Eq.
      apply snoc_inj in Eq. subst y. exact (NoDup_app_disjoint _ _ _ ND Hx Hy).
    + eexists. rewrite (K2 pre n post E Hpre Fn), <- app_assoc. reflexivity.
Qed.

End SweepOutcome.

Section SweepLogTheorem.
Local Arguments resolve : simpl never.
Local Arguments String.append : simpl never.
Local Arguments posix.join : simpl never.
Local Opaque oneHour.

(** X22. What the sweep prints: one line [Cleaned up old temp file: <name>]
    for each entry it deleted, in listing order, and nothing else when no
    listed entry fails; when one does, these lines are followed by one
    call of [console.error] with the message
    [Error cleaning up old files:] and the error of the first failing
    entry, the one of [unlinkSync] on a directory older than one hour or
    the one of [statSync] on a dangling link. *)
Theorem sweep_logs_each_deletion (os_tmpdir : string) (w : World) (d : Key) (m : Z) :
  let this := FileHandler.mk (posix.join [os_tmpdir; "chrome-mcp-uploads"]) in
  let r := cleanupOldFiles this w in
  let names := children (entries w) d in
  let printed :=
    (console w ++
     map deleted_line
       (filter (fun n => negb (present d (entries (snd r)) n)) names))%list in
  wf_table (entries w) = true ->
  resolve w (tempDir this) = Found d (Dir m) ->
  ((forall n, In n names -> ~ failing (now w) d (entries w) n) ->
     console (snd r) = printed) /\
  (forall pre n post,
     names = (pre ++ n :: post)%list ->
     (forall x, In x pre -> ~ failing (now w) d (entries w) x) ->
     failing (now w) d (entries w) n ->
     console (snd r) =
     (printed ++ [Err "Error cleaning up old files:" (stop_error this d (entries w) n)])%list /\
     stop_error this d (entries w) n =
       match lookup (entries w) (d ++ [n])%list with
       | Some (Dir _) => syserr "EISDIR" "unlink" (tempDir this ++ "/" ++ n)
       | _ => syserr "ENOENT" "stat" (tempDir this ++ "/" ++ n)
       end).
Proof.
  intros this r names printed W HT. subst printed names r.
  destruct (tempDir_normal os_tmpdir) as (abs & l & TF & TN & TL).
  destruct (cleanupOldFiles_console this abs l TF TN TL d m w W HT) as [K1 K2].
  cbv zeta in K1, K2. split; [exact K1|].
  intros pre n post E Hpre Fn. split; [exact (K2 pre n post E Hpre Fn)|].
  assert (Pn : plain isPosixPathSeparator n = true).
  { apply andb_true_iff in W as [_ WP].
    pose proof (children_plain (entries w) d WP) as PL. rewrite E in PL.
    apply Forall_app in PL as [_ PL]. now inversion PL. }
  unfold stop_error. cbv zeta.
  change (tempDir this) with (posix.join [os_tmpdir; "chrome-mcp-uploads"]).
  rewrite TF, posix_join_child by assumption. reflexivity.
Qed.

End SweepLogTheorem.

(** ** The constructor *)

Lemma mkdirp_snoc (mt : Z) (t : list (Key * Node)) c :
  plain isPosixPathSeparator c = true ->
  forall cs cur d m,
  walk t cur cs = Found d (Dir m) ->
  mkdirp mt t cur (cs ++ [c]) =
  match lookup t (d ++ [c])%list with
  | Some (Dir _) => inr t
  | Some (File _ _ _) | Some DanglingLink => inl "EEXIST"
  | None => inr (t ++ [((d ++ [c])%list, Dir mt)])%list
  end.
Proof.
  intros Hc.
  assert (E0 : String.eqb c "" || String.eqb c "." = false).
  { unfold plain in Hc. repeat (apply andb_true_iff in Hc as [Hc ?]).
    destruct c; [discriminate|]. apply negb_true_iff in H0. now rewrite H0. }
  assert (E2 : String.eqb c ".." = false) by now apply (plain_not_dots isPosixPathSeparator).
  induction cs as [|x rest IH]; intros cur d m H.
  - cbn [walk] in H. destruct (lookup t cur) as [n|]; [|discriminate].
    injection H as -> ->. cbn [app mkdirp]. rewrite E0, E2.
    destruct (lookup t (d ++ [c])%list) as [[| |]|]; reflexivity.
  - cbn [walk] in H. cbn [app mkdirp].
    destruct (lookup t cur) as [[| |]|]; try discriminate.
    destruct (String.eqb x "" || String.eqb x "."); [now apply (IH _ _ m)|].
    destruct (String.eqb x ".."); [now apply (IH _ _ m)|].
    destruct (lookup t (cur ++ [x])%list) as [n|] eqn:L.
    + pose proof (walk_start_dir _ _ _ _ _ H) as S. rewrite L in S.
      destruct n as [| m1 |]; try discriminate S. now apply (IH _ _ m).
    + destruct rest; discriminate.
Qed.

Section Constructor.
Local Arguments resolve : simpl never.
Local Arguments String.append : simpl never.
Local Arguments posix.join : simpl never.

Variables (abs : bool) (l : list string).
Hypothesis l_normal : normal_stack isPosixPathSeparator (negb abs) l = true.
Hypothesis l_nonnil : l <> [].

Lemma new_run w d m :
  resolve w (render abs l) = Found d (Dir m) ->
  FileHandler.new (render abs l) w =
  match lookup (entries w) (d ++ ["chrome-mcp-uploads"])%list with
  | None =>
      (Return (FileHandler.mk (render abs l ++ "/chrome-mcp-uploads")),
       set_entries (entries w ++ [((d ++ ["chrome-mcp-uploads"])%list, Dir (now w))])%list w)
  | Some (Dir _) | Some (File _ _ _) =>
      (Return (FileHandler.mk (render abs l ++ "/chrome-mcp-uploads")), w)
  | Some DanglingLink =>
      (Throw (syserr "EEXIST" "mkdir" (render abs l ++ "/chrome-mcp-uploads")), w)
  end.
Proof.
  intros R. unfold FileHandler.new.
  rewrite posix_join_child by (auto; reflexivity).
  assert (NE : nonempty (render abs l) = true) by (eapply render_nonempty; eauto).
  pose proof (resolve_child w _ "chrome-mcp-uploads" d m NE eq_refl R) as RC.
  change ("/" ++ "chrome-mcp-uploads") with "/chrome-mcp-uploads" in *.
  unfold bind, existsSync, ret. rewrite RC.
  destruct (lookup (entries w) (d ++ ["chrome-mcp-uploads"])%list) as [[mf rf df|md|]|] eqn:L;
    cbn [negb]; try reflexivity.
  - unfold mkdirSync_recursive.
    rewrite (nonempty_append_l _ _ NE). cbn [negb].
    assert (A : posix.isAbsolute (render abs l ++ "/chrome-mcp-uploads")
                = posix.isAbsolute (render abs l)).
    { unfold posix.isAbsolute. now rewrite first_char_append. }
    rewrite A.
    change (render abs l ++ "/chrome-mcp-uploads")
      with (render abs l ++ String "/"%char "chrome-mcp-uploads") at 1.
    rewrite split_app_sep by reflexivity.
    change (split isPosixPathSeparator "chrome-mcp-uploads") with ["chrome-mcp-uploads"].
    unfold resolve in R. rewrite NE in R. cbn [negb] in R.
    rewrite (mkdirp_snoc (now w) (entries w) "chrome-mcp-uploads" eq_refl _ _ _ _ R), L. reflexivity.
  - unfold mkdirSync_recursive.
    rewrite (nonempty_append_l _ _ NE). cbn [negb].
    assert (A : posix.isAbsolute (render abs l ++ "/chrome-mcp-uploads")
                = posix.isAbsolute (render abs l)).
    { unfold posix.isAbsolute. now rewrite first_char_append. }
    rewrite A.
    change (render abs l ++ "/chrome-mcp-uploads")
      with (render abs l ++ String "/"%char "chrome-mcp-uploads") at 1.
    rewrite split_app_sep by reflexivity.
    change (split isPosixPathSeparator "chrome-mcp-uploads") with ["chrome-mcp-uploads"].
    unfold resolve in R. rewrite NE in R. cbn [negb] in R.
    rewrite (mkdirp_snoc (now w) (entries w) "chrome-mcp-uploads" eq_refl _ _ _ _ R), L. reflexivity.
Qed.

(** X12. The constructor, for a temporary directory that exists: it creates
    the scratch root [<tmp>/chrome-mcp-uploads] when the name is free and
    changes nothing when a directory (or a file) already has it; once it
    has returned, the scratch root is a directory unless a regular file
    holds its name, and constructing a second handler changes nothing. *)
Theorem constructor_creates_scratch_root (w : World) (d : Key) (m : Z) :
  resolve w (render abs l) = Found d (Dir m) ->
  let root := (d ++ ["chrome-mcp-uploads"])%list in
  let r := FileHandler.new (render abs l) w in
  (match lookup (entries w) root with
   | None =>
       r = (Return (FileHandler.mk (render abs l ++ "/chrome-mcp-uploads")),
            set_entries (entries w ++ [(root, Dir (now w))])%list w)
   | Some (Dir _) | Some (File _ _ _) =>
       r = (Return (FileHandler.mk (render abs l ++ "/chrome-mcp-uploads")), w)
   | Some DanglingLink => exists e, r = (Throw e, w)
   end) /\
  (forall h w1, r = (Return h, w1) ->
     FileHandler.new (render abs l) w1 = (Return h, w1) /\
     (forall k x, lookup (entries w) k = Some x -> lookup (entries w1) k = Some x) /\
     ((exists mf rf df, lookup (entries w) root = Some (File mf rf df)) \/
      exists mr, resolve w1 (tempDir h) = Found root (Dir mr))).
Proof.
  intros R root r. subst r. rewrite (new_run w d m R). fold root.
  assert (NE : nonempty (render abs l) = true) by (eapply render_nonempty; eauto).
  destruct (lookup (entries w) root) as [[mf rf df|md|]|] eqn:L.
  - split; [reflexivity|]. intros h w1 H. injection H as <- <-.
    rewrite (new_run w d m R). fold root. rewrite L. eauto 10.
  - split; [reflexivity|]. intros h w1 H. injection H as <- <-.
    rewrite (new_run w d m R). fold root. rewrite L.
    split; [reflexivity|]. split; [auto|]. right. exists md. cbn [tempDir].
    change (render abs l ++ "/chrome-mcp-uploads")
      with (render abs l ++ "/" ++ "chrome-mcp-uploads").
    rewrite (resolve_child w _ "chrome-mcp-uploads" d m NE eq_refl R). fold root.
    now rewrite L.
  - split; [eauto|]. intros h w1 H. discriminate H.
  - split; [reflexivity|]. intros h w1 H. injection H as <- <-.
    set (w1 := set_entries (entries w ++ [(root, Dir (now w))])%list w).
    assert (Nr : root <> []).
    { unfold root. intros X. apply app_eq_nil in X as [_ X]. discriminate. }
    assert (O : forall k x, lookup (entries w) k = Some x -> lookup (entries w1) k = Some x).
    { intros k x Hk. cbn. rewrite lookup_snoc_other; [assumption|]. congruence. }
    assert (R1 : resolve w1 (render abs l) = Found d (Dir m)).
    { unfold resolve in R |- *. cbn [cwd w1 set_entries].
      destruct (negb (nonempty (render abs l))); [discriminate|].
      apply (walk_dirs_preserved (entries w)); [|assumption].
      intros q mq. apply O. }
    assert (L1 : lookup (entries w1) root = Some (Dir (now w))).
    { cbn. now apply lookup_snoc_same. }
    split; [|split; [exact O|]].
    + rewrite (new_run w1 d m R1). fold root. now rewrite L1.
    + right. exists (now w). cbn [tempDir].
      change (render abs l ++ "/chrome-mcp-uploads")
        with (render abs l ++ "/" ++ "chrome-mcp-uploads").
      rewrite (resolve_child w1 _ "chrome-mcp-uploads" d m NE eq_refl R1). fold root.
      now rewrite L1.
Qed.

End Constructor.

(** ** Extensions *)

Lemma substring_app_skip (a x : string) n :
  substring (String.length a) n (a ++ x) = substring 0 n x.
Proof. induction a as [|c a IH]; [reflexivity|]. cbn. exact IH. Qed.

Lemma substring_prefix (a x : string) : substring 0 (String.length a) (a ++ x) = a.
Proof.
  induction a as [|c a IH]; [now destruct x|]. cbn. now rewrite IH.
Qed.

Lemma last_index_of_none c s : last_index_of c s = None <-> has_char c s = false.
Proof.
  induction s as [|d s IH]; cbn; [tauto|].
  destruct (last_index_of c s) as [i|].
  - split; [discriminate|]. intros H. apply orb_false_iff in H as [_ H].
    apply IH in H. discriminate.
  - destruct (Ascii.eqb d c); cbn; [split; discriminate|]. tauto.
Qed.

Lemma last_index_of_app c a b :
  last_index_of c (a ++ b) =
  match last_index_of c b with
  | Some i => Some (String.length a + i)
  | None => last_index_of c a
  end.
Proof.
  induction a as [|d a IH]; cbn.
  - now destruct (last_index_of c b).
  - rewrite IH. destruct (last_index_of c b); reflexivity.
Qed.

Lemma last_index_of_split c s : forall i,
  last_index_of c s = Some i ->
  exists a b, s = a ++ String c b /\ String.length a = i /\ has_char c b = false.
Proof.
  induction s as [|d s IH]; intros i; cbn; [discriminate|].
  destruct (last_index_of c s) as [j|] eqn:L.
  - intros H. injection H as <-. destruct (IH j eq_refl) as (a & b & -> & <- & Hb).
    exists (String d a), b. auto.
  - destruct (Ascii.eqb_spec d c) as [->|]; [|discriminate].
    intros H. injection H as <-. exists "", s. split; [reflexivity|]. split; [reflexivity|].
    now apply last_index_of_none.
Qed.

Lemma hex_no_dot r : has_char "." (hex r) = false.
Proof.
  induction r as [|b r IH]; [reflexivity|]. cbn [hex].
  assert (H : forall x y, has_char "." (x ++ y) = has_char "." x || has_char "." y).
  { intros x y. induction x; cbn; [reflexivity|]. rewrite IHx. now rewrite orb_assoc. }
  rewrite H, IH, orb_false_r. destruct b; reflexivity.
Qed.

Lemma has_char_app c x y : has_char c (x ++ y) = has_char c x || has_char c y.
Proof. induction x; cbn; [reflexivity|]. rewrite IHx. now rewrite orb_assoc. Qed.

Lemma eqb_length_neq (a b : string) :
  String.length a <> String.length b -> String.eqb a b = false.
Proof.
  intros H. destruct (String.eqb_spec a b); [subst; congruence|reflexivity].
Qed.

(** A name is its stem followed by its extension, and [basename(b, ext)]
    is the stem. *)
Lemma ext_of_stem b :
  no_sep isPosixPathSeparator b = true -> b <> ".." ->
  exists stem,
    b = stem ++ posix.ext_of b /\
    posix.basename_suffix b (posix.ext_of b) = stem /\
    ((posix.ext_of b = "" /\
      (last_index_of "." b = None \/ last_index_of "." b = Some 0)) \/
     (nonempty stem = true /\
      exists e, posix.ext_of b = String "." e /\ has_char "." e = false)).
Proof.
  intros Hs Hd. unfold posix.ext_of.
  assert (E0 : posix.basename_suffix b "" = b).
  { unfold posix.basename_suffix. cbn. now apply basename_of_no_sep. }
  destruct (last_index_of "." b) as [[|i]|] eqn:L.
  - exists b. rewrite append_nil_r. split; [reflexivity|]. split; [exact E0|]. left. auto.
  - destruct (String.eqb_spec b ".."); [contradiction|].
    destruct (last_index_of_split _ _ _ L) as (a & e & -> & La & He).
    rewrite <- La. rewrite length_append.
    replace (String.length a + String.length (String "." e) - String.length a)
      with (String.length (String "." e)) by lia.
    rewrite substring_app_skip, substring_all.
    exists a. split; [reflexivity|]. split.
    + unfold posix.basename_suffix. cbn [nonempty negb orb].
      rewrite length_append.
      assert (Q1 : (String.length a + String.length (String "." e) <?
                    String.length (String "." e))%nat = false) by (apply Nat.ltb_ge; lia).
      rewrite Q1.
      assert (Q2 : String.eqb (String "." e) (a ++ String "." e) = false).
      { apply eqb_length_neq. rewrite length_append. lia. }
      rewrite Q2, (basename_of_no_sep _ Hs).
      assert (Q3 : nonempty (a ++ String "." e) = true) by now apply nonempty_append_r.
      rewrite Q3. cbn [negb].
      unfold ends_with. rewrite length_append.
      assert (Q4 : (String.length (String "." e) <=?
                    String.length a + String.length (String "." e))%nat = true)
        by (apply Nat.leb_le; lia).
      rewrite Q4.
      replace (String.length a + String.length (String "." e) - String.length (String "." e))
        with (String.length a) by lia.
      rewrite substring_app_skip, substring_all, String.eqb_refl. cbn [andb].
      assert (Q5 : (String.length a + String.length (String "." e) =?
                    String.length (String "." e))%nat = false) by (apply Nat.eqb_neq; lia).
      rewrite Q5. apply substring_prefix.
    + right. split; [destruct a; [discriminate La|reflexivity]|]. eauto.
  - exists b. rewrite append_nil_r. split; [reflexivity|]. split; [exact E0|]. left. auto.
Qed.

(** A file name built around an extension keeps it. *)
Lemma ext_of_inserted pre e :
  nonempty pre = true -> has_char "." e = false ->
  pre ++ String "." e <> ".." ->
  posix.ext_of (pre ++ String "." e) = String "." e.
Proof.
  intros Hp He Hn. unfold posix.ext_of. rewrite last_index_of_app. cbn [last_index_of].
  rewrite (proj2 (last_index_of_none "." e) He). cbn.
  rewrite Nat.add_0_r. destruct pre as [|c pre]; [discriminate|].
  cbn [String.length].
  destruct (String.eqb_spec (String c pre ++ String "." e) "..") as [E|_]; [contradiction|].
  change (S (String.length pre)) with (String.length (String c pre)).
  rewrite length_append.
  replace (String.length (String c pre) + String.length (String "." e) - String.length (String c pre))
    with (String.length (String "." e)) by lia.
  now rewrite substring_app_skip, substring_all.
Qed.

Section Extension.
Variable url_pathname : string -> option string.
Local Arguments String.append : simpl never.

Lemma dashed_not_dots pre e : has_char "-" pre = true -> pre ++ e <> "..".
Proof.
  intros H E. apply (f_equal (has_char "-")) in E. rewrite has_char_app, H in E.
  discriminate E.
Qed.

Lemma usable_basename_no_sep url b :
  usable_basename url_pathname url = Some b ->
  no_sep isPosixPathSeparator b = true.
Proof.
  unfold usable_basename. destruct (truthy url); [|discriminate].
  destruct (url_pathname (value url)) as [s|]; [|discriminate]. cbv zeta.
  destruct (nonempty (posix.basename s) && negb (String.eqb (posix.basename s) "/"));
    [|discriminate].
  intros H. injection H as <-. apply basename_no_sep.
Qed.

(** X9. A synthesized name keeps the extension of the last segment of the
    URL: the hyphen and the eight hexadecimal digits are inserted between
    the stem and the extension; a fully random name has the extension
    [.bin]. *)
Theorem synthesized_name_keeps_extension (url : option string) (w : World) (n : string) :
  fst (generateFileName url_pathname url w) = Return n ->
  match usable_basename url_pathname url with
  | Some b =>
      b <> ".." ->
      exists stem,
        b = stem ++ posix.extname b /\
        n = stem ++ "-" ++ hex (window w (epos w) 4) ++ posix.extname b /\
        posix.extname n = posix.extname b
  | None =>
      n = "upload-" ++ hex (window w (epos w) 8) ++ ".bin" /\
      posix.extname n = ".bin"
  end.
Proof.
  rewrite generateFileName_run.
  destruct (usable_basename url_pathname url) as [b|] eqn:U; cbn [fst];
    intros H; injection H as <-.
  - intros Hd. pose proof (usable_basename_no_sep _ _ U) as Hs.
    pose proof (suffixed_name_plain b (window w (epos w) 4) Hs) as Pn.
    apply plain_no_sep in Pn.
    unfold posix.extname at 3. rewrite (basename_of_no_sep _ Pn).
    unfold suffixed_name in *. unfold posix.extname. rewrite (basename_of_no_sep _ Hs).
    destruct (ext_of_stem b Hs Hd) as (stem & Eb & Es & C).
    exists stem. split; [exact Eb|]. rewrite Es. split; [reflexivity|].
    destruct C as [[E0 L]|(Hst & e & Ee & He)].
    + rewrite E0 in *. rewrite append_nil_r in Eb. subst stem.
      unfold posix.ext_of. rewrite last_index_of_app.
      assert (N : last_index_of "." ("-" ++ hex (window w (epos w) 4) ++ "") = None).
      { apply last_index_of_none. rewrite !has_char_app, hex_no_dot. reflexivity. }
      rewrite N. destruct L as [-> | ->]; reflexivity.
    + rewrite Ee. rewrite <- !append_assoc.
      apply ext_of_inserted;
        [apply nonempty_append_l; now apply nonempty_append_l|exact He|].
      apply dashed_not_dots.
      rewrite !has_char_app. cbn. now rewrite orb_true_r.
  - split; [reflexivity|]. unfold random_upload_name.
    assert (Pn : no_sep isPosixPathSeparator ("upload-" ++ hex (window w (epos w) 8) ++ ".bin") = true).
    { apply plain_no_sep. apply random_upload_name_plain. }
    unfold posix.extname. rewrite (basename_of_no_sep _ Pn).
    rewrite <- append_assoc.
    change ".bin" with (String "." "bin").
    apply ext_of_inserted; [now apply nonempty_append_l|reflexivity|].
    apply dashed_not_dots. now rewrite has_char_app.
Qed.

End Extension.

(** ** Browsers *)

Section Browsers.
Import BrowserConfig.

Lemma detect_shape (command_succeeds existsSync : string -> bool) (platform : string) :
  let l := detectInstalledBrowsers command_succeeds existsSync platform in
  l = [] \/ l = [CHROME] \/ l = [CHROMIUM] \/ l = [CHROME; CHROMIUM].
Proof.
  cbv zeta. unfold detectInstalledBrowsers.
  destruct (String.eqb platform "win32").
  { cbn [fold_left fst snd app].
    repeat match goal with
           | |- context [if command_succeeds ?c then _ else _] =>
               destruct (command_succeeds c); cbn [app]
           end; auto. }
  destruct (String.eqb platform "darwin").
  { cbn [fold_left fst snd app].
    repeat match goal with
           | |- context [if existsSync ?c then _ else _] =>
               destruct (existsSync c); cbn [app]
           end; auto. }
  cbn [fold_left fst snd app try_commands String.append].
  destruct (command_succeeds "which google-chrome 2>/dev/null");
    destruct (command_succeeds "which google-chrome-stable 2>/dev/null");
    destruct (command_succeeds "which chromium 2>/dev/null");
    destruct (command_succeeds "which chromium-browser 2>/dev/null");
    cbn [app]; auto.
Qed.

(** X13. Detection lists each installed browser once, Chrome first, whatever
    the platform; on Linux a browser is listed exactly when [which] finds
    one of its two commands. *)
Theorem detected_browsers_are_listed_once
  (command_succeeds existsSync : string -> bool) (platform : string) :
  let l := detectInstalledBrowsers command_succeeds existsSync platform in
  NoDup l /\
  (l = [] \/ l = [CHROME] \/ l = [CHROMIUM] \/ l = [CHROME; CHROMIUM]) /\
  (String.eqb platform "win32" = false -> String.eqb platform "darwin" = false ->
   (In CHROME l <->
      command_succeeds "which google-chrome 2>/dev/null" = true \/
      command_succeeds "which google-chrome-stable 2>/dev/null" = true) /\
   (In CHROMIUM l <->
      command_succeeds "which chromium 2>/dev/null" = true \/
      command_succeeds "which chromium-browser 2>/dev/null" = true)).
Proof.
  cbv zeta.
  pose proof (detect_shape command_succeeds existsSync platform) as Sh. cbv zeta in Sh.
  split; [|split; [exact Sh|]].
  - destruct Sh as [-> | [-> | [-> | ->]]]; repeat constructor;
      cbn; intros H; repeat destruct H as [H|H]; try discriminate H; exact H.
  - clear Sh. intros W D. unfold detectInstalledBrowsers. rewrite W, D.
    cbn [fold_left fst snd app try_commands String.append].
    destruct (command_succeeds "which google-chrome 2>/dev/null");
      destruct (command_succeeds "which google-chrome-stable 2>/dev/null");
      destruct (command_succeeds "which chromium 2>/dev/null");
      destruct (command_succeeds "which chromium-browser 2>/dev/null");
      cbn [app In];
      (split; split; intros H;
       repeat match goal with
              | H : _ \/ _ |- _ => destruct H
              | H : False |- _ => destruct H
              end;
       try discriminate; try congruence; auto).
Qed.

Lemma lower_upper c : lower (upper c) = lower c.
Proof. destruct c as [[] [] [] [] [] [] [] []]; reflexivity. Qed.

Lemma toLowerCase_capitalize s : toLowerCase (capitalize s) = toLowerCase s.
Proof. destruct s as [|c r]; [reflexivity|]. cbn. now rewrite lower_upper. Qed.

Variable HOST_NAME : string.

(** X15. The display name of a browser, its name with a capital first letter,
    is read back by [parseBrowserType] as the name itself is; every
    configuration of [getAllBrowserConfigs] is found again from its display
    name, and there is one per browser, Chrome first. *)
Theorem display_name_parses_back (env : Env) :
  (forall b, parseBrowserType (displayName (getBrowserConfig HOST_NAME env b))
             = parseBrowserType b) /\
  (forall c, In c (getAllBrowserConfigs HOST_NAME env) ->
     parseBrowserType (displayName c) = Some (type c) /\
     c = getBrowserConfig HOST_NAME env (type c)) /\
  map type (getAllBrowserConfigs HOST_NAME env) = [CHROME; CHROMIUM].
Proof.
  split; [|split].
  - intros b. cbn [displayName getBrowserConfig]. unfold parseBrowserType. cbv zeta.
    now rewrite toLowerCase_capitalize.
  - intros c [<-|[<-|[]]]; split; reflexivity.
  - reflexivity.
Qed.

End Browsers.

Section Configs.
Import BrowserConfig.
Variable HOST_NAME : string.
Hypothesis host_clean : no_sep isPathSeparator HOST_NAME = true.

Local Arguments String.append : simpl never.
Local Arguments win32.join : simpl never.
Local Arguments posix.join : simpl never.
Local Arguments win32.normalize : simpl never.
Local Arguments posix.normalize : simpl never.

Lemma win_manifest_join root (mid : list string) :
  drive_rooted root = true ->
  Forall (fun x => plain isPathSeparator x = true) mid ->
  win32.join (root :: mid ++ ["NativeMessagingHosts"; manifest HOST_NAME])%list =
  win_dir root ++ String.concat "\" (mid ++ ["NativeMessagingHosts"; manifest HOST_NAME])%list.
Proof.
  intros R M. apply win32_join_rooted; [assumption| |].
  - apply Forall_app. split; [assumption|].
    repeat constructor. now apply manifest_plain_win.
  - intros E. apply app_eq_nil in E as [_ E]. discriminate.
Qed.

Lemma posix_manifest_join root (mid : list string) :
  posix.isAbsolute root = true ->
  Forall (fun x => plain isPosixPathSeparator x = true) mid ->
  posix.join (root :: mid ++ [manifest HOST_NAME])%list =
  posix_dir root ++ String.concat "/" (mid ++ [manifest HOST_NAME])%list.
Proof.
  intros R M. apply posix_join_rooted; [assumption| |].
  - apply Forall_app. split; [assumption|].
    repeat constructor. now apply manifest_plain_posix.
  - intros E. apply app_eq_nil in E as [_ E]. discriminate.
Qed.

Ltac use_join J :=
  let H := fresh "J" in pose proof J as H; cbn [app] in H; rewrite H; clear H.


(** X16. The manifests of Chrome and of Chromium are two different files, at
    either tier and on every platform: registering one browser never
    overwrites the manifest of the other. *)
Theorem browsers_have_distinct_manifests (env : Env) (tier : Tier) :
  well_rooted env = true ->
  manifest_path HOST_NAME env CHROME tier <> manifest_path HOST_NAME env CHROMIUM tier.
Proof.
  intros R.
  unfold manifest_path, getUserManifestPathForBrowser, getSystemManifestPathForBrowser.
  cbv zeta.
  change (or_else (APPDATA env) (win32.join [homedir env; "AppData"; "Roaming"]))
    with (appData env).
  change (or_else (ProgramFiles env) "C:\Program Files") with (programFiles env).
  change (String.eqb (platform env) "win32") with (is_win32 env).
  change (String.eqb (platform env) "darwin") with (is_darwin env).
  unfold CHROME, CHROMIUM. cbn [String.eqb Ascii.eqb Bool.eqb].
  destruct (is_win32 env) eqn:W.
  - pose proof (appData_rooted env W R) as RA.
    pose proof (programFiles_rooted env W R) as RP.
    destruct tier.
    + use_join (win_manifest_join (appData env) ["Google"; "Chrome"] RA ltac:(repeat constructor)).
      use_join (win_manifest_join (appData env) ["Chromium"] RA ltac:(repeat constructor)).
      intros E. apply append_inv_head in E. discriminate E.
    + use_join (win_manifest_join (programFiles env) ["Google"; "Chrome"] RP ltac:(repeat constructor)).
      use_join (win_manifest_join (programFiles env) ["Chromium"] RP ltac:(repeat constructor)).
      intros E. apply append_inv_head in E. discriminate E.
  - assert (A : posix.isAbsolute (homedir env) = true).
    { unfold well_rooted in R. now rewrite W in R. }
    destruct (is_darwin env); destruct tier.
    + use_join (posix_manifest_join (homedir env)
                 ["Library"; "Application Support"; "Google"; "Chrome"; "NativeMessagingHosts"] A ltac:(repeat constructor)).
      use_join (posix_manifest_join (homedir env)
                 ["Library"; "Application Support"; "Chromium"; "NativeMessagingHosts"] A ltac:(repeat constructor)).
      intros E. apply append_inv_head in E. discriminate E.
    + use_join (posix_manifest_join "/Library" ["Google"; "Chrome"; "NativeMessagingHosts"] eq_refl ltac:(repeat constructor)).
      use_join (posix_manifest_join "/Library"
                 ["Application Support"; "Chromium"; "NativeMessagingHosts"] eq_refl ltac:(repeat constructor)).
      intros E. apply append_inv_head in E. discriminate E.
    + use_join (posix_manifest_join (homedir env)
                 [".config"; "google-chrome"; "NativeMessagingHosts"] A ltac:(repeat constructor)).
      use_join (posix_manifest_join (homedir env)
                 [".config"; "chromium"; "NativeMessagingHosts"] A ltac:(repeat constructor)).
      intros E. apply append_inv_head in E. discriminate E.
    + use_join (posix_manifest_join "/etc" ["opt"; "chrome"; "native-messaging-hosts"] eq_refl ltac:(repeat constructor)).
      use_join (posix_manifest_join "/etc" ["chromium"; "native-messaging-hosts"] eq_refl ltac:(repeat constructor)).
      intros E. apply append_inv_head in E. discriminate E.
Qed.

End Configs.

(** ** The command line *)

Section CliTheorems.
Import BrowserConfig Cli.

Lemma parseBrowserType_some s b :
  parseBrowserType s = Some b -> b = CHROME \/ b = CHROMIUM.
Proof.
  unfold parseBrowserType. cbv zeta. cbn [find].
  destruct (String.eqb CHROME (toLowerCase s)); [intros H; injection H as <-; now left|].
  destruct (String.eqb CHROMIUM (toLowerCase s)); [intros H; injection H as <-; now right|].
  discriminate.
Qed.

Lemma parseBrowserType_lower s :
  parseBrowserType s =
  if String.eqb CHROME (toLowerCase s) then Some CHROME
  else if String.eqb CHROMIUM (toLowerCase s) then Some CHROMIUM
  else None.
Proof. reflexivity. Qed.

(** X17. The browsers the [register] command selects.  The list is never
    empty: an empty detection is replaced by [undefined], which leaves the
    choice to the user-level registration.  A [--browser] option decides
    alone, whatever [--detect] says and finds: [all], in any letter case,
    selects Chrome and Chromium, [chrome] and [chromium], in any letter
    case, select that one browser, and any other text ends the command
    with exit code 1 before anything is registered.  Without a [--browser]
    option the command never ends that way: [--detect] selects what was
    detected, if anything was, and nothing is selected otherwise. *)
Theorem selected_browsers_are_never_empty (options : Options) (p : Process) :
  (forall l, targetBrowsers options p = inr (Some l) -> l <> []) /\
  (forall s, browser options = Some s -> nonempty s = true ->
     (toLowerCase s = "all" ->
        targetBrowsers options p = inr (Some [CHROME; CHROMIUM])) /\
     (toLowerCase s = "chrome" ->
        targetBrowsers options p = inr (Some [CHROME])) /\
     (toLowerCase s = "chromium" ->
        targetBrowsers options p = inr (Some [CHROMIUM])) /\
     (toLowerCase s <> "all" -> toLowerCase s <> "chrome" ->
      toLowerCase s <> "chromium" ->
        targetBrowsers options p = inl tt /\
        register options p = mkRun None None 1) /\
     (forall detect' p',
        targetBrowsers
          (mkOptions (force options) (system options) (browser options) detect') p'
        = targetBrowsers options p)) /\
  (truthy (browser options) = false ->
     (detect options = true -> detected p <> [] ->
        targetBrowsers options p = inr (Some (detected p))) /\
     (detect options = false \/ detected p = [] ->
        targetBrowsers options p = inr None)) /\
  (targetBrowsers options p = inl tt ->
     truthy (browser options) = true /\
     register options p = mkRun None None 1).
Proof.
  split; [|split; [|split]].
  - unfold targetBrowsers. destruct (truthy (browser options)).
    + destruct (String.eqb _ "all"); [intros l H; injection H as <-; discriminate|].
      destruct (parseBrowserType _); [|discriminate].
      intros l H. injection H as <-. discriminate.
    + destruct (detect options); [|discriminate].
      destruct (detected p) as [|b l']; [discriminate|].
      intros l H. injection H as <-. discriminate.
  - intros s B N. unfold register, targetBrowsers. cbn [browser detect].
    rewrite B. cbn [truthy]. rewrite N. rewrite parseBrowserType_lower.
    split; [intros ->; reflexivity|]. split; [intros ->; reflexivity|].
    split; [intros ->; reflexivity|]. split; [|reflexivity].
    intros A C1 C2. apply String.eqb_neq in A, C1, C2.
    rewrite A, (String.eqb_sym CHROME), (String.eqb_sym CHROMIUM).
    change CHROME with "chrome". change CHROMIUM with "chromium".
    rewrite C1, C2. split; reflexivity.
  - intros T. unfold targetBrowsers. rewrite T. split.
    + intros -> D. destruct (detected p); [congruence|reflexivity].
    + intros [-> | ->]; [reflexivity|]. destruct (detect options); reflexivity.
  - unfold register, targetBrowsers.
    destruct (truthy (browser options)).
    + destruct (String.eqb _ "all"); [discriminate|].
      destruct (parseBrowserType _); [discriminate|auto].
    + destruct (detect options); [|discriminate].
      destruct (detected p); discriminate.
Qed.

(** X18. At the system tier the browser selection has no effect: whatever
    [--browser] and [--detect] select, as long as the browser name is
    valid, the same registration runs and ends with the same exit code. *)
Theorem system_tier_ignores_browser_selection (options1 options2 : Options) (p : Process) :
  resolveTier options1 p = SystemTier ->
  system options2 = system options1 ->
  targetBrowsers options1 p <> inl tt ->
  targetBrowsers options2 p <> inl tt ->
  register options1 p = register options2 p /\
  register options1 p = mkRun (Some SystemTier) None (if elevated_ok p then 0 else 1).
Proof.
  intros T S V1 V2.
  assert (T2 : resolveTier options2 p = SystemTier).
  { unfold resolveTier in *. now rewrite S. }
  unfold register. rewrite T, T2.
  destruct (targetBrowsers options1 p) as [[]|t1]; [congruence|].
  destruct (targetBrowsers options2 p) as [[]|t2]; [congruence|].
  split; reflexivity.
Qed.

End CliTheorems.

(** ** The port of [update-port] *)

Section Port.
Import Cli.








End Port.

Section RegisterTargets.
Import BrowserConfig Cli.

(** X23. The browsers that [register] hands to the user-level
    registration, when detection is the one of
    [detectInstalledBrowsers]: the list names Chrome, Chromium or both,
    each once and Chrome first; it is never empty and never names another
    browser. *)
Theorem registered_browsers_are_supported (options : Options) (p : Process)
  (command_succeeds existsSync : string -> bool) :
  detected p = detectInstalledBrowsers command_succeeds existsSync (proc_platform p) ->
  forall l, targets (register options p) = Some l ->
    l = [CHROME] \/ l = [CHROMIUM] \/ l = [CHROME; CHROMIUM].
Proof.
  intros D l. unfold register.
  destruct (targetBrowsers options p) as [[]|t] eqn:T; [discriminate|].
  destruct (resolveTier options p); cbn [targets]; [|discriminate].
  intros ->. revert T. unfold targetBrowsers.
  destruct (truthy (browser options)).
  - destruct (String.eqb (toLowerCase match browser options with Some s => s | None => "" end) "all").
    + intros H. injection H as <-. auto.
    + destruct (parseBrowserType match browser options with Some s => s | None => "" end)
        as [b|] eqn:P; [|discriminate].
      intros H. injection H as <-.
      destruct (parseBrowserType_some _ _ P) as [-> | ->]; auto.
  - destruct (detect options); [|discriminate].
    pose proof (detect_shape command_succeeds existsSync (proc_platform p)) as Sh.
    cbv zeta in Sh. rewrite <- D in Sh.
    destruct (detected p) as [|b r]; [discriminate|].
    intros H. injection H as <-.
    destruct Sh as [Sh|[Sh|[Sh|Sh]]]; [discriminate Sh|auto..].
Qed.

End RegisterTargets.

(** ** The theorems at concrete inputs *)

Section Instances.
Import BrowserConfig.


(** Two stagings of one report. *)
Lemma staged_names_distinct_witness :
  let url := "https://example.org/files/report.pdf" in
  let w := Scenario.world_system in
  let d1 := downloadFile Scenario.url_pathname0 Scenario.scratch url None w in
  let d2 := downloadFile Scenario.url_pathname0 Scenario.scratch url None (snd d1) in
  window w (epos w) 4 <> window w (epos w + 4) 4 /\
  window w (epos w) 8 <> window w (epos w + 8) 8 /\
  fst d1 = Return (Staged "/tmp/chrome-mcp-uploads/report-00010203.pdf"
                     "report-00010203.pdf" 2) /\
  fst d2 = Return (Staged "/tmp/chrome-mcp-uploads/report-04050607.pdf"
                     "report-04050607.pdf" 2) /\
  "report-00010203.pdf" <> "report-04050607.pdf" /\
  exists k1 m r buf,
    last k1 "" = "report-00010203.pdf" /\
    lookup (entries (snd d2)) k1 = Some (File m r buf).
Proof.
  cbv zeta.
  assert (H4 : window Scenario.world_system (epos Scenario.world_system) 4
               <> window Scenario.world_system (epos Scenario.world_system + 4) 4)
    by (intros H; vm_compute in H; discriminate H).
  assert (H8 : window Scenario.world_system (epos Scenario.world_system) 8
               <> window Scenario.world_system (epos Scenario.world_system + 8) 8)
    by (intros H; vm_compute in H; discriminate H).
  split; [exact H4|]. split; [exact H8|].
  split; [vm_compute; reflexivity|]. split; [vm_compute; reflexivity|].
  destruct (staged_names_distinct Scenario.url_pathname0 Scenario.scratch
              "https://example.org/files/report.pdf" Scenario.world_system H4 H8)
    as [_ F].
  destruct (F None None _ _ _ _ _ _ _ _ eq_refl eq_refl
              (surjective_pairing _) (surjective_pairing _))
    as (N & _ & k1 & m & r & buf & Z & _ & _ & L).
  split; [exact N|]. exists k1, m, r, buf. split; [exact Z|exact L].
Defined.

(** The user-tier manifest of Chrome on Linux and on Windows. *)
Lemma manifest_path_shape_witness :
  no_sep isPathSeparator Scenario.host_name = true /\
  well_rooted Scenario.env_linux = true /\
  well_rooted Scenario.env_windows = true /\
  is_absolute Scenario.env_linux
    (manifest_path Scenario.host_name Scenario.env_linux CHROME UserTier) = true /\
  is_absolute Scenario.env_windows
    (manifest_path Scenario.host_name Scenario.env_windows CHROME SystemTier) = true.
Proof.
  split; [reflexivity|]. split; [reflexivity|]. split; [reflexivity|]. split.
  - exact (proj1 (proj2 (manifest_path_shape Scenario.host_name eq_refl
                           Scenario.env_linux CHROME UserTier eq_refl eq_refl eq_refl))).
  - exact (proj1 (proj2 (manifest_path_shape Scenario.host_name eq_refl
                           Scenario.env_windows CHROME SystemTier eq_refl eq_refl eq_refl))).
Defined.

(** A variant that is not enumerated, on Linux and on Windows. *)
Lemma unknown_variant_falls_back_witness :
  "firefox" <> CHROME /\ "firefox" <> CHROMIUM /\
  well_rooted Scenario.env_linux = true /\
  well_rooted Scenario.env_windows = true /\
  (getUserManifestPathForBrowser Scenario.host_name Scenario.env_linux "firefox" =
     "/home/ada/.config/google-chrome/NativeMessagingHosts/com.chromemcp.nativehost.json" /\
   getSystemManifestPathForBrowser Scenario.host_name Scenario.env_linux "firefox" =
     "/etc/opt/chrome/native-messaging-hosts/com.chromemcp.nativehost.json") /\
  (getUserManifestPathForBrowser Scenario.host_name Scenario.env_windows "firefox" =
     "C:\Users\ada\AppData\Roaming\Google\Chrome\NativeMessagingHosts\com.chromemcp.nativehost.json" /\
   getSystemManifestPathForBrowser Scenario.host_name Scenario.env_windows "firefox" =
     "C:\Program Files\Google\Chrome\NativeMessagingHosts\com.chromemcp.nativehost.json").
Proof.
  assert (H1 : "firefox" <> CHROME) by discriminate.
  assert (H2 : "firefox" <> CHROMIUM) by discriminate.
  split; [exact H1|]. split; [exact H2|]. split; [reflexivity|]. split; [reflexivity|].
  split.
  - exact (proj2 (proj2 (proj2 (proj2
             (proj2 (unknown_variant_falls_back Scenario.host_name eq_refl
                       Scenario.env_linux "firefox" H1 H2) eq_refl))))).
  - exact (proj2 (proj2 (proj2 (proj2
             (proj2 (unknown_variant_falls_back Scenario.host_name eq_refl
                       Scenario.env_windows "firefox" H1 H2) eq_refl))))).
Defined.

(** Staging the password file by its path, and a path that is not there. *)
Lemma stage_existing_path_witness :
  let request p := mkRequest (Some "prepareFile") None None None (Some p) in
  let handle p :=
    handleFileRequest Scenario.url_pathname0 Scenario.base64_decode0
      Scenario.scratch (request p) Scenario.world_system in
  verifiable Scenario.world_system "/etc/passwd" = Some 1 /\
  fst (existsSync "/etc/shadow" Scenario.world_system) = Return false /\
  fst (handle "/etc/passwd") = Return (Some (Staged "/etc/passwd" "passwd" 1)) /\
  fst (handle "/etc/shadow") =
    Return (Some (Failure
      "Failed to verify file: Error: File does not exist: /etc/shadow")) /\
  snd (handle "/etc/shadow") = Scenario.world_system.
Proof.
  cbv zeta.
  pose proof (stage_existing_path Scenario.url_pathname0 Scenario.base64_decode0
                Scenario.scratch
                (mkRequest (Some "prepareFile") None None None (Some "/etc/passwd"))
                "/etc/passwd" Scenario.world_system
                eq_refl eq_refl eq_refl eq_refl eq_refl) as (_ & A & _).
  pose proof (stage_existing_path Scenario.url_pathname0 Scenario.base64_decode0
                Scenario.scratch
                (mkRequest (Some "prepareFile") None None None (Some "/etc/shadow"))
                "/etc/shadow" Scenario.world_system
                eq_refl eq_refl eq_refl eq_refl eq_refl) as (B & _ & _ & C).
  split; [reflexivity|]. split; [reflexivity|].
  split; [exact (A 1 eq_refl)|]. split; [exact (C eq_refl)|exact B].
Defined.

(** Cleaning up a name that is not in the scratch root. *)
Lemma cleanup_absent_is_noop_witness :
  let p := "/tmp/chrome-mcp-uploads/gone.bin" in
  starts_with p (tempDir Scenario.scratch) = true /\
  fst (existsSync p Scenario.world_system) = Return false /\
  cleanupFile Scenario.scratch (Some p) Scenario.world_system =
    (Return (Cleaned "File cleaned up successfully"), Scenario.world_system).
Proof.
  cbv zeta. split; [reflexivity|]. split; [reflexivity|].
  exact (proj1 (cleanup_absent_is_noop Scenario.url_pathname0 Scenario.base64_decode0
                  Scenario.scratch "/tmp/chrome-mcp-uploads/gone.bin"
                  Scenario.world_system eq_refl eq_refl)).
Defined.
End Instances.

(** ** The further theorems at concrete inputs *)

Section MoreInstances.
Import BrowserConfig.

Lemma staged_file_holds_the_payload_witness :
  let handle := handleFileRequest Scenario.url_pathname0 Scenario.base64_decode1 Scenario.scratch in
  let r := handle Scenario.stage_report Scenario.world_system in
  fst r = Return (Some (Staged "/tmp/chrome-mcp-uploads/report-00010203.pdf"
                          "report-00010203.pdf" 2)) /\
  exists buf k rd,
    net Scenario.world_system Scenario.report_url
      = Return (mkResponse true "OK" (Return buf)) /\
    resolve (snd r) "/tmp/chrome-mcp-uploads/report-00010203.pdf"
      = Found k (File 1000 rd buf).
Proof.
  cbv zeta. split; [vm_compute; reflexivity|].
  destruct (staged_file_holds_the_payload Scenario.url_pathname0 Scenario.base64_decode1
              Scenario.scratch Scenario.stage_report Scenario.world_system
              "/tmp/chrome-mcp-uploads/report-00010203.pdf" "report-00010203.pdf" 2
              (snd (handleFileRequest Scenario.url_pathname0 Scenario.base64_decode1
                      Scenario.scratch Scenario.stage_report Scenario.world_system))
              ltac:(vm_compute; reflexivity) (or_introl eq_refl))
    as (buf & k & rd & B & _ & _ & _ & R & _).
  cbn [truthy fileUrl Scenario.stage_report nonempty Scenario.report_url value] in B.
  destruct B as (resp & N & O & Bd).
  exists buf, k, rd. split; [|exact R].
  vm_compute in N. injection N as <-. vm_compute in Bd. injection Bd as <-. reflexivity.
Defined.


Lemma unnamed_staging_stays_in_root_witness :
  let handle := handleFileRequest Scenario.url_pathname0 Scenario.base64_decode1 Scenario.scratch in
  let r := handle Scenario.stage_report Scenario.world_system in
  let p := "/tmp/chrome-mcp-uploads/report-00010203.pdf" in
  fst r = Return (Some (Staged p "report-00010203.pdf" 2)) /\
  resolve Scenario.world_system (tempDir Scenario.scratch)
    = Found Scenario.scratch_key (Dir 0) /\
  plain isPosixPathSeparator "report-00010203.pdf" = true /\
  starts_with p (tempDir Scenario.scratch) = true /\
  resolves_inside (snd r) (tempDir Scenario.scratch) p = true.
Proof.
  cbv zeta. split; [vm_compute; reflexivity|]. split; [reflexivity|].
  destruct (unnamed_staging_stays_in_root Scenario.url_pathname0 Scenario.base64_decode1
              "/tmp" Scenario.stage_report Scenario.world_system
              "/tmp/chrome-mcp-uploads/report-00010203.pdf" "report-00010203.pdf" 2
              (snd (handleFileRequest Scenario.url_pathname0 Scenario.base64_decode1
                      Scenario.scratch Scenario.stage_report Scenario.world_system))
              ltac:(vm_compute; reflexivity) (or_introl eq_refl) eq_refl)
    as (P & _ & S & I).
  split; [exact P|]. split; [exact S|].
  exact (proj1 (I Scenario.scratch_key 0%Z eq_refl)).
Defined.

Lemma stage_verify_cleanup_round_trip_witness :
  let handle := handleFileRequest Scenario.url_pathname0 Scenario.base64_decode1 Scenario.scratch in
  let p := "/tmp/chrome-mcp-uploads/report-00010203.pdf" in
  let w1 := snd (handle Scenario.stage_report Scenario.world_system) in
  fst (handle Scenario.stage_report Scenario.world_system)
    = Return (Some (Staged p "report-00010203.pdf" 2)) /\
  fst (existsSync p Scenario.world_system) = Return false /\
  handle (mkRequest (Some "prepareFile") None None None (Some p)) w1
    = (Return (Some (Staged p "report-00010203.pdf" 2)), w1) /\
  exists w2,
    handle (mkRequest (Some "cleanupFile") None None None (Some p)) w1
      = (Return (Some (Cleaned "File cleaned up successfully")), w2) /\
    entries w2 = entries Scenario.world_system.
Proof.
  cbv zeta. split; [vm_compute; reflexivity|]. split; [reflexivity|].
  exact (stage_verify_cleanup_round_trip Scenario.url_pathname0 Scenario.base64_decode1
           "/tmp" Scenario.stage_report Scenario.world_system
           "/tmp/chrome-mcp-uploads/report-00010203.pdf" "report-00010203.pdf" 2
           (snd (handleFileRequest Scenario.url_pathname0 Scenario.base64_decode1
                   Scenario.scratch Scenario.stage_report Scenario.world_system))
           ltac:(vm_compute; reflexivity) (or_introl eq_refl) eq_refl eq_refl).
Defined.

Lemma unnamed_base64_stagings_collide_witness :
  let handle := handleFileRequest Scenario.url_pathname0 Scenario.base64_decode1 Scenario.scratch in
  let p := "/tmp/chrome-mcp-uploads/upload-1000.bin" in
  let w := Scenario.world_system in
  let w1 := snd (handle (Scenario.stage_data "aGk=") w) in
  let w2 := snd (handle (Scenario.stage_data "eW8=") (set_now 1000 w1)) in
  fst (handle (Scenario.stage_data "aGk=") w) = Return (Some (Staged p "upload-1000.bin" 2)) /\
  fst (handle (Scenario.stage_data "eW8=") (set_now 1000 w1))
    = Return (Some (Staged p "upload-1000.bin" 2)) /\
  exists k r1 r2,
    resolve w1 p = Found k (File 1000 r1 [Byte.x68; Byte.x69]) /\
    resolve w2 p = Found k (File 1000 r2 [Byte.x79; Byte.x6f]).
Proof.
  cbv zeta. split; [vm_compute; reflexivity|]. split; [vm_compute; reflexivity|].
  destruct (unnamed_base64_stagings_collide Scenario.url_pathname0 Scenario.base64_decode1
              Scenario.scratch (Scenario.stage_data "aGk=") (Scenario.stage_data "eW8=")
              Scenario.world_system 1000%Z
              "/tmp/chrome-mcp-uploads/upload-1000.bin" "upload-1000.bin" 2
              (snd (handleFileRequest Scenario.url_pathname0 Scenario.base64_decode1
                      Scenario.scratch (Scenario.stage_data "aGk=") Scenario.world_system))
              "/tmp/chrome-mcp-uploads/upload-1000.bin" "upload-1000.bin" 2
              (snd (handleFileRequest Scenario.url_pathname0 Scenario.base64_decode1
                      Scenario.scratch (Scenario.stage_data "eW8=")
                      (set_now 1000
                         (snd (handleFileRequest Scenario.url_pathname0
                                 Scenario.base64_decode1 Scenario.scratch
                                 (Scenario.stage_data "aGk=") Scenario.world_system)))))
              ltac:(vm_compute; reflexivity) ltac:(vm_compute; reflexivity)
              eq_refl eq_refl eq_refl eq_refl eq_refl eq_refl)
    as (_ & _ & _ & C).
  exact (C eq_refl).
Defined.

Lemma caller_name_is_joined_as_is_witness :
  let handle := handleFileRequest Scenario.url_pathname0 Scenario.base64_decode1 Scenario.scratch in
  let request :=
    mkRequest (Some "prepareFile") (Some Scenario.report_url) None (Some "../notes.txt") None in
  fst (handle request Scenario.world_system)
    = Return (Some (Staged "/tmp/notes.txt" "../notes.txt" 2)) /\
  plain isPosixPathSeparator "notes.txt" = true /\
  "/tmp/notes.txt" = posix.join ["/tmp"; "notes.txt"] /\
  starts_with "/tmp/notes.txt" (tempDir Scenario.scratch ++ "/") = false.
Proof.
  cbv zeta. split; [vm_compute; reflexivity|]. split; [reflexivity|].
  exact (proj2 (caller_name_is_joined_as_is Scenario.url_pathname0 Scenario.base64_decode1
           "/tmp"
           (mkRequest (Some "prepareFile") (Some Scenario.report_url) None
              (Some "../notes.txt") None)
           Scenario.world_system "/tmp/notes.txt" "../notes.txt" 2
           (snd (handleFileRequest Scenario.url_pathname0 Scenario.base64_decode1
                   Scenario.scratch
                   (mkRequest (Some "prepareFile") (Some Scenario.report_url) None
                      (Some "../notes.txt") None)
                   Scenario.world_system))
           "notes.txt"
           ltac:(vm_compute; reflexivity) (or_introl eq_refl) eq_refl eq_refl)).
Defined.

Lemma data_url_prefix_is_dropped_witness :
  let url := "data:text/plain;charset=utf-8;base64,aGk=" in
  all_chars header_char "text/plain;charset=utf-8" = true /\
  String.prefix "data:" "aGk=" = false /\
  strip_data_url_prefix url = "aGk=" /\
  saveBase64File Scenario.base64_decode1 Scenario.scratch url None Scenario.world_system
    = saveBase64File Scenario.base64_decode1 Scenario.scratch "aGk=" None Scenario.world_system.
Proof.
  cbv zeta. split; [reflexivity|]. split; [reflexivity|].
  destruct (data_url_prefix_is_dropped Scenario.base64_decode1 Scenario.scratch
              "text/plain;charset=utf-8" "aGk=" None Scenario.world_system eq_refl eq_refl)
    as (A & B & _).
  split; [exact A|exact B].
Defined.

Lemma synthesized_name_keeps_extension_witness :
  fst (generateFileName Scenario.url_pathname0 (Some Scenario.report_url) Scenario.world_system)
    = Return "report-00010203.pdf" /\
  posix.extname "report-00010203.pdf" = posix.extname "report.pdf".
Proof.
  split; [vm_compute; reflexivity|].
  pose proof (synthesized_name_keeps_extension Scenario.url_pathname0
                (Some Scenario.report_url) Scenario.world_system "report-00010203.pdf"
                ltac:(vm_compute; reflexivity)) as H.
  change (usable_basename Scenario.url_pathname0 (Some Scenario.report_url))
    with (Some "report.pdf") in H.
  destruct (H ltac:(discriminate)) as (stem & _ & _ & E). exact E.
Defined.

Lemma sweep_removes_only_old_files_witness :
  let this := Scenario.scratch in
  let w := Scenario.world_files in
  let t' := entries (snd (cleanupOldFiles this w)) in
  let k := (Scenario.scratch_key ++ ["fresh.bin"])%list in
  wf_table (entries w) = true /\
  (lookup t' k = lookup (entries w) k \/
   (lookup t' k = None /\
    exists d dm n m rd dt,
      resolve w (tempDir this) = Found d (Dir dm) /\ k = (d ++ [n])%list /\
      lookup (entries w) k = Some (File m rd dt) /\ (now w - m > oneHour)%Z)).
Proof.
  cbv zeta. split; [reflexivity|].
  exact (sweep_removes_only_old_files "/tmp" Scenario.world_files eq_refl
           (Scenario.scratch_key ++ ["fresh.bin"])%list).
Defined.

Lemma sweep_is_idempotent_witness :
  let this := Scenario.scratch in
  let w := Scenario.world_sweep in
  let w1 := snd (cleanupOldFiles this w) in
  wf_table (entries w) = true /\
  entries (snd (cleanupOldFiles this w1)) = entries w1.
Proof.
  cbv zeta. split; [reflexivity|].
  exact (sweep_is_idempotent "/tmp" Scenario.world_sweep eq_refl).
Defined.

Lemma constructor_creates_scratch_root_witness :
  let r := FileHandler.new "/tmp" Scenario.world_bare in
  resolve Scenario.world_bare (render true ["tmp"]) = Found ["tmp"] (Dir 0) /\
  r = (Return (FileHandler.mk "/tmp/chrome-mcp-uploads"),
       set_entries (entries Scenario.world_bare
                      ++ [(["tmp"; "chrome-mcp-uploads"], Dir 1000)])%list
                   Scenario.world_bare) /\
  FileHandler.new "/tmp" (snd r) = (Return (FileHandler.mk "/tmp/chrome-mcp-uploads"), snd r).
Proof.
  cbv zeta. split; [reflexivity|].
  destruct (constructor_creates_scratch_root true ["tmp"] eq_refl ltac:(discriminate)
              Scenario.world_bare ["tmp"] 0%Z eq_refl) as [A B].
  split; [exact A|].
  exact (proj1 (B _ _ (surjective_pairing _))).
Defined.


Lemma browsers_have_distinct_manifests_witness :
  no_sep isPathSeparator Scenario.host_name = true /\
  well_rooted Scenario.env_linux = true /\
  manifest_path Scenario.host_name Scenario.env_linux CHROME UserTier
    <> manifest_path Scenario.host_name Scenario.env_linux CHROMIUM UserTier.
Proof.
  split; [reflexivity|]. split; [reflexivity|].
  exact (browsers_have_distinct_manifests Scenario.host_name eq_refl
           Scenario.env_linux UserTier eq_refl).
Defined.

Lemma system_tier_ignores_browser_selection_witness :
  let o1 := Cli.mkOptions false true (Some "chrome") false in
  let o2 := Cli.mkOptions false true None true in
  Cli.resolveTier o1 Scenario.process_root = SystemTier /\
  Cli.register o1 Scenario.process_root = Cli.register o2 Scenario.process_root.
Proof.
  cbv zeta. split; [reflexivity|].
  exact (proj1 (system_tier_ignores_browser_selection
                  (Cli.mkOptions false true (Some "chrome") false)
                  (Cli.mkOptions false true None true)
                  Scenario.process_root eq_refl eq_refl
                  ltac:(discriminate) ltac:(discriminate))).
Defined.


Lemma staged_file_survives_the_hour_witness :
  let handle := handleFileRequest Scenario.url_pathname0 Scenario.base64_decode1 Scenario.scratch in
  let r := handle Scenario.stage_report Scenario.world_system in
  let k := (Scenario.scratch_key ++ ["report-00010203.pdf"])%list in
  fst r = Return (Some (Staged "/tmp/chrome-mcp-uploads/report-00010203.pdf"
                          "report-00010203.pdf" 2)) /\
  wf_table (entries (snd r)) = true /\
  (3601000 - now Scenario.world_system <= oneHour)%Z /\
  lookup (entries (snd (cleanupOldFiles Scenario.scratch (set_now 3601000 (snd r))))) k
    = Some (File 1000 true [Byte.x68; Byte.x69]).
Proof.
  cbv zeta. split; [vm_compute; reflexivity|]. split; [vm_compute; reflexivity|].
  assert (Hl : (3601000 - now Scenario.world_system <= oneHour)%Z)
    by (vm_compute; discriminate).
  split; [exact Hl|].
  destruct (staged_file_survives_the_hour Scenario.url_pathname0 Scenario.base64_decode1
              "/tmp" Scenario.stage_report Scenario.world_system
              "/tmp/chrome-mcp-uploads/report-00010203.pdf" "report-00010203.pdf" 2
              (snd (handleFileRequest Scenario.url_pathname0 Scenario.base64_decode1
                      Scenario.scratch Scenario.stage_report Scenario.world_system))
              3601000%Z Scenario.scratch_key 0%Z
              ltac:(vm_compute; reflexivity) (or_introl eq_refl) eq_refl eq_refl
              ltac:(vm_compute; reflexivity) Hl)
    as (r & buf & L0 & _ & L).
  vm_compute in L0. injection L0 as <- <-. exact L.
Defined.

Lemma failed_download_is_reported_witness :
  handleFileRequest Scenario.url_pathname0 Scenario.base64_decode1 Scenario.scratch
    Scenario.stage_report Scenario.world_offline
  = (Return (Some (Failure
       "Failed to download file from URL: Error: Failed to download file: Not Found")),
     Scenario.world_offline).
Proof.
  exact (failed_download_is_reported Scenario.url_pathname0 Scenario.base64_decode1
           Scenario.scratch Scenario.stage_report Scenario.world_offline
           Scenario.report_url eq_refl eq_refl eq_refl).
Defined.

(** The sweep of a root with an old directory between two old files, and
    of the same root when the directory is recent. *)
Lemma sweep_logs_each_deletion_witness :
  let this := Scenario.scratch in
  let d := Scenario.scratch_key in
  let stopped := Scenario.world_sweep in
  let clear := Scenario.world_recent_dir in
  (wf_table (entries stopped) = true /\
   resolve stopped (tempDir this) = Found d (Dir 0) /\
   children (entries stopped) d = (["a.bin"] ++ "cache" :: ["z.bin"])%list /\
   failing (now stopped) d (entries stopped) "cache" /\
   console (snd (cleanupOldFiles this stopped)) =
     [Out "Cleaned up old temp file: a.bin";
      Err "Error cleaning up old files:"
          (syserr "EISDIR" "unlink" "/tmp/chrome-mcp-uploads/cache")]) /\
  (wf_table (entries clear) = true /\
   resolve clear (tempDir this) = Found d (Dir 0) /\
   console (snd (cleanupOldFiles this clear)) =
     [Out "Cleaned up old temp file: a.bin"; Out "Cleaned up old temp file: z.bin"]).
Proof.
  cbv zeta. split.
  - split; [reflexivity|]. split; [reflexivity|]. split; [reflexivity|].
    assert (F : failing (now Scenario.world_sweep) Scenario.scratch_key
                  (entries Scenario.world_sweep) "cache") by reflexivity.
    split; [exact F|].
    refine (proj1 (proj2 (sweep_logs_each_deletion "/tmp" Scenario.world_sweep
                            Scenario.scratch_key 0%Z eq_refl eq_refl)
                     ["a.bin"] "cache" ["z.bin"] eq_refl _ F)).
    intros x [<-|[]] A. exact A.
  - split; [reflexivity|]. split; [reflexivity|].
    refine (proj1 (sweep_logs_each_deletion "/tmp" Scenario.world_recent_dir
                     Scenario.scratch_key 0%Z eq_refl eq_refl) _).
    intros x [<-|[<-|[<-|[]]]] A; [exact A|discriminate A|exact A].
Defined.


Lemma registered_browsers_are_supported_witness :
  let options := Cli.mkOptions false false None true in
  Cli.detected Scenario.process_user
    = detectInstalledBrowsers Scenario.which_chrome (fun _ => false) "linux" /\
  Cli.targets (Cli.register options Scenario.process_user) = Some [CHROME] /\
  ([CHROME] = [CHROME] \/ [CHROME] = [CHROMIUM] \/ [CHROME] = [CHROME; CHROMIUM]).
Proof.
  cbv zeta. split; [reflexivity|]. split; [reflexivity|].
  exact (registered_browsers_are_supported (Cli.mkOptions false false None true)
           Scenario.process_user Scenario.which_chrome (fun _ => false)
           eq_refl [CHROME] eq_refl).
Defined.

End MoreInstances.

(** ** Runs of the model *)

Example split_segments :
  split isPosixPathSeparator "/a//b" = [""; "a"; ""; "b"].
Proof. reflexivity. Qed.

Example normalize_traversal :
  posix.normalize "/tmp/chrome-mcp-uploads/../../etc/passwd" = "/etc/passwd".
Proof. reflexivity. Qed.

Example normalize_relative : posix.normalize "a/../../b/" = "../b/".
Proof. reflexivity. Qed.

Example extname_cases :
  map posix.extname ["a.b.c"; ".a"; "a."; ".."; "..."; "..b"; "x/y.tar.gz/"; "noext"]
  = [".c"; ""; "."; ""; "."; ".b"; ".gz"; ""].
Proof. reflexivity. Qed.

Example win32_join_cases :
  map win32.join
    [ ["C:\Users\ada\AppData\Roaming"; "Google"; "Chrome"];
      ["C:/x/../.."; "a"];
      ["\\server\share\x/"; "Chromium"] ]
  = [ "C:\Users\ada\AppData\Roaming\Google\Chrome";
      "C:\a";
      "\\server\share\x\Chromium" ].
Proof. reflexivity. Qed.

Example constructor_creates_root :
  let r := FileHandler.new "/var/tmp" Scenario.world_system in
  fst r = Return Scenario.scratch_var /\
  lookup (entries (snd r)) ["var"; "tmp"; "chrome-mcp-uploads"] = Some (Dir 1000).
Proof. vm_compute. split; reflexivity. Qed.

Example staged_report_name :
  fst (handleFileRequest Scenario.url_pathname0 Scenario.base64_decode0 Scenario.scratch
         (mkRequest (Some "prepareFile") (Some "https://example.org/files/report.pdf")
            None None None)
         Scenario.world_system)
  = Return (Some (Staged "/tmp/chrome-mcp-uploads/report-00010203.pdf"
                         "report-00010203.pdf" 2)).
Proof. vm_compute. reflexivity. Qed.

Example register_as_root :
  Cli.tier (Cli.register (Cli.mkOptions false false None false) Scenario.process_root)
  = Some BrowserConfig.SystemTier.
Proof. reflexivity. Qed.

Example sweep_passes_recent_directory :
  let r := cleanupOldFiles Scenario.scratch Scenario.world_recent_dir in
  map fst (entries (snd r)) =
    [["tmp"]; ["tmp"; "chrome-mcp-uploads"]; ["tmp"; "chrome-mcp-uploads"; "cache"]] /\
  console (snd r) =
    [Out "Cleaned up old temp file: a.bin"; Out "Cleaned up old temp file: z.bin"].
Proof. vm_compute. split; reflexivity. Qed.

Example handler_rejects_null :
  fst (handleFileRequest Scenario.url_pathname0 Scenario.base64_decode0 Scenario.scratch
         Null Scenario.world_system)
  = Throw (mkError "TypeError"
             "Cannot destructure property 'action' of 'request' as it is null.").
Proof. reflexivity. Qed.

Example register_browser_option :
  map (fun b => Cli.targetBrowsers (Cli.mkOptions false false (Some b) true)
                  Scenario.process_user)
      ["ALL"; "Chromium"; "firefox"]
  = [inr (Some [BrowserConfig.CHROME; BrowserConfig.CHROMIUM]);
     inr (Some [BrowserConfig.CHROMIUM]);
     inl tt].
Proof. reflexivity. Qed.
